(** * Pipes input device (Source/Core/InputCommon/ControllerInterface/Pipes/Pipes.cpp)

    A shallow embedding of the pipe-driven virtual controller: the button
    and axis state of a [PipeDevice], the textual command protocol
    ([ParseCommand]), the bipolar axis encoding ([SetAxis]) and the two
    polling loops of [UpdateInput] (named pipe and ZeroMQ builds), and the
    search for devices ([PopulateDevices]).

    C++ [double] is IEEE binary64, which is Rocq's primitive [float];
    [std::string] is [string]; [std::map<std::string, PipeInput*>] is a
    [gmap string PipeInput]. *)

From Stdlib Require Import ZArith Lia Bool List String Ascii Floats.
From stdpp Require Import base option gmap strings fin_maps.

Local Open Scope string_scope.

(** stdpp blocks the unfolding of string concatenation under [simpl];
    the inductions on strings below use it. *)
#[local] Arguments String.append !s1 s2 : simpl nomatch.

(** ** Doubles *)

Abbreviation double := float.

(** [ControlState] is the framework's name for the value of an input
    (a [double]). *)
Abbreviation ControlState := float.

(** [std::max(a, b)] is [(a < b) ? b : a] and [std::min(a, b)] is
    [(b < a) ? b : a]. *)
Definition std_max (a b : double) : double := if (a <? b)%float then b else a.
Definition std_min (a b : double) : double := if (b <? a)%float then b else a.

(** Modelled from the spec: the source of [MathUtil::Clamp]
    (Common/MathUtil.h) is missing; the specification says that it clamps
    the value into the closed range between its two bounds. *)
Definition Clamp (val min max : double) : double := std_max min (std_min max val).

(** ** Strings *)

(** [s.find(c)]: the position of the first occurrence, [None] for
    [std::string::npos]. *)
Fixpoint find (c : ascii) (s : string) : option nat :=
  match s with
  | EmptyString => None
  | String a s' => if Ascii.eqb a c then Some 0%nat else S <$> find c s'
  end.

Fixpoint str_take (n : nat) (s : string) : string :=
  match n, s with
  | S n', String a s' => String a (str_take n' s')
  | _, _ => EmptyString
  end.

Fixpoint str_drop (n : nat) (s : string) : string :=
  match n, s with
  | S n', String _ s' => str_drop n' s'
  | _, _ => s
  end.

(** [s.substr(pos, len)] and [s.erase(pos, len)] for [pos] within [s]. *)
Definition substr (s : string) (pos len : nat) : string := str_take len (str_drop pos s).
Definition erase (s : string) (pos len : nat) : string :=
  str_take pos s ++ str_drop (pos + len) s.

Definition newline : ascii := "010"%char.

(** Modelled from the spec: the source of [SplitString]
    (Common/StringUtil.h) is missing; the specification has the line split
    into tokens at the delimiter.  A token ends at each delimiter, and the
    text after the last delimiter is a token of its own unless it is
    empty. *)
Fixpoint SplitString_from (field : string) (str : string) (delim : ascii) : list string :=
  match str with
  | EmptyString => if String.eqb field "" then [] else [field]
  | String c rest =>
      if Ascii.eqb c delim then field :: SplitString_from "" rest delim
      else SplitString_from (field ++ String c "") rest delim
  end.

Definition SplitString (str : string) (delim : ascii) : list string :=
  SplitString_from "" str delim.

(** ** Reading a number: [StringToDouble]

    [is >> result] on a stream in the classic locale: leading white space
    is skipped, then the longest text of the form
    [sign] digits [. digits] [e [sign] digits] is converted to the nearest
    double.  When no number can be read the stored value is 0 (C++11), and
    a value too large in magnitude is stored as the largest finite double
    of its sign. *)

Definition is_space (c : ascii) : bool :=
  let n := nat_of_ascii c in (n =? 32)%nat || ((9 <=? n)%nat && (n <=? 13)%nat).

Definition is_digit (c : ascii) : bool :=
  let n := nat_of_ascii c in (48 <=? n)%nat && (n <=? 57)%nat.

Definition digit_value (c : ascii) : Z := Z.of_nat (nat_of_ascii c - 48).

Fixpoint skip_space (s : string) : string :=
  match s with
  | String c s' => if is_space c then skip_space s' else s
  | EmptyString => s
  end.

(** A run of digits: the number read so far, how many digits were read,
    and the text that follows. *)
Fixpoint read_digits (s : string) (acc : Z) (count : Z) : Z * Z * string :=
  match s with
  | String c s' =>
      if is_digit c then read_digits s' (10 * acc + digit_value c) (count + 1) else (acc, count, s)
  | EmptyString => (acc, count, s)
  end.

Definition read_sign (s : string) : bool * string :=
  match s with
  | String "-" s' => (true, s')
  | String "+" s' => (false, s')
  | _ => (false, s)
  end.

Definition max_double : double := 0x1.fffffffffffffp+1023%float.

(** The double nearest to [(-1)^neg * m * 10^x]. *)
Definition decimal_to_double (neg : bool) (m : Z) (x : Z) : double :=
  let r :=
    SF2Prim
      match m with
      | Zpos p =>
          if (0 <=? x)%Z then binary_round prec emax neg (p * Z.to_pos (10 ^ x)) 0
          else SFdiv prec emax (S754_finite neg p 0) (S754_finite false (Z.to_pos (10 ^ (- x))) 0)
      | _ => S754_zero neg
      end in
  if is_infinity r then (if neg then - max_double else max_double)%float else r.

Definition extract_double (text : string) : option double :=
  let '(neg, s1) := read_sign (skip_space text) in
  let '(ip, ni, s2) := read_digits s1 0 0 in
  let '(m, nf, s3) :=
    match s2 with
    | String "." s' => read_digits s' ip 0
    | _ => (ip, 0%Z, s2)
    end in
  if (ni + nf =? 0)%Z then None
  else
    match s3 with
    | String c s' =>
        if Ascii.eqb c "e" || Ascii.eqb c "E" then
          let '(eneg, s4) := read_sign s' in
          let '(ex, ne, _) := read_digits s4 0 0 in
          if (ne =? 0)%Z then None
          else Some (decimal_to_double neg m ((if eneg then - ex else ex) - nf))
        else Some (decimal_to_double neg m (- nf))
    | EmptyString => Some (decimal_to_double neg m (- nf))
    end.

Definition StringToDouble (text : string) : double :=
  match extract_double text with
  | Some result => result
  | None => 0%float
  end.

(** ** Inputs and the device *)

Record PipeInput := { m_name : string; m_state : ControlState }.

Definition GetState (inp : PipeInput) : ControlState := m_state inp.

Definition SetState (state : ControlState) (inp : PipeInput) : PipeInput :=
  {| m_name := m_name inp; m_state := state |}.

(** The device: the line accumulator [m_buf] of the named-pipe build and
    the two maps from names to inputs.  The descriptor [m_fd] and the
    socket [m_socket] stand for what waits on the channel, which
    [UpdateInput] is given when it polls; the registration of the inputs
    with the host framework ([AddInput], [AddAnalogInputs]) adds no state
    of its own. *)
Record PipeDevice := {
  m_buf : string;
  m_buttons : gmap string PipeInput;
  m_axes : gmap string PipeInput
}.

Definition with_buf (dev : PipeDevice) (buf : string) : PipeDevice :=
  {| m_buf := buf; m_buttons := m_buttons dev; m_axes := m_axes dev |}.

Definition with_buttons (dev : PipeDevice) (b : gmap string PipeInput) : PipeDevice :=
  {| m_buf := m_buf dev; m_buttons := b; m_axes := m_axes dev |}.

Definition with_axes (dev : PipeDevice) (a : gmap string PipeInput) : PipeDevice :=
  {| m_buf := m_buf dev; m_buttons := m_buttons dev; m_axes := a |}.

(** [auto search = m.find(key); if (search != m.end()) search->second->SetState(state);] *)
Definition find_SetState (m : gmap string PipeInput) (key : string) (state : ControlState)
  : gmap string PipeInput :=
  match m !! key with
  | Some inp => <[key := SetState state inp]> m
  | None => m
  end.

(** What the host reads: the current value of a button or of an axis half. *)
Definition button_state (dev : PipeDevice) (name : string) : option ControlState :=
  GetState <$> m_buttons dev !! name.

Definition axis_state (dev : PipeDevice) (key : string) : option ControlState :=
  GetState <$> m_axes dev !! key.

Definition s_button_tokens : list string :=
  ["A"; "B"; "X"; "Y"; "Z"; "START"; "L"; "R"; "D_UP"; "D_DOWN"; "D_LEFT"; "D_RIGHT"].

Definition s_shoulder_tokens : list string := ["L"; "R"].

Definition s_axis_tokens : list string := ["MAIN"; "C"].

Section Construction.

(** The state that the constructor of [PipeInput] gives a new input; the
    class is declared in Pipes.h, whose source is missing. *)
Variable initial_state : ControlState.

Definition new_PipeInput (name : string) : PipeInput :=
  {| m_name := name; m_state := initial_state |}.

Definition AddAxis (dev : PipeDevice) (name : string) (value : double) : PipeDevice :=
  let ax_hi := SetState value (new_PipeInput ("Axis " ++ name ++ " +")) in
  let ax_lo := SetState value (new_PipeInput ("Axis " ++ name ++ " -")) in
  with_axes dev (<[name ++ " -" := ax_lo]> (<[name ++ " +" := ax_hi]> (m_axes dev))).

Definition new_PipeDevice : PipeDevice :=
  let dev := {| m_buf := ""; m_buttons := ∅; m_axes := ∅ |} in
  let dev :=
    fold_left
      (fun dev tok => with_buttons dev (<[tok := new_PipeInput ("Button " ++ tok)]> (m_buttons dev)))
      s_button_tokens dev in
  let dev := fold_left (fun dev tok => AddAxis dev tok 0.0) s_shoulder_tokens dev in
  fold_left
    (fun dev tok => AddAxis (AddAxis dev (tok ++ " X") 0.5) (tok ++ " Y") 0.5)
    s_axis_tokens dev.

End Construction.

(** ** The axis encoding *)

(** The two magnitudes computed by [SetAxis] from the clamped value. *)
Definition axis_hi (value : double) : double := (std_max 0.0 (value - 0.5) * 2.0)%float.
Definition axis_lo (value : double) : double := ((0.5 - std_min 0.5 value) * 2.0)%float.

Definition SetAxis (dev : PipeDevice) (entry : string) (value : double) : PipeDevice :=
  let value := Clamp value 0.0 1.0 in
  let hi := axis_hi value in
  let lo := axis_lo value in
  let dev := with_axes dev (find_SetState (m_axes dev) (entry ++ " +") hi) in
  with_axes dev (find_SetState (m_axes dev) (entry ++ " -") lo).

(** ** Commands *)

(** [tokens[i]]; only read below the size of [tokens]. *)
Definition token (tokens : list string) (i : nat) : string := nth i tokens "".

(** The body of [ParseCommand] once the line is split. *)
Definition ParseTokens (dev : PipeDevice) (tokens : list string) : PipeDevice :=
  if (length tokens <? 2)%nat || (4 <? length tokens)%nat then dev
  else if String.eqb (token tokens 0) "PRESS" || String.eqb (token tokens 0) "RELEASE" then
    with_buttons dev
      (find_SetState (m_buttons dev) (token tokens 1)
         (if String.eqb (token tokens 0) "PRESS" then 1.0%float else 0.0%float))
  else if String.eqb (token tokens 0) "SET" then
    if (length tokens =? 3)%nat then
      let value := StringToDouble (token tokens 2) in
      SetAxis dev (token tokens 1) (value / 2.0 + 0.5)%float
    else if (length tokens =? 4)%nat then
      let x := StringToDouble (token tokens 2) in
      let y := StringToDouble (token tokens 3) in
      let dev := SetAxis dev (token tokens 1 ++ " X") x in
      SetAxis dev (token tokens 1 ++ " Y") y
    else dev
  else dev.

Definition ParseCommand (dev : PipeDevice) (command : string) : PipeDevice :=
  ParseTokens dev (SplitString command " ").

(** ** Polling, named-pipe build *)

Module NamedPipe.

(** The pipe is the text waiting in it.  [read(m_fd, buf, count)] takes
    up to [count] bytes off its front and says how many it took, or
    returns -1 when nothing is waiting. *)
Definition read (fd : string) (count : nat) : Z * string * string :=
  match fd with
  | EmptyString => ((-1)%Z, "", fd)
  | _ => let data := str_take count fd in
         (Z.of_nat (String.length data), data, str_drop count fd)
  end.

(** [while (bytes_read > 0) { m_buf.append(buf, bytes_read); bytes_read = read(...); }] *)
Fixpoint read_loop (fuel : nat) (bytes_read : Z) (buf : string) (dev : PipeDevice) (fd : string)
  : PipeDevice * string :=
  match fuel with
  | O => (dev, fd)
  | S fuel' =>
      if (0 <? bytes_read)%Z then
        let dev := with_buf dev (m_buf dev ++ buf) in
        let '(bytes_read, buf, fd) := read fd 32 in
        read_loop fuel' bytes_read buf dev fd
      else (dev, fd)
  end.

(** [while (newline != npos) { ParseCommand(m_buf.substr(0, newline));
    m_buf.erase(0, newline + 1); newline = m_buf.find("\n"); }] *)
Fixpoint parse_loop (fuel : nat) (newline_pos : option nat) (dev : PipeDevice) : PipeDevice :=
  match fuel, newline_pos with
  | S fuel', Some pos =>
      let command := substr (m_buf dev) 0 pos in
      let dev := ParseCommand dev command in
      let dev := with_buf dev (erase (m_buf dev) 0 (pos + 1)) in
      parse_loop fuel' (find newline (m_buf dev)) dev
  | _, _ => dev
  end.

(** Each turn of the first loop takes at least one byte off the pipe and
    each turn of the second at least one byte off [m_buf], which bounds
    the number of turns. *)
Definition UpdateInput (dev : PipeDevice) (fd : string) : PipeDevice * string :=
  let '(bytes_read, buf, fd') := read fd 32 in
  let '(dev, fd') := read_loop (S (String.length fd)) bytes_read buf dev fd' in
  (parse_loop (S (String.length (m_buf dev))) (find newline (m_buf dev)) dev, fd').

End NamedPipe.

(** ** Polling, ZeroMQ build *)

Module ZMQ.

(** [data[next] == c], for [next] within [data]. *)
Definition char_is (data : string) (next : nat) (c : ascii) : bool :=
  match String.get next data with
  | Some a => Ascii.eqb a c
  | None => false
  end.

(** [for (size_t next = 0; next < size; ++next)]: [todo] counts the
    turns that remain, [size - next]. *)
Fixpoint scan (data : string) (todo : nat) (next prev : nat) (dev : PipeDevice) : PipeDevice :=
  match todo with
  | O => dev
  | S todo' =>
      if char_is data next newline then
        let command := substr data prev (next - prev) in
        scan data todo' (S next) (S next) (ParseCommand dev command)
      else scan data todo' (S next) prev dev
  end.

(** The socket is the queue of messages waiting on it;
    [zmq_recvmsg(m_socket, &msg, ZMQ_DONTWAIT)] takes the first one, or
    fails with EAGAIN when there is none. *)
Definition UpdateInput (dev : PipeDevice) (socket : list string) : PipeDevice * list string :=
  match socket with
  | msg :: socket' => (scan msg (String.length msg) 0 0 dev, socket')
  | [] => (dev, [])
  end.

End ZMQ.

(** ** Finding the devices: [PopulateDevices] *)

Module Discovery.

(** [File::FSTEntry] (Common/FileUtil.h): a file or a directory with the
    entries found in it. *)
#[warnings="-register-all"]
Inductive FSTEntry := {
  isDirectory : bool;
  size : nat;
  physicalName : string;
  virtualName : string;
  children : list FSTEntry
}.

(** What the constructor of [PipeDevice] is given, and what it builds:
    the descriptor (or the port, in the ZeroMQ build), the name and the
    controls. *)
Record Opened := {
  m_fd : Z;
  m_name : string;
  controls : PipeDevice
}.

Section FileSystem.

(** The file system and the registry of the host stand outside this
    code: [File::GetUserPath(D_PIPES_IDX)], [File::Exists],
    [File::ScanDirectoryTree], [open(path, O_RDONLY | O_NONBLOCK)], the
    port that [in >> port] reads from a file, and
    [g_controller_interface.AddDevice]. *)
Variable dir_path : string.
Variable Exists : string -> bool.
Variable ScanDirectoryTree : string -> bool -> FSTEntry.
Variable open : string -> Z.
Variable read_port : string -> Z.
Variable Registry : Type.
Variable AddDevice : Registry -> Opened -> Registry.
Variable initial_state : ControlState.

Definition make_PipeDevice (fd : Z) (name : string) : Opened :=
  {| m_fd := fd; m_name := name; controls := new_PipeDevice initial_state |}.

(** [for (unsigned int i = 0; i < fst.size; ++i)]: [todo] counts the
    turns that remain, [fst.size - i].  [fst.children[i]] past the end of
    the vector has no defined result. *)
Fixpoint add_children (zmq : bool) (todo : nat) (i : nat) (fst : FSTEntry) (reg : Registry)
  : option Registry :=
  match todo with
  | O => Some reg
  | S todo' =>
      match nth_error (children fst) i with
      | None => None
      | Some child =>
          if isDirectory child then add_children zmq todo' (S i) fst reg
          else if zmq then
            let port := read_port (physicalName child) in
            add_children zmq todo' (S i) fst
              (AddDevice reg (make_PipeDevice port (virtualName child)))
          else
            let fd := open (physicalName child) in
            if (fd <? 0)%Z then add_children zmq todo' (S i) fst reg
            else
              add_children zmq todo' (S i) fst
                (AddDevice reg (make_PipeDevice fd (virtualName child)))
      end
  end.

(** [zmq] tells the build: with USE_ZMQ or without. *)
Definition PopulateDevices (zmq : bool) (reg : Registry) : option Registry :=
  if negb (Exists dir_path) then Some reg
  else
    let fst := ScanDirectoryTree dir_path false in
    if negb (isDirectory fst) then Some reg
    else add_children zmq (size fst) 0 fst reg.

(** The device that a child of the directory gives, if it gives one. *)
Definition device_of (zmq : bool) (child : FSTEntry) : option Opened :=
  if isDirectory child then None
  else if zmq then Some (make_PipeDevice (read_port (physicalName child)) (virtualName child))
  else if (open (physicalName child) <? 0)%Z then None
  else Some (make_PipeDevice (open (physicalName child)) (virtualName child)).

End FileSystem.

End Discovery.

(** * Vocabulary of the statements *)

(** ** Complete lines of a buffer

    The lines that end in a newline, in order and without their newline,
    and the text that follows the last newline. *)
Fixpoint complete_lines (s : string) : list string * string :=
  match s with
  | EmptyString => ([], "")
  | String c s' =>
      let '(ls, r) := complete_lines s' in
      if Ascii.eqb c newline then ("" :: ls, r)
      else match ls with
           | [] => ([], String c r)
           | l :: ls' => (String c l :: ls', r)
           end
  end.

(** ** Keys, lines and kinds of commands *)

Definition shoulder_keys : list string := ["L +"; "L -"; "R +"; "R -"].

Definition stick_keys : list string :=
  ["MAIN X +"; "MAIN X -"; "MAIN Y +"; "MAIN Y -"; "C X +"; "C X -"; "C Y +"; "C Y -"].

(** A PRESS or RELEASE line that [ParseCommand] acts on, and a SET line
    of one of the two forms. *)
Definition button_command (tokens : list string) : Prop :=
  (2 <= length tokens <= 4)%nat /\ (token tokens 0 = "PRESS" \/ token tokens 0 = "RELEASE").

Definition axis_command (tokens : list string) : Prop :=
  (length tokens = 3 \/ length tokens = 4)%nat /\ token tokens 0 = "SET".

(** Two button commands that name the same button, or two SET commands of
    the same form that name the same axis. *)
Definition same_control (t1 t2 : list string) : Prop :=
  token t1 1 = token t2 1
  /\ ((button_command t1 /\ button_command t2)
      \/ (axis_command t1 /\ axis_command t2 /\ length t1 = length t2)).

(** The value that a command writes into the button [name], when it
    writes it. *)
Definition button_write (name : string) (tokens : list string) : option ControlState :=
  if (2 <=? length tokens)%nat && (length tokens <=? 4)%nat
     && (String.eqb (token tokens 0) "PRESS" || String.eqb (token tokens 0) "RELEASE")
     && String.eqb (token tokens 1) name
  then Some (if String.eqb (token tokens 0) "PRESS" then 1.0%float else 0.0%float)
  else None.

(** The value that [SetAxis entry value] writes into the axis half [key],
    when it writes it. *)
Definition half_write (key entry : string) (value : double) : option ControlState :=
  if String.eqb key (entry ++ " -") then Some (axis_lo (Clamp value 0.0 1.0))
  else if String.eqb key (entry ++ " +") then Some (axis_hi (Clamp value 0.0 1.0))
  else None.

(** The value that a command writes into the axis half [key], when it
    writes it. *)
Definition axis_write (key : string) (tokens : list string) : option ControlState :=
  if String.eqb (token tokens 0) "SET" then
    if (length tokens =? 3)%nat then
      half_write key (token tokens 1) (StringToDouble (token tokens 2) / 2.0 + 0.5)%float
    else if (length tokens =? 4)%nat then
      match half_write key (token tokens 1 ++ " Y") (StringToDouble (token tokens 3)) with
      | Some v => Some v
      | None => half_write key (token tokens 1 ++ " X") (StringToDouble (token tokens 2))
      end
    else None
  else None.

(** The last write of a sequence of command lines, in their order. *)
Definition last_write (write : list string -> option ControlState) (lines : list string)
  : option ControlState :=
  fold_left
    (fun acc command =>
       match write (SplitString command " ") with Some v => Some v | None => acc end)
    lines None.

(** A write replaces the state of a control that exists. *)
Definition written (w : option ControlState) (old : option ControlState)
  : option ControlState :=
  match w with
  | Some v => (fun _ => v) <$> old
  | None => old
  end.

(** A line as it travels: the command and its newline. *)
Definition line (command : string) : string := command ++ String newline "".

(** A line is malformed for a device when its token count is outside
    2..4, or its first token is none of PRESS, RELEASE and SET, or it
    names a button the device does not have, or it is a SET line none of
    whose addressed axis halves the device has. *)
Definition malformed (dev : PipeDevice) (tokens : list string) : Prop :=
  (length tokens < 2 \/ 4 < length tokens)%nat
  \/ (token tokens 0 <> "PRESS" /\ token tokens 0 <> "RELEASE" /\ token tokens 0 <> "SET")
  \/ ((token tokens 0 = "PRESS" \/ token tokens 0 = "RELEASE")
      /\ m_buttons dev !! token tokens 1 = None)
  \/ (token tokens 0 = "SET" /\ length tokens = 3%nat
      /\ m_axes dev !! (token tokens 1 ++ " +") = None
      /\ m_axes dev !! (token tokens 1 ++ " -") = None)
  \/ (token tokens 0 = "SET" /\ length tokens = 4%nat
      /\ m_axes dev !! ((token tokens 1 ++ " X") ++ " +") = None
      /\ m_axes dev !! ((token tokens 1 ++ " X") ++ " -") = None
      /\ m_axes dev !! ((token tokens 1 ++ " Y") ++ " +") = None
      /\ m_axes dev !! ((token tokens 1 ++ " Y") ++ " -") = None).

(** ** Doubles as scaled integers *)

Section ScaledValues.

Local Open Scope Z_scope.

(** Rounding to nearest, ties to even, on scaled integers.

    A finite double [m * 2^e] is written as the integer [m * 2^(e + bias)];
    [bias] is large enough for every exponent that occurs below. *)

Definition bias : Z := 1200.
Definition Kmin : Z := bias - 1074.

(** The multiple of [2^K] nearest to [N], as a count of [2^K]. *)
Definition rne (N K : Z) : Z :=
  let q := N / 2 ^ K in
  let r := N mod 2 ^ K in
  if 2 * r <? 2 ^ K then q
  else if 2 ^ K <? 2 * r then q + 1
  else if Z.even q then q else q + 1.

(** The exponent of the last place of a 53-bit significand for [N]. *)
Definition grid (N : Z) : Z := Z.max (Z.log2 N - 52) Kmin.

Definition R (N : Z) : Z := rne N (grid N) * 2 ^ grid N.

(** The record after [k] shifts: quotient, round bit, sticky bit. *)
Definition shifted (m n : Z) : shr_record :=
  {| shr_m := m / 2 ^ n;
     shr_r := 2 ^ (n - 1) <=? m mod 2 ^ n;
     shr_s := negb (m mod 2 ^ (n - 1) =? 0) |}.

(** [x] is the non-negative double whose scaled value is [V]. *)
Definition represents (x : spec_float) (V : Z) : Prop :=
  match x with
  | S754_zero _ => V = 0
  | S754_finite false m e => bounded prec emax m e = true /\ V = Z.pos m * 2 ^ (e + bias)
  | _ => False
  end.

Definition vHalf : Z := 2 ^ (bias - 1).
Definition vOne : Z := 2 ^ bias.

Definition HI (a : Z) : Z := if a <=? vHalf then 0 else R (2 * R (a - vHalf)).
Definition LO (a : Z) : Z := if vHalf <=? a then 0 else R (2 * R (vHalf - a)).

End ScaledValues.

(** ** Text without a digit *)


(** ** States in the unit interval *)

Definition in_unit (state : ControlState) : bool :=
  ((0 <=? state) && (state <=? 1))%float.

Definition axes_in_unit (dev : PipeDevice) : Prop :=
  forall key inp, m_axes dev !! key = Some inp -> in_unit (GetState inp) = true.

(** The device after one poll for each entry of [polls], in order. *)
Definition pipe_polls (dev : PipeDevice) (polls : list string) : PipeDevice :=
  fold_left (fun dev fd => fst (NamedPipe.UpdateInput dev fd)) polls dev.

Definition zmq_polls (dev : PipeDevice) (messages : list string) : PipeDevice :=
  fold_left (fun dev msg => fst (ZMQ.UpdateInput dev [msg])) messages dev.

(** The axes that a SET line names: one for the form with one value, the
    X and the Y axis of a stick for the form with two. *)
Definition axis_entries (tokens : list string) : list string :=
  if (length tokens =? 3)%nat then [token tokens 1]
  else if (length tokens =? 4)%nat then [token tokens 1 ++ " X"; token tokens 1 ++ " Y"]
  else [].

(** A button only ever holds the state it was built with, 0 or 1. *)
Definition buttons_binary (initial_state : ControlState) (dev : PipeDevice) : Prop :=
  forall name inp, m_buttons dev !! name = Some inp ->
    GetState inp = initial_state \/ GetState inp = 0%float \/ GetState inp = 1%float.

(** ** The sign of a double *)

(** [x] is a zero, or a number or an infinity of sign [s]. *)
Definition sign_in (s : bool) (x : spec_float) : bool :=
  match x with
  | S754_zero _ => true
  | S754_infinity s' | S754_finite s' _ _ => Bool.eqb s s'
  | S754_nan => false
  end.

(** * Properties *)

(** ** Strings *)

Lemma str_take_drop n s : str_take n s ++ str_drop n s = s.
Proof.
  revert s; induction n as [|n IH]; intros [|a s]; simpl; try reflexivity.
  now rewrite IH.
Qed.

Lemma str_app_assoc (a b c : string) : (a ++ b) ++ c = a ++ (b ++ c).
Proof. induction a as [|x a IH]; simpl; [reflexivity | now rewrite IH]. Qed.

Lemma str_app_nil_r (a : string) : a ++ "" = a.
Proof. induction a as [|x a IH]; simpl; [reflexivity | now rewrite IH]. Qed.

Lemma str_length_app (a b : string) :
  String.length (a ++ b) = (String.length a + String.length b)%nat.
Proof. induction a as [|x a IH]; simpl; [reflexivity | now rewrite IH]. Qed.

Lemma str_drop_length n s : (String.length (str_drop n s) <= String.length s)%nat.
Proof.
  revert s; induction n as [|n IH]; intros [|a s]; simpl; try lia.
  specialize (IH s); lia.
Qed.

Lemma str_drop_0 s : str_drop 0 s = s.
Proof. now destruct s. Qed.

Lemma find_app_None c a b :
  find c a = None -> find c (a ++ b) = (fun n => String.length a + n)%nat <$> find c b.
Proof.
  induction a as [|x a IH]; simpl.
  - intros _. now destruct (find c b).
  - destruct (Ascii.eqb x c); [discriminate|].
    destruct (find c a) eqn:E; [discriminate|]. intros _.
    rewrite IH by reflexivity. now destruct (find c b).
Qed.

Lemma find_None_app c a b : find c a = None -> find c b = None -> find c (a ++ b) = None.
Proof. intros Ha Hb. rewrite find_app_None by assumption. now rewrite Hb. Qed.

Lemma find_Some_split c s n :
  find c s = Some n ->
  s = str_take n s ++ String c (str_drop (S n) s) /\ find c (str_take n s) = None
  /\ (n < String.length s)%nat.
Proof.
  revert n; induction s as [|a s IH]; simpl; intros n; [discriminate|].
  destruct (Ascii.eqb_spec a c) as [->|Hne].
  - intros [= <-]. simpl. rewrite ?str_drop_0. repeat split; lia.
  - destruct (find c s) as [k|] eqn:E; [|discriminate].
    intros [= <-]. destruct (IH k eq_refl) as (H1 & H2 & H3).
    apply Ascii.eqb_neq in Hne. split; [|split].
    + change (String a s = String a (str_take k s ++ String c (str_drop (S k) s))).
      now f_equal.
    + change (find c (String a (str_take k s)) = None). simpl. now rewrite Hne, H2.
    + simpl. lia.
Qed.

Lemma complete_lines_None s : find newline s = None -> complete_lines s = ([], s).
Proof.
  induction s as [|a s IH]; simpl; [reflexivity|].
  destruct (Ascii.eqb a newline); [discriminate|].
  destruct (find newline s); [discriminate|]. intros _.
  now rewrite IH.
Qed.

Lemma complete_lines_cons l s :
  find newline l = None ->
  complete_lines (l ++ String newline s) =
    (l :: fst (complete_lines s), snd (complete_lines s)).
Proof.
  induction l as [|a l IH]; simpl.
  - intros _. rewrite ?Ascii.eqb_refl. now destruct (complete_lines s).
  - destruct (Ascii.eqb a newline); [discriminate|].
    destruct (find newline l); [discriminate|]. intros _.
    now rewrite IH.
Qed.

Lemma complete_lines_rest s : find newline (snd (complete_lines s)) = None.
Proof.
  induction s as [|a s IH]; simpl; [reflexivity|].
  destruct (complete_lines s) as [ls r]. simpl in IH.
  destruct (Ascii.eqb a newline) eqn:E; simpl; [assumption|].
  destruct ls; simpl; [|assumption]. now rewrite E, IH.
Qed.

Lemma str_drop_length_eq n s :
  String.length (str_drop n s) = (String.length s - n)%nat.
Proof.
  revert s; induction n as [|n IH]; intros [|a s]; simpl; try reflexivity.
  apply IH.
Qed.

Lemma str_drop_drop a b s : str_drop a (str_drop b s) = str_drop (b + a) s.
Proof.
  revert s; induction b as [|b IH]; intros s; simpl.
  - now rewrite ?str_drop_0.
  - destruct s as [|c s]; [now destruct a|]. apply IH.
Qed.

Lemma str_take_all n s : (String.length s <= n)%nat -> str_take n s = s.
Proof.
  revert s; induction n as [|n IH]; intros [|a s]; simpl; intros H; try reflexivity; [lia|].
  f_equal. apply IH. lia.
Qed.

Lemma str_drop_cons n s :
  (n < String.length s)%nat -> exists c, str_drop n s = String c (str_drop (S n) s).
Proof.
  revert s; induction n as [|n IH]; intros [|a s]; simpl; intros H; try lia.
  - exists a. now rewrite ?str_drop_0.
  - apply IH. lia.
Qed.

Lemma get_str_drop n s c rest : str_drop n s = String c rest -> String.get n s = Some c.
Proof.
  revert s; induction n as [|n IH]; intros [|a s]; simpl; try discriminate.
  - now intros [= -> _].
  - apply IH.
Qed.

Lemma str_take_S n s c rest :
  str_drop n s = String c rest -> str_take (S n) s = str_take n s ++ String c "".
Proof.
  revert s; induction n as [|n IH]; intros [|a s]; simpl; try discriminate.
  - now intros [= -> _].
  - intros H. f_equal. now apply IH.
Qed.

(** ** The line buffer is a field apart

    Commands read and write the two maps only; [m_buf] is carried along. *)

Lemma with_buf_id dev : with_buf dev (m_buf dev) = dev.
Proof. now destruct dev. Qed.

Lemma SetAxis_with_buf dev buf entry value :
  SetAxis (with_buf dev buf) entry value = with_buf (SetAxis dev entry value) buf.
Proof. reflexivity. Qed.

Lemma ParseTokens_with_buf dev buf tokens :
  ParseTokens (with_buf dev buf) tokens = with_buf (ParseTokens dev tokens) buf.
Proof.
  unfold ParseTokens.
  repeat match goal with |- context [if ?b then _ else _] => destruct b end;
    reflexivity.
Qed.

Lemma ParseCommand_with_buf dev buf command :
  ParseCommand (with_buf dev buf) command = with_buf (ParseCommand dev command) buf.
Proof. apply ParseTokens_with_buf. Qed.

Lemma ParseTokens_buf dev tokens : m_buf (ParseTokens dev tokens) = m_buf dev.
Proof.
  unfold ParseTokens.
  repeat match goal with |- context [if ?b then _ else _] => destruct b end;
    reflexivity.
Qed.

Lemma ParseCommand_buf dev command : m_buf (ParseCommand dev command) = m_buf dev.
Proof. apply ParseTokens_buf. Qed.

Lemma fold_ParseCommand_with_buf lines dev buf :
  fold_left ParseCommand lines (with_buf dev buf) =
  with_buf (fold_left ParseCommand lines dev) buf.
Proof.
  revert dev; induction lines as [|l lines IH]; intros dev; simpl; [reflexivity|].
  now rewrite ParseCommand_with_buf, IH.
Qed.

Lemma fold_ParseCommand_buf lines dev :
  m_buf (fold_left ParseCommand lines dev) = m_buf dev.
Proof.
  revert dev; induction lines as [|l lines IH]; intros dev; simpl; [reflexivity|].
  now rewrite IH, ParseCommand_buf.
Qed.

(** ** The polling loops run to completion *)

Section NamedPipeLoops.
Import NamedPipe.

Lemma read_loop_all fuel : forall fd dev,
  (String.length fd < fuel)%nat ->
  (let '(bytes_read, buf, fd') := read fd 32 in
   read_loop fuel bytes_read buf dev fd') = (with_buf dev (m_buf dev ++ fd), "").
Proof.
  induction fuel as [|fuel IH]; intros fd dev Hlen; [lia|].
  destruct fd as [|a fd].
  - simpl. now rewrite str_app_nil_r, with_buf_id.
  - set (s := String a fd) in *.
    assert (Hread : read s 32 =
              (Z.of_nat (String.length (str_take 32 s)), str_take 32 s, str_drop 32 s))
      by reflexivity.
    rewrite Hread.
    assert (Hpos : (0 <? Z.of_nat (String.length (str_take 32 s)))%Z = true)
      by (apply Z.ltb_lt; subst s; simpl; lia).
    cbn [read_loop]. rewrite Hpos.
    assert (Hdrop : (String.length (str_drop 32 s) < fuel)%nat).
    { subst s. change (str_drop 32 (String a fd)) with (str_drop 31 fd).
      simpl in Hlen. apply Nat.le_lt_trans with (String.length fd); [|clear - Hlen; lia].
      apply str_drop_length. }
    specialize (IH (str_drop 32 s) (with_buf dev (m_buf dev ++ str_take 32 s)) Hdrop).
    destruct (read (str_drop 32 s) 32) as [[n buf] fd'].
    rewrite IH. cbn [m_buf with_buf]. 
    now rewrite str_app_assoc, str_take_drop.
Qed.

Lemma parse_loop_lines fuel : forall dev,
  (String.length (m_buf dev) < fuel)%nat ->
  parse_loop fuel (find newline (m_buf dev)) dev =
  with_buf (fold_left ParseCommand (fst (complete_lines (m_buf dev))) dev)
           (snd (complete_lines (m_buf dev))).
Proof.
  induction fuel as [|fuel IH]; intros dev Hlen; [lia|].
  destruct (find newline (m_buf dev)) as [pos|] eqn:Hfind.
  - destruct (find_Some_split _ _ _ Hfind) as (Hsplit & Hline & Hpos).
    cbn [parse_loop].
    rewrite ParseCommand_buf.
    assert (Herase : erase (m_buf dev) 0 (pos + 1) = str_drop (S pos) (m_buf dev)).
    { unfold erase. simpl. now rewrite Nat.add_1_r. }
    assert (Hsub : substr (m_buf dev) 0 pos = str_take pos (m_buf dev)).
    { unfold substr. now rewrite ?str_drop_0. }
    rewrite Herase, Hsub.
    set (dev' := with_buf (ParseCommand dev (str_take pos (m_buf dev)))
                          (str_drop (S pos) (m_buf dev))).
    assert (Hlen' : (String.length (m_buf dev') < fuel)%nat).
    { subst dev'. cbn [m_buf with_buf].
      pose proof (f_equal String.length Hsplit) as HL.
      rewrite str_length_app in HL.
      change (String.length (String newline (str_drop (S pos) (m_buf dev))))
        with (S (String.length (str_drop (S pos) (m_buf dev)))) in HL.
      lia. }
    rewrite (IH dev' Hlen').
    assert (Hcl : complete_lines (m_buf dev) =
              (str_take pos (m_buf dev) :: fst (complete_lines (str_drop (S pos) (m_buf dev))),
               snd (complete_lines (str_drop (S pos) (m_buf dev)))))
      by (rewrite Hsplit at 1; apply complete_lines_cons, Hline).
    rewrite Hcl.
    subst dev'. cbn [m_buf with_buf fst snd fold_left].
    now rewrite fold_ParseCommand_with_buf.
  - rewrite (complete_lines_None _ Hfind). simpl.
    now rewrite with_buf_id.
Qed.

(** One poll appends all that waits in the pipe to [m_buf], runs the
    complete lines in order and keeps the text after the last newline. *)
Lemma pipe_UpdateInput_lines dev fd :
  UpdateInput dev fd =
  (with_buf (fold_left ParseCommand (fst (complete_lines (m_buf dev ++ fd))) dev)
            (snd (complete_lines (m_buf dev ++ fd))), "").
Proof.
  unfold UpdateInput.
  pose proof (read_loop_all (S (String.length fd)) fd dev (Nat.lt_succ_diag_r _)) as Hr.
  destruct (read fd 32) as [[n buf] fd'].
  rewrite Hr.
  rewrite parse_loop_lines by (apply Nat.lt_succ_diag_r).
  cbn [m_buf with_buf].
  now rewrite fold_ParseCommand_with_buf.
Qed.

(** The second loop stops only when no newline is left in [m_buf]. *)
Lemma pipe_UpdateInput_no_newline dev fd :
  find newline (m_buf (fst (UpdateInput dev fd))) = None.
Proof. rewrite pipe_UpdateInput_lines. apply complete_lines_rest. Qed.

End NamedPipeLoops.

Section ZMQLoop.
Import ZMQ.

(** The scan of one message runs the complete lines of the text from
    [prev] on, given that no newline lies between [prev] and [next]. *)
Lemma scan_lines todo : forall data next prev dev,
  (next + todo = String.length data)%nat ->
  (prev <= next)%nat ->
  find newline (substr data prev (next - prev)) = None ->
  scan data todo next prev dev =
  fold_left ParseCommand (fst (complete_lines (str_drop prev data))) dev.
Proof.
  induction todo as [|todo IH]; intros data next prev dev Hlen Hle Hseg.
  - simpl. unfold substr in Hseg.
    rewrite str_take_all in Hseg by (rewrite str_drop_length_eq; lia).
    now rewrite (complete_lines_None _ Hseg).
  - destruct (str_drop_cons next data) as [c Hc]; [lia|].
    assert (Hd : str_drop (next - prev) (str_drop prev data) = String c (str_drop (S next) data)).
    { rewrite str_drop_drop. replace (prev + (next - prev))%nat with next by lia. exact Hc. }
    cbn [scan]. unfold char_is. rewrite (get_str_drop _ _ _ _ Hc).
    destruct (Ascii.eqb_spec c newline) as [->|Hne].
    + rewrite (IH data (S next) (S next) _); [|lia|lia|].
      2:{ unfold substr. now rewrite Nat.sub_diag. }
      pose proof (str_take_drop (next - prev) (str_drop prev data)) as Hsplit.
      rewrite Hd in Hsplit. unfold substr in Hseg |- *.
      rewrite <- Hsplit at 2.
      now rewrite (complete_lines_cons _ _ Hseg).
    + apply IH; [lia|lia|].
      unfold substr in *. replace (S next - prev)%nat with (S (next - prev)) by lia.
      rewrite (str_take_S _ _ _ _ Hd).
      apply find_None_app; [assumption|].
      simpl. apply Ascii.eqb_neq in Hne. now rewrite Hne.
Qed.

(** One poll takes the first waiting message and runs its complete
    lines in order. *)
Lemma zmq_UpdateInput_lines dev msg socket :
  UpdateInput dev (msg :: socket) =
  (fold_left ParseCommand (fst (complete_lines msg)) dev, socket).
Proof.
  unfold UpdateInput. f_equal.
  rewrite scan_lines; [now rewrite ?str_drop_0|simpl; lia|lia|reflexivity].
Qed.

End ZMQLoop.

(** ** Lookups after [find_SetState] *)

Lemma find_SetState_None m key state :
  m !! key = None -> find_SetState m key state = m.
Proof. unfold find_SetState. now intros ->. Qed.

Lemma find_SetState_lookup m key state :
  find_SetState m key state !! key = SetState state <$> m !! key.
Proof.
  unfold find_SetState. destruct (m !! key) eqn:E; simpl.
  - apply lookup_insert_eq.
  - exact E.
Qed.

Lemma find_SetState_lookup_ne m key state k :
  key <> k -> find_SetState m key state !! k = m !! k.
Proof.
  intros Hne. unfold find_SetState. destruct (m !! key); [|reflexivity].
  now apply lookup_insert_ne.
Qed.

Lemma find_SetState_twice m key s1 s2 :
  find_SetState (find_SetState m key s1) key s2 = find_SetState m key s2.
Proof.
  apply map_eq; intros k. destruct (decide (key = k)) as [<-|Hne].
  - rewrite !find_SetState_lookup. now destruct (m !! key).
  - now rewrite !find_SetState_lookup_ne.
Qed.

Lemma find_SetState_comm m k1 s1 k2 s2 :
  k1 <> k2 ->
  find_SetState (find_SetState m k1 s1) k2 s2 = find_SetState (find_SetState m k2 s2) k1 s1.
Proof.
  intros Hne. apply map_eq; intros k.
  destruct (decide (k1 = k)) as [<-|H1]; [|destruct (decide (k2 = k)) as [<-|H2]].
  - rewrite (find_SetState_lookup_ne _ k2) by congruence.
    rewrite !find_SetState_lookup.
    now rewrite (find_SetState_lookup_ne _ k2) by congruence.
  - rewrite (find_SetState_lookup_ne _ k1 s1 k2) by congruence.
    rewrite !find_SetState_lookup.
    now rewrite (find_SetState_lookup_ne _ k1) by congruence.
  - now rewrite !find_SetState_lookup_ne.
Qed.

Lemma half_keys_differ (entry : string) : entry ++ " +" <> entry ++ " -".
Proof. intros H. apply (inj (String.app entry)) in H. discriminate. Qed.

(** ** The cases of [ParseTokens] *)

Lemma ParseTokens_count dev (tokens : list string) :
  (length tokens < 2 \/ 4 < length tokens)%nat -> ParseTokens dev tokens = dev.
Proof.
  intros H. unfold ParseTokens.
  destruct (length tokens <? 2)%nat eqn:E1; [reflexivity|].
  destruct (4 <? length tokens)%nat eqn:E2; [reflexivity|].
  apply Nat.ltb_ge in E1, E2. lia.
Qed.

Lemma in_range_tokens (tokens : list string) :
  (2 <= length tokens <= 4)%nat ->
  (length tokens <? 2)%nat || (4 <? length tokens)%nat = false.
Proof.
  intros H. apply orb_false_iff. split; apply Nat.ltb_ge; lia.
Qed.

Lemma ParseTokens_button dev (tokens : list string) :
  (2 <= length tokens <= 4)%nat ->
  token tokens 0 = "PRESS" \/ token tokens 0 = "RELEASE" ->
  ParseTokens dev tokens =
  with_buttons dev
    (find_SetState (m_buttons dev) (token tokens 1)
       (if String.eqb (token tokens 0) "PRESS" then 1.0%float else 0.0%float)).
Proof.
  intros Hn Hv. unfold ParseTokens. rewrite (in_range_tokens _ Hn).
  now destruct Hv as [-> | ->].
Qed.

Lemma ParseTokens_SET3 dev (tokens : list string) :
  length tokens = 3%nat -> token tokens 0 = "SET" ->
  ParseTokens dev tokens =
  SetAxis dev (token tokens 1) (StringToDouble (token tokens 2) / 2.0 + 0.5)%float.
Proof. intros Hn Hv. unfold ParseTokens. now rewrite Hn, Hv. Qed.

Lemma ParseTokens_SET4 dev (tokens : list string) :
  length tokens = 4%nat -> token tokens 0 = "SET" ->
  ParseTokens dev tokens =
  SetAxis (SetAxis dev (token tokens 1 ++ " X") (StringToDouble (token tokens 2)))
          (token tokens 1 ++ " Y") (StringToDouble (token tokens 3)).
Proof. intros Hn Hv. unfold ParseTokens. now rewrite Hn, Hv. Qed.

Lemma ParseTokens_SET2 dev (tokens : list string) :
  length tokens = 2%nat -> token tokens 0 = "SET" -> ParseTokens dev tokens = dev.
Proof. intros Hn Hv. unfold ParseTokens. now rewrite Hn, Hv. Qed.

Lemma ParseTokens_other dev (tokens : list string) :
  token tokens 0 <> "PRESS" -> token tokens 0 <> "RELEASE" -> token tokens 0 <> "SET" ->
  ParseTokens dev tokens = dev.
Proof.
  intros H1 H2 H3. unfold ParseTokens.
  apply String.eqb_neq in H1, H2, H3. rewrite H1, H2, H3. simpl.
  now destruct (_ || _).
Qed.

(** An axis entry none of whose halves exists is left alone. *)
Lemma SetAxis_unknown dev entry value :
  m_axes dev !! (entry ++ " +") = None -> m_axes dev !! (entry ++ " -") = None ->
  SetAxis dev entry value = dev.
Proof.
  intros Hhi Hlo. unfold SetAxis. cbn [m_axes with_axes].
  rewrite (find_SetState_None _ _ _ Hhi), (find_SetState_None _ _ _ Hlo).
  now destruct dev.
Qed.

(** Two doubles that the bitwise comparison tells apart are different. *)
Lemma Some_float_neq (a b : double) : PrimFloat.Leibniz.eqb a b = false -> Some a <> Some b.
Proof. intros H [= ->]. rewrite (proj2 (FloatAxioms.Leibniz.eqb_spec b b) eq_refl) in H. discriminate. Qed.

(** * The device at construction *)

(** C10: at construction every button holds the state that a new input is
    given, both halves of the shoulder axes L and R hold 0.0, and both
    halves of each stick axis component hold 0.5, so the two halves of a
    stick component are both non-zero until a command sets them; these
    twelve buttons and twelve halves are all there is, and the line buffer
    is empty. *)
Theorem new_PipeDevice_state (initial_state : ControlState) :
  let dev := new_PipeDevice initial_state in
  Forall (fun tok => button_state dev tok = Some initial_state) s_button_tokens
  /\ Forall (fun key => axis_state dev key = Some 0.0%float) shoulder_keys
  /\ Forall (fun key => axis_state dev key = Some 0.5%float) stick_keys
  /\ (0.5 =? 0.0)%float = false
  /\ dom (m_buttons dev) = list_to_set s_button_tokens
  /\ dom (m_axes dev) = list_to_set (shoulder_keys ++ stick_keys)
  /\ m_buf dev = "".
Proof.
  cbv zeta. repeat apply conj.
  - repeat constructor.
  - repeat constructor.
  - repeat constructor.
  - reflexivity.
  - vm_compute. reflexivity.
  - vm_compute. reflexivity.
  - reflexivity.
Qed.

(** * Commands *)

(** C1, as the specification has it, fails: on a new device the line
    "SET MAIN 1.0" does not bring "MAIN X +" to 1.0 and "MAIN X -" to 0.0. *)
Lemma SET_MAIN_one_value_counterexample :
  ~ (axis_state (ParseCommand (new_PipeDevice 0) "SET MAIN 1.0") "MAIN X +" = Some 1.0%float
     /\ axis_state (ParseCommand (new_PipeDevice 0) "SET MAIN 1.0") "MAIN X -" = Some 0.0%float).
Proof.
  intros [H _]. vm_compute in H. revert H. apply Some_float_neq. reflexivity.
Qed.

(** C1, amended: on a new device the three-token line "SET MAIN 1.0"
    addresses the halves "MAIN +" and "MAIN -", which do not exist, and
    changes nothing, so "MAIN X +" and "MAIN X -" keep their initial 0.5.
    The three-token form is the one of the shoulder axes ("SET L 1.0"
    gives "L +" = 1.0 and "L -" = 0.0); on the stick it is the four-token
    line "SET MAIN 1.0 0.5" that gives "MAIN X +" = 1.0 and
    "MAIN X -" = 0.0. *)
Theorem SET_one_value_on_new_device (initial_state : ControlState) :
  let dev := new_PipeDevice initial_state in
  ParseCommand dev "SET MAIN 1.0" = dev
  /\ axis_state (ParseCommand dev "SET MAIN 1.0") "MAIN X +" = Some 0.5%float
  /\ axis_state (ParseCommand dev "SET MAIN 1.0") "MAIN X -" = Some 0.5%float
  /\ axis_state (ParseCommand dev "SET L 1.0") "L +" = Some 1.0%float
  /\ axis_state (ParseCommand dev "SET L 1.0") "L -" = Some 0.0%float
  /\ axis_state (ParseCommand dev "SET MAIN 1.0 0.5") "MAIN X +" = Some 1.0%float
  /\ axis_state (ParseCommand dev "SET MAIN 1.0 0.5") "MAIN X -" = Some 0.0%float.
Proof. cbv zeta. repeat apply conj; vm_compute; reflexivity. Qed.

(** C2, as the specification has it, fails: "PRESS A B" has three tokens
    and presses button A. *)
Lemma PRESS_three_tokens_counterexample :
  let dev := new_PipeDevice 0 in
  token (SplitString "PRESS A B" " ") 0 = "PRESS"
  /\ length (SplitString "PRESS A B" " ") = 3%nat
  /\ button_state dev "A" = Some 0.0%float
  /\ button_state (ParseCommand dev "PRESS A B") "A" = Some 1.0%float
  /\ ParseCommand dev "PRESS A B" <> dev.
Proof.
  cbv zeta. repeat apply conj; try (vm_compute; reflexivity).
  intros H. apply (f_equal (fun d => button_state d "A")) in H.
  vm_compute in H. revert H. apply Some_float_neq. reflexivity.
Qed.

(** C2, amended: a line whose first token is PRESS or RELEASE acts when it
    has 2, 3 or 4 tokens; what follows the button name is not looked at.
    The button named by the second token, when the device has it, is set
    to 1.0 (PRESS) or 0.0 (RELEASE); every other button, the axes and the
    line buffer stay as they are.  With fewer than 2 or more than 4
    tokens the line is ignored. *)
Theorem PRESS_RELEASE_tokens (dev : PipeDevice) (command : string) :
  let tokens := SplitString command " " in
  let state := if String.eqb (token tokens 0) "PRESS" then 1.0%float else 0.0%float in
  token tokens 0 = "PRESS" \/ token tokens 0 = "RELEASE" ->
  ((2 <= length tokens <= 4)%nat ->
     ParseCommand dev command =
       with_buttons dev (find_SetState (m_buttons dev) (token tokens 1) state)
     /\ button_state (ParseCommand dev command) (token tokens 1) =
          (fun _ => state) <$> button_state dev (token tokens 1)
     /\ (forall name, name <> token tokens 1 ->
           m_buttons (ParseCommand dev command) !! name = m_buttons dev !! name)
     /\ m_axes (ParseCommand dev command) = m_axes dev
     /\ m_buf (ParseCommand dev command) = m_buf dev)
  /\ ((length tokens < 2 \/ 4 < length tokens)%nat -> ParseCommand dev command = dev).
Proof.
  intros tokens state Hverb. split.
  - intros Hn. unfold ParseCommand. fold tokens.
    rewrite (ParseTokens_button dev tokens Hn Hverb). fold state.
    repeat apply conj; try reflexivity.
    + unfold button_state. cbn [m_buttons with_buttons].
      rewrite find_SetState_lookup. now destruct (m_buttons dev !! token tokens 1).
    + intros name Hne. cbn [m_buttons with_buttons].
      apply find_SetState_lookup_ne. congruence.
  - intros Hn. now apply ParseTokens_count.
Qed.

Lemma PRESS_RELEASE_tokens_witness :
  button_state (ParseCommand (new_PipeDevice 1) "RELEASE B now please") "B" = Some 0.0%float
  /\ ParseCommand (new_PipeDevice 1) "RELEASE" = new_PipeDevice 1.
Proof.
  pose proof (PRESS_RELEASE_tokens (new_PipeDevice 1) "RELEASE B now please") as H1.
  pose proof (PRESS_RELEASE_tokens (new_PipeDevice 1) "RELEASE") as H2.
  cbv zeta in H1, H2. split.
  - destruct H1 as [H1 _]; [right; reflexivity|].
    destruct H1 as (_ & H1 & _); [vm_compute; lia|].
    exact (eq_trans H1 eq_refl).
  - destruct H2 as [_ H2]; [right; reflexivity|].
    apply H2. left. vm_compute. lia.
Defined.

(** ** Setting an axis again *)

Lemma SetAxis_eq dev entry value :
  SetAxis dev entry value =
  with_axes dev
    (find_SetState
       (find_SetState (m_axes dev) (entry ++ " +") (axis_hi (Clamp value 0.0 1.0)))
       (entry ++ " -") (axis_lo (Clamp value 0.0 1.0))).
Proof. reflexivity. Qed.

Lemma SetAxis_twice dev entry v1 v2 :
  SetAxis (SetAxis dev entry v1) entry v2 = SetAxis dev entry v2.
Proof.
  rewrite !SetAxis_eq. cbn [m_axes with_axes]. unfold with_axes at 1 3. cbn [m_buf m_buttons with_axes].
  f_equal.
  rewrite (find_SetState_comm _ (entry ++ " +") _ (entry ++ " -")) by apply half_keys_differ.
  rewrite find_SetState_twice.
  rewrite (find_SetState_comm _ (entry ++ " -") _ (entry ++ " +"))
    by (intros H; symmetry in H; revert H; apply half_keys_differ).
  now rewrite find_SetState_twice.
Qed.

Lemma SetAxis_comm dev e1 v1 e2 v2 :
  (forall s1 s2, e1 ++ s1 <> e2 ++ s2) ->
  SetAxis (SetAxis dev e1 v1) e2 v2 = SetAxis (SetAxis dev e2 v2) e1 v1.
Proof.
  intros Hne. rewrite !SetAxis_eq. cbn [m_axes with_axes]. unfold with_axes. cbn [m_buf m_buttons].
  f_equal.
  assert (Hne' : forall s1 s2, e2 ++ s2 <> e1 ++ s1) by (intros s1 s2 H; now apply (Hne s1 s2)).
  rewrite (find_SetState_comm _ (e1 ++ " -") _ (e2 ++ " +")) by apply Hne.
  rewrite (find_SetState_comm _ (e1 ++ " +") _ (e2 ++ " +")) by apply Hne.
  rewrite (find_SetState_comm _ (e1 ++ " -") _ (e2 ++ " -")) by apply Hne.
  rewrite (find_SetState_comm (find_SetState _ (e2 ++ " +") _) (e1 ++ " +") _ (e2 ++ " -"))
    by apply Hne.
  reflexivity.
Qed.

Lemma X_Y_entries_differ (name s1 s2 : string) : (name ++ " X") ++ s1 <> (name ++ " Y") ++ s2.
Proof.
  rewrite !str_app_assoc. intros H. apply (inj (String.app name)) in H. discriminate.
Qed.

(** ** Commands on the same control *)

Lemma later_command_wins dev t1 t2 :
  same_control t1 t2 -> ParseTokens (ParseTokens dev t1) t2 = ParseTokens dev t2.
Proof.
  intros [Hname [[[Hn1 Hv1] [Hn2 Hv2]] | [[Hn1 Hv1] [[Hn2 Hv2] Hlen]]]].
  - rewrite (ParseTokens_button _ t2 Hn2 Hv2), (ParseTokens_button _ t1 Hn1 Hv1).
    rewrite (ParseTokens_button _ t2 Hn2 Hv2).
    cbn [m_buttons with_buttons]. unfold with_buttons. cbn [m_buf m_axes].
    f_equal. rewrite Hname. apply find_SetState_twice.
  - destruct Hn1 as [Hn1 | Hn1]; rewrite Hn1 in Hlen; symmetry in Hlen.
    + rewrite (ParseTokens_SET3 _ t2 Hlen Hv2), (ParseTokens_SET3 _ t1 Hn1 Hv1).
      rewrite (ParseTokens_SET3 _ t2 Hlen Hv2), Hname.
      apply SetAxis_twice.
    + rewrite (ParseTokens_SET4 _ t2 Hlen Hv2), (ParseTokens_SET4 _ t1 Hn1 Hv1).
      rewrite (ParseTokens_SET4 _ t2 Hlen Hv2), Hname.
      rewrite (SetAxis_comm _ (token t2 1 ++ " Y") _ (token t2 1 ++ " X"))
        by (intros s1 s2 H; symmetry in H; revert H; apply X_Y_entries_differ).
      now rewrite SetAxis_twice, SetAxis_twice.
Qed.

Lemma complete_lines_app a b :
  complete_lines (a ++ b) =
  ((fst (complete_lines a) ++ fst (complete_lines (snd (complete_lines a) ++ b)))%list,
   snd (complete_lines (snd (complete_lines a) ++ b))).
Proof.
  induction a as [|c a IH]; simpl.
  - now destruct (complete_lines b).
  - rewrite IH. destruct (complete_lines a) as [la ra]. cbn [fst snd].
    destruct (Ascii.eqb c newline) eqn:E; cbn [fst snd]; [reflexivity|].
    destruct la as [|l la]; cbn [fst snd app]; [|reflexivity].
    simpl. rewrite E.
    destruct (complete_lines (ra ++ b)) as [lb rb]. cbn [fst snd].
    now destruct lb.
Qed.

Lemma complete_lines_one l : find newline l = None ->
  complete_lines (l ++ String newline "") = ([l], "").
Proof. intros H. now rewrite (complete_lines_cons _ _ H). Qed.

(** ** The last write decides *)

Lemma SetAxis_buttons dev entry value : m_buttons (SetAxis dev entry value) = m_buttons dev.
Proof. reflexivity. Qed.

Lemma ParseTokens_button_state dev (tokens : list string) name :
  button_state (ParseTokens dev tokens) name =
  written (button_write name tokens) (button_state dev name).
Proof.
  unfold ParseTokens, button_write, button_state.
  destruct (length tokens <? 2)%nat eqn:E1.
  { apply Nat.ltb_lt in E1.
    replace (2 <=? length tokens)%nat with false by (symmetry; apply Nat.leb_gt; lia).
    reflexivity. }
  destruct (4 <? length tokens)%nat eqn:E2.
  { apply Nat.ltb_lt in E2.
    replace (length tokens <=? 4)%nat with false by (symmetry; apply Nat.leb_gt; lia).
    rewrite andb_false_r. reflexivity. }
  apply Nat.ltb_ge in E1, E2.
  replace (2 <=? length tokens)%nat with true by (symmetry; apply Nat.leb_le; lia).
  replace (length tokens <=? 4)%nat with true by (symmetry; apply Nat.leb_le; lia).
  cbn [orb andb].
  destruct (String.eqb (token tokens 0) "PRESS" || String.eqb (token tokens 0) "RELEASE")
    eqn:Hverb; cbn [andb].
  - cbn [m_buttons with_buttons].
    destruct (String.eqb_spec (token tokens 1) name) as [->|Hne].
    + rewrite find_SetState_lookup. cbn [written].
      now destruct (m_buttons dev !! name).
    + now rewrite find_SetState_lookup_ne.
  - cbn [written].
    repeat match goal with |- context [if ?b then _ else _] => destruct b end;
      reflexivity.
Qed.

Lemma SetAxis_axis_state dev entry value key :
  axis_state (SetAxis dev entry value) key =
  written (half_write key entry value) (axis_state dev key).
Proof.
  rewrite SetAxis_eq. unfold half_write, axis_state. cbn [m_axes with_axes].
  destruct (String.eqb_spec key (entry ++ " -")) as [->|Hlo].
  - rewrite find_SetState_lookup.
    rewrite find_SetState_lookup_ne by apply half_keys_differ.
    cbn [written]. now destruct (m_axes dev !! (entry ++ " -")).
  - rewrite find_SetState_lookup_ne by congruence.
    destruct (String.eqb_spec key (entry ++ " +")) as [->|Hhi].
    + rewrite find_SetState_lookup. cbn [written].
      now destruct (m_axes dev !! (entry ++ " +")).
    + now rewrite find_SetState_lookup_ne by congruence.
Qed.

Lemma written_twice w1 w2 old :
  written w2 (written w1 old) =
  written (match w2 with Some v => Some v | None => w1 end) old.
Proof. destruct w2, w1, old; reflexivity. Qed.

Lemma ParseTokens_SET_other dev (tokens : list string) :
  token tokens 0 = "SET" -> length tokens <> 3%nat -> length tokens <> 4%nat ->
  ParseTokens dev tokens = dev.
Proof.
  intros Hv H3 H4. unfold ParseTokens. rewrite Hv.
  apply Nat.eqb_neq in H3, H4. rewrite H3, H4. simpl.
  now destruct (_ || _).
Qed.

Lemma ParseTokens_axis_state dev (tokens : list string) key :
  axis_state (ParseTokens dev tokens) key =
  written (axis_write key tokens) (axis_state dev key).
Proof.
  unfold axis_write.
  destruct (String.eqb_spec (token tokens 0) "SET") as [Hset|Hset].
  - destruct (Nat.eqb_spec (length tokens) 3) as [H3|H3].
    { rewrite ParseTokens_SET3 by assumption. apply SetAxis_axis_state. }
    destruct (Nat.eqb_spec (length tokens) 4) as [H4|H4].
    { rewrite ParseTokens_SET4 by assumption.
      now rewrite !SetAxis_axis_state, written_twice. }
    now rewrite ParseTokens_SET_other.
  - apply String.eqb_neq in Hset. unfold ParseTokens. rewrite Hset. cbn [written].
    repeat match goal with |- context [if ?b then _ else _] => destruct b end;
      reflexivity.
Qed.

Lemma last_write_cons write command lines :
  last_write write (command :: lines) =
  match last_write write lines with
  | Some v => Some v
  | None => write (SplitString command " ")
  end.
Proof.
  unfold last_write. cbn [fold_left].
  assert (H : forall acc,
             fold_left
               (fun acc command =>
                  match write (SplitString command " ") with Some v => Some v | None => acc end)
               lines acc =
             match
               fold_left
                 (fun acc command =>
                    match write (SplitString command " ") with Some v => Some v | None => acc end)
                 lines None
             with Some v => Some v | None => acc end).
  { induction lines as [|l lines IH]; intros acc; cbn [fold_left]; [reflexivity|].
    rewrite IH. rewrite (IH (match write (SplitString l " ") with
                             | Some v => Some v | None => None end)).
    destruct (fold_left _ lines None); [reflexivity|].
    now destruct (write (SplitString l " ")). }
  rewrite H. now destruct (write (SplitString command " ")).
Qed.

(** After a sequence of commands a button holds what the last command
    that names it wrote, and an axis half what the last SET that
    addresses it wrote. *)
Lemma last_write_decides lines : forall dev,
  (forall name,
      button_state (fold_left ParseCommand lines dev) name =
      written (last_write (button_write name) lines) (button_state dev name))
  /\ (forall key,
        axis_state (fold_left ParseCommand lines dev) key =
        written (last_write (axis_write key) lines) (axis_state dev key)).
Proof.
  induction lines as [|l lines IH]; intros dev; [split; reflexivity|].
  cbn [fold_left]. destruct (IH (ParseCommand dev l)) as [IHb IHa]. split.
  - intros name. rewrite IHb, last_write_cons. unfold ParseCommand at 1.
    now rewrite ParseTokens_button_state, written_twice.
  - intros key. rewrite IHa, last_write_cons. unfold ParseCommand at 1.
    now rewrite ParseTokens_axis_state, written_twice.
Qed.

(** * Polling *)

Lemma UpdateInput_two_lines dev c1 c2 :
  m_buf dev = "" -> find newline c1 = None -> find newline c2 = None ->
  NamedPipe.UpdateInput dev (line c1 ++ line c2) =
  (ParseCommand (ParseCommand dev c1) c2, "").
Proof.
  intros Hbuf H1 H2. rewrite pipe_UpdateInput_lines, Hbuf.
  change ("" ++ (line c1 ++ line c2)) with (line c1 ++ line c2).
  unfold line. rewrite str_app_assoc. change (String newline "" ++ ?s) with (String newline s).
  rewrite (complete_lines_cons _ _ H1), (complete_lines_one _ H2). cbn [fst snd fold_left].
  f_equal. rewrite <- (with_buf_id (ParseCommand _ c2)) at 2.
  now rewrite !ParseCommand_buf, Hbuf.
Qed.

Lemma ZMQ_UpdateInput_two_lines dev c1 c2 socket :
  find newline c1 = None -> find newline c2 = None ->
  ZMQ.UpdateInput dev ((line c1 ++ line c2) :: socket) =
  (ParseCommand (ParseCommand dev c1) c2, socket).
Proof.
  intros H1 H2. rewrite zmq_UpdateInput_lines.
  unfold line. rewrite str_app_assoc. change (String newline "" ++ ?s) with (String newline s).
  now rewrite (complete_lines_cons _ _ H1), (complete_lines_one _ H2).
Qed.

(** C6: one update call runs the complete lines in arrival order, in the
    named-pipe build (over the buffered text followed by what waits in the
    pipe) and in the ZeroMQ build (over the message); after the lines of a
    poll every button and every axis half holds what the last command
    that writes it wrote, and of two commands in a row on the same control
    the later one alone decides the state; in particular "PRESS X" then
    "RELEASE X" in one poll leaves button X at 0.0, and "RELEASE X" then
    "PRESS X" leaves it at 1.0. *)
Theorem commands_in_arrival_order :
  (forall dev fd,
      NamedPipe.UpdateInput dev fd =
      (with_buf (fold_left ParseCommand (fst (complete_lines (m_buf dev ++ fd))) dev)
                (snd (complete_lines (m_buf dev ++ fd))), ""))
  /\ (forall dev msg socket,
        ZMQ.UpdateInput dev (msg :: socket) =
        (fold_left ParseCommand (fst (complete_lines msg)) dev, socket))
  /\ (forall dev lines name,
        button_state (fold_left ParseCommand lines dev) name =
        written (last_write (button_write name) lines) (button_state dev name))
  /\ (forall dev lines key,
        axis_state (fold_left ParseCommand lines dev) key =
        written (last_write (axis_write key) lines) (axis_state dev key))
  /\ (forall dev c1 c2,
        same_control (SplitString c1 " ") (SplitString c2 " ") ->
        ParseCommand (ParseCommand dev c1) c2 = ParseCommand dev c2)
  /\ (forall dev, m_buf dev = "" -> is_Some (m_buttons dev !! "X") ->
        button_state (fst (NamedPipe.UpdateInput dev (line "PRESS X" ++ line "RELEASE X"))) "X"
          = Some 0.0%float
        /\ button_state (fst (NamedPipe.UpdateInput dev (line "RELEASE X" ++ line "PRESS X"))) "X"
          = Some 1.0%float)
  /\ (forall dev socket, is_Some (m_buttons dev !! "X") ->
        button_state (fst (ZMQ.UpdateInput dev ((line "PRESS X" ++ line "RELEASE X") :: socket))) "X"
          = Some 0.0%float
        /\ button_state (fst (ZMQ.UpdateInput dev ((line "RELEASE X" ++ line "PRESS X") :: socket))) "X"
          = Some 1.0%float).
Proof.
  assert (Hlast : forall dev c1 c2,
             same_control (SplitString c1 " ") (SplitString c2 " ") ->
             ParseCommand (ParseCommand dev c1) c2 = ParseCommand dev c2)
    by (intros dev c1 c2; apply later_command_wins).
  assert (Hsame : same_control (SplitString "PRESS X" " ") (SplitString "RELEASE X" " ")
                  /\ same_control (SplitString "RELEASE X" " ") (SplitString "PRESS X" " ")).
  { split; (split; [reflexivity|]); left; split; (split; [vm_compute; lia|]);
      solve [left; reflexivity | right; reflexivity]. }
  assert (Hval : forall dev, is_Some (m_buttons dev !! "X") ->
             button_state (ParseCommand dev "RELEASE X") "X" = Some 0.0%float
             /\ button_state (ParseCommand dev "PRESS X") "X" = Some 1.0%float).
  { intros dev [inp Hinp]. unfold ParseCommand, button_state.
    rewrite !ParseTokens_button;
      try solve [vm_compute; lia | left; reflexivity | right; reflexivity].
    cbn [m_buttons with_buttons].
    change (token (SplitString "RELEASE X" " ") 1) with "X".
    change (token (SplitString "PRESS X" " ") 1) with "X".
    rewrite !find_SetState_lookup, Hinp. split; reflexivity. }
  repeat apply conj.
  - apply pipe_UpdateInput_lines.
  - apply zmq_UpdateInput_lines.
  - intros dev lines. apply last_write_decides.
  - intros dev lines. apply last_write_decides.
  - exact Hlast.
  - intros dev Hbuf HX. rewrite !UpdateInput_two_lines by (assumption || reflexivity).
    cbn [fst]. rewrite !Hlast by apply Hsame. now apply Hval.
  - intros dev socket HX. rewrite !ZMQ_UpdateInput_two_lines by reflexivity.
    cbn [fst]. rewrite !Hlast by apply Hsame. now apply Hval.
Qed.

Lemma commands_in_arrival_order_witness :
  ParseCommand (ParseCommand (new_PipeDevice 0) "SET C 0.25 0.75") "SET C 1 0"
    = ParseCommand (new_PipeDevice 0) "SET C 1 0"
  /\ button_state
       (fst (NamedPipe.UpdateInput (new_PipeDevice 0) (line "PRESS X" ++ line "RELEASE X"))) "X"
     = Some 0.0%float
  /\ button_state
       (fst (ZMQ.UpdateInput (new_PipeDevice 0) [line "RELEASE X" ++ line "PRESS X"])) "X"
     = Some 1.0%float.
Proof.
  destruct commands_in_arrival_order as (_ & _ & _ & _ & Hlast & Hpipe & Hzmq).
  repeat apply conj.
  - apply Hlast. split; [reflexivity|]. right.
    repeat split; solve [right; reflexivity | reflexivity].
  - apply (Hpipe (new_PipeDevice 0)); [reflexivity|]. vm_compute. eauto.
  - apply (Hzmq (new_PipeDevice 0) []). vm_compute. eauto.
Defined.

(** C7: in the named-pipe build the text after the last newline stays in
    [m_buf] for the next poll.  When a command arrives as a fragment
    without newline in one poll and its remainder with the newline in the
    next, the first poll changes no button and no axis, and the second
    runs the reassembled command, once: the buffer is then empty and a
    further poll of an empty pipe changes nothing.  So "PRE" followed by
    "SS A" and a newline presses A in the second poll. *)
Theorem split_command_reassembled (dev : PipeDevice) (a b : string) :
  find newline (m_buf dev) = None -> find newline a = None -> find newline b = None ->
  let d1 := fst (NamedPipe.UpdateInput dev a) in
  let d2 := fst (NamedPipe.UpdateInput d1 (line b)) in
  d1 = with_buf dev (m_buf dev ++ a)
  /\ d2 = with_buf (ParseCommand dev (m_buf dev ++ a ++ b)) ""
  /\ fst (NamedPipe.UpdateInput d2 "") = d2.
Proof.
  intros Hbuf Ha Hb d1 d2.
  assert (H1 : d1 = with_buf dev (m_buf dev ++ a)).
  { subst d1. rewrite pipe_UpdateInput_lines. cbn [fst].
    now rewrite (complete_lines_None _ (find_None_app _ _ _ Hbuf Ha)). }
  assert (H2 : d2 = with_buf (ParseCommand dev (m_buf dev ++ a ++ b)) "").
  { subst d2. rewrite H1, pipe_UpdateInput_lines. cbn [fst m_buf with_buf].
    unfold line. rewrite <- !str_app_assoc.
    rewrite complete_lines_one
      by (rewrite str_app_assoc; auto using find_None_app).
    cbn [fst snd fold_left]. rewrite ParseCommand_with_buf.
    now rewrite !str_app_assoc. }
  repeat apply conj; [exact H1 | exact H2 |].
  rewrite H2, pipe_UpdateInput_lines. reflexivity.
Qed.

Lemma split_command_reassembled_witness :
  let d1 := fst (NamedPipe.UpdateInput (new_PipeDevice 0) "PRE") in
  let d2 := fst (NamedPipe.UpdateInput d1 (line "SS A")) in
  (button_state d1 "A" = Some 0.0%float /\ m_buf d1 = "PRE")
  /\ (button_state d2 "A" = Some 1.0%float /\ m_buf d2 = "")
  /\ fst (NamedPipe.UpdateInput d2 "") = d2.
Proof.
  destruct (split_command_reassembled (new_PipeDevice 0) "PRE" "SS A")
    as (H1 & H2 & H3); try reflexivity.
  cbv zeta. repeat apply conj.
  - rewrite H1. reflexivity.
  - rewrite H1. reflexivity.
  - rewrite H2. vm_compute. reflexivity.
  - rewrite H2. reflexivity.
  - exact H3.
Defined.

(** ** Malformed lines *)

Lemma ParseTokens_malformed dev tokens : malformed dev tokens -> ParseTokens dev tokens = dev.
Proof.
  intros [Hn | [(H1 & H2 & H3) | [[Hv Hb] | [(Hv & Hn & Hhi & Hlo) | (Hv & Hn & Hx1 & Hx2 & Hy1 & Hy2)]]]].
  - now apply ParseTokens_count.
  - now apply ParseTokens_other.
  - destruct (Nat.lt_ge_cases (length tokens) 2) as [Hlt|Hge];
      [apply ParseTokens_count; now left|].
    destruct (Nat.lt_ge_cases 4 (length tokens)) as [Hgt|Hle];
      [apply ParseTokens_count; now right|].
    rewrite ParseTokens_button by auto.
    rewrite (find_SetState_None _ _ _ Hb). now destruct dev.
  - rewrite ParseTokens_SET3 by assumption. now apply SetAxis_unknown.
  - rewrite ParseTokens_SET4 by assumption.
    rewrite (SetAxis_unknown dev) by assumption. now apply SetAxis_unknown.
Qed.

(** C8: a malformed line changes no button, no axis and nothing else of
    the device ([ParseCommand] is total and has no failure to report),
    and the well-formed line after it runs as if the malformed one had
    not been there, in both builds.  On a new device "JUMP A", "PRESS Q",
    "SET Q 1.0" and the five-token "A B C D E" are of this kind, and
    "PRESS A" sent after a five-token line presses A. *)
Theorem malformed_line_ignored :
  (forall dev command,
      malformed dev (SplitString command " ") -> ParseCommand dev command = dev)
  /\ (forall dev bad good,
        m_buf dev = "" -> find newline bad = None -> find newline good = None ->
        malformed dev (SplitString bad " ") ->
        NamedPipe.UpdateInput dev (line bad ++ line good) = (ParseCommand dev good, ""))
  /\ (forall dev bad good socket,
        find newline bad = None -> find newline good = None ->
        malformed dev (SplitString bad " ") ->
        ZMQ.UpdateInput dev ((line bad ++ line good) :: socket) = (ParseCommand dev good, socket))
  /\ (forall initial_state,
        let dev := new_PipeDevice initial_state in
        ParseCommand dev "JUMP A" = dev
        /\ ParseCommand dev "PRESS Q" = dev
        /\ ParseCommand dev "SET Q 1.0" = dev
        /\ ParseCommand dev "SET Q 1.0 0.0" = dev
        /\ ParseCommand dev "A B C D E" = dev
        /\ ParseCommand dev "PRESS" = dev
        /\ button_state
             (fst (NamedPipe.UpdateInput dev (line "PRESS A B C D" ++ line "PRESS A"))) "A"
           = Some 1.0%float).
Proof.
  repeat apply conj.
  - intros dev command. apply ParseTokens_malformed.
  - intros dev bad good Hbuf Hb Hg Hbad.
    rewrite UpdateInput_two_lines by assumption.
    unfold ParseCommand at 2. now rewrite (ParseTokens_malformed _ _ Hbad).
  - intros dev bad good socket Hb Hg Hbad.
    rewrite ZMQ_UpdateInput_two_lines by assumption.
    unfold ParseCommand at 2. now rewrite (ParseTokens_malformed _ _ Hbad).
  - intros initial_state dev.
    repeat apply conj; vm_compute; reflexivity.
Qed.

Lemma malformed_line_ignored_witness :
  ParseCommand (new_PipeDevice 0) "RELEASE Q" = new_PipeDevice 0
  /\ NamedPipe.UpdateInput (new_PipeDevice 0) (line "SET" ++ line "SET R 1")
     = (ParseCommand (new_PipeDevice 0) "SET R 1", "")
  /\ ZMQ.UpdateInput (new_PipeDevice 0) [line "HOLD A" ++ line "PRESS A"]
     = (ParseCommand (new_PipeDevice 0) "PRESS A", []).
Proof.
  destruct malformed_line_ignored as (H1 & H2 & H3 & _).
  repeat apply conj.
  - apply H1. right; right; left. split; [right|]; reflexivity.
  - apply H2; try reflexivity. left. left. vm_compute. lia.
  - apply H3; try reflexivity. right; left. repeat split; discriminate.
Defined.

(** ** Messages *)

(** C9: in the ZeroMQ build an update call takes at most one message off
    the socket, the first one, and none when none waits; it runs the
    newline-terminated commands of that message in order; and what follows
    the last newline of the message is dropped: the device after the call
    is the same whatever that text is, and the line buffer is not
    written. *)
Theorem message_framing :
  (forall dev, ZMQ.UpdateInput dev [] = (dev, []))
  /\ (forall dev msg socket,
        ZMQ.UpdateInput dev (msg :: socket) =
        (fold_left ParseCommand (fst (complete_lines msg)) dev, socket))
  /\ (forall dev msg tail socket,
        snd (complete_lines msg) = "" -> find newline tail = None ->
        fst (ZMQ.UpdateInput dev ((msg ++ tail) :: socket)) =
        fst (ZMQ.UpdateInput dev (msg :: socket)))
  /\ (forall dev socket, m_buf (fst (ZMQ.UpdateInput dev socket)) = m_buf dev)
  /\ (forall initial_state,
        let dev := new_PipeDevice initial_state in
        let d1 := fst (ZMQ.UpdateInput dev ["PRE"; line "SS A"]) in
        let d2 := fst (ZMQ.UpdateInput d1 [line "SS A"]) in
        d1 = dev /\ d2 = dev).
Proof.
  repeat apply conj.
  - reflexivity.
  - apply zmq_UpdateInput_lines.
  - intros dev msg tail socket Hmsg Htail.
    rewrite !zmq_UpdateInput_lines. cbn [fst].
    rewrite complete_lines_app, Hmsg. cbn [fst].
    change ("" ++ tail) with tail.
    rewrite (complete_lines_None _ Htail). cbn [fst].
    now rewrite app_nil_r.
  - intros dev [|msg socket]; [reflexivity|].
    rewrite zmq_UpdateInput_lines. apply fold_ParseCommand_buf.
  - intros initial_state dev d1 d2. split; vm_compute; reflexivity.
Qed.

Lemma message_framing_witness :
  fst (ZMQ.UpdateInput (new_PipeDevice 0) [line "PRESS A" ++ "RELEA"])
  = fst (ZMQ.UpdateInput (new_PipeDevice 0) [line "PRESS A"]).
Proof.
  destruct message_framing as (_ & _ & H & _).
  apply (H (new_PipeDevice 0) (line "PRESS A") "RELEA" []); reflexivity.
Defined.

(** * Binary64 arithmetic

    The primitive operations on [float] are specified, by the axioms of
    the standard library, through the functions of [SpecFloat] on
    [Prim2SF]; the facts below are proved on those. *)

Section Binary64.

Local Open Scope Z_scope.

(** ** Constants and comparisons *)


Lemma Prim2SF_zero : Prim2SF 0 = S754_zero false.
Proof. reflexivity. Qed.
Lemma Prim2SF_half : Prim2SF 0.5 = S754_finite false 4503599627370496 (-53).
Proof. reflexivity. Qed.
Lemma Prim2SF_one : Prim2SF 1 = S754_finite false 4503599627370496 (-52).
Proof. reflexivity. Qed.
Lemma Prim2SF_two : Prim2SF 2 = S754_finite false 4503599627370496 (-51).
Proof. reflexivity. Qed.

Lemma SFcompare_antisym x y :
  SFcompare y x = CompOpp <$> SFcompare x y.
Proof.
  destruct x as [sx|sx| |sx mx ex], y as [sy|sy| |sy my ey]; simpl;
    try destruct sx; try destruct sy; try reflexivity.
  - rewrite (Z.compare_antisym ex ey). destruct (ex ?= ey)%Z; simpl; try reflexivity.
    change (Pos.compare_cont Eq my mx) with (my ?= mx)%positive.
    change (Pos.compare_cont Eq mx my) with (mx ?= my)%positive.
    rewrite (Pos.compare_antisym mx my). now destruct (mx ?= my)%positive.
  - rewrite (Z.compare_antisym ex ey). destruct (ex ?= ey)%Z; simpl; try reflexivity.
    change (Pos.compare_cont Eq my mx) with (my ?= mx)%positive.
    change (Pos.compare_cont Eq mx my) with (mx ?= my)%positive.
    rewrite (Pos.compare_antisym mx my). now destruct (mx ?= my)%positive.
Qed.

Lemma ltb_leb (a b : float) : (a <? b)%float = true -> (a <=? b)%float = true.
Proof.
  rewrite ltb_spec, leb_spec. unfold SFltb, SFleb.
  now destruct (SFcompare _ _) as [[]|].
Qed.

Lemma ltb_asym (a b : float) : (a <? b)%float = true -> (b <? a)%float = false.
Proof.
  rewrite !ltb_spec. unfold SFltb. rewrite (SFcompare_antisym (Prim2SF a)).
  now destruct (SFcompare _ _) as [[]|].
Qed.

Lemma ltb_zero_one (v : float) : (v <? 0)%float = true -> (v <? 1)%float = true.
Proof.
  rewrite !ltb_spec, Prim2SF_zero, Prim2SF_one. unfold SFltb.
  now destruct (Prim2SF v) as [s|[]| |[] m e].
Qed.

Lemma Clamp_range (v : float) :
  (0 <=? Clamp v 0 1)%float = true /\ (Clamp v 0 1 <=? 1)%float = true.
Proof.
  unfold Clamp, std_min. destruct (v <? 1)%float eqn:H1; unfold std_max.
  - destruct (0 <? v)%float eqn:H0.
    + split; now apply ltb_leb.
    + split; reflexivity.
  - split; reflexivity.
Qed.

Lemma Clamp_below (v : float) : (v <? 0)%float = true -> Clamp v 0 1 = 0%float.
Proof.
  intros H. unfold Clamp, std_min, std_max.
  now rewrite (ltb_zero_one _ H), (ltb_asym _ _ H).
Qed.

Lemma Clamp_above (v : float) : (1 <? v)%float = true -> Clamp v 0 1 = 1%float.
Proof.
  intros H. unfold Clamp, std_min, std_max.
  now rewrite (ltb_asym _ _ H).
Qed.

(** ** Mantissas and exponents *)


Lemma digits2_pos_size (p : positive) : digits2_pos p = Pos.size p.
Proof. induction p; simpl; congruence. Qed.

Lemma digits2_pos_log2 (p : positive) : Z.pos (digits2_pos p) = Z.log2 (Z.pos p) + 1.
Proof.
  rewrite digits2_pos_size. destruct p; simpl; lia.
Qed.

Lemma digits2_pos_bounds (p : positive) :
  2 ^ (Z.pos (digits2_pos p) - 1) <= Z.pos p < 2 ^ Z.pos (digits2_pos p).
Proof.
  rewrite digits2_pos_log2. replace (Z.log2 (Z.pos p) + 1 - 1) with (Z.log2 (Z.pos p)) by lia.
  rewrite Z.add_1_r. apply Z.log2_spec. lia.
Qed.

Lemma iter_xO_pow2 (p d : positive) : Z.pos (Pos.iter xO p d) = Z.pos p * 2 ^ Z.pos d.
Proof.
  change (Pos.iter xO p d) with (shift_pos d p).
  rewrite shift_pos_correct. change (Zpower_pos 2 d) with (2 ^ Z.pos d). lia.
Qed.

Lemma valid_finite_bounds s m e :
  valid_binary (S754_finite s m e) = true ->
  -1074 <= e <= 971 /\ Z.pos (digits2_pos m) <= 53
  /\ (e = -1074 \/ Z.pos (digits2_pos m) = 53).
Proof.
  unfold SpecFloat.valid_binary, bounded, canonical_mantissa, fexp, SpecFloat.emin, prec, emax.
  intros H. apply andb_true_iff in H as [H1 H2].
  apply Z.eqb_eq in H1. apply Z.leb_le in H2. lia.
Qed.

Lemma shl_align_spec mx ex ex' :
  snd (shl_align mx ex ex') = Z.min ex ex'
  /\ Z.pos (fst (shl_align mx ex ex')) = Z.pos mx * 2 ^ (ex - Z.min ex ex').
Proof.
  unfold shl_align. destruct (ex' - ex) as [|d|d] eqn:E; cbn [fst snd].
  - replace (Z.min ex ex') with ex by lia. rewrite Z.sub_diag. simpl. lia.
  - replace (Z.min ex ex') with ex by lia. rewrite Z.sub_diag. simpl. lia.
  - replace (Z.min ex ex') with ex' by lia. rewrite iter_xO_pow2.
    split; [reflexivity|]. f_equal. f_equal. lia.
Qed.

(** ** The sign of a rounded result *)

Lemma binary_round_aux_neg m e l :
  SFltb (S754_zero false) (binary_round_aux prec emax true m e l) = false.
Proof.
  unfold binary_round_aux.
  destruct (shr_fexp _ _ _ _ _) as [mrs' e'].
  destruct (shr_fexp _ _ _ _ _) as [mrs'' e''].
  destruct (shr_m mrs''); [reflexivity| |reflexivity].
  now destruct (Z.leb _ _).
Qed.

Lemma binary_normalize_neg D e :
  D < 0 -> SFltb (S754_zero false) (binary_normalize prec emax D e false) = false.
Proof.
  destruct D as [|p|p]; try lia. intros _. unfold binary_normalize, binary_round.
  destruct (shl_align _ _ _) as [mz ez]. apply binary_round_aux_neg.
Qed.


(** Below one half, [c - 0.5] is not positive. *)
Lemma sub_half_not_positive (c : float) :
  (c <? 0.5)%float = true -> (0 <? c - 0.5)%float = false.
Proof.
  rewrite !ltb_spec, sub_spec, Prim2SF_zero, Prim2SF_half.
  pose proof (Prim2SF_valid c) as Hv.
  destruct (Prim2SF c) as [s|s| |s m e].
  - reflexivity.
  - now destruct s.
  - discriminate.
  - intros Hlt. unfold SF64sub, SFsub. apply binary_normalize_neg.
    destruct (shl_align_spec m e (Z.min e (-53))) as [_ Hm].
    destruct (shl_align_spec 4503599627370496 (-53) (Z.min e (-53))) as [_ Hh].
    rewrite Hm, Hh. clear Hm Hh.
    assert (Hp1 : 0 < 2 ^ (e - Z.min e (Z.min e (-53)))) by (apply Z.pow_pos_nonneg; lia).
    assert (Hp2 : 0 < 2 ^ (-53 - Z.min (-53) (Z.min e (-53)))) by (apply Z.pow_pos_nonneg; lia).
    destruct s; cbn [cond_Zopp]; [nia|].
    apply valid_finite_bounds in Hv as (He & Hd & _).
    pose proof (digits2_pos_bounds m) as [_ Hm].
    assert (Hm53 : Z.pos m < 2 ^ 53).
    { eapply Z.lt_le_trans; [exact Hm|]. apply Z.pow_le_mono_r; lia. }
    unfold SFltb, SFcompare in Hlt.
    destruct (e ?= -53) eqn:Hc; try discriminate.
    + apply Z.compare_eq in Hc. subst e. 
      destruct (Pos.compare_cont Eq m 4503599627370496) eqn:Hc; try discriminate.
      apply (proj1 (Pos.compare_lt_iff m 4503599627370496)) in Hc.
      apply Pos2Z.pos_lt_pos in Hc.
      replace (Z.min (-53) (Z.min (-53) (-53))) with (-53) by lia.
      rewrite !Z.sub_diag. lia.
    + rewrite Z.compare_lt_iff in Hc.
      replace (Z.min e (Z.min e (-53))) with e by lia.
      replace (Z.min (-53) (Z.min e (-53))) with e by lia.
      rewrite Z.sub_diag.
      assert (H : 2 ^ 1 <= 2 ^ (-53 - e)) by (apply Z.pow_le_mono_r; lia).
      change (2 ^ 53) with 9007199254740992 in Hm53. change (2 ^ 1) with 2 in H.
      change (2 ^ 0) with 1. lia.
Qed.

(** ** Rounding on scaled integers *)

Lemma Kmin_nonneg : 0 <= Kmin.
Proof. unfold Kmin, bias. lia. Qed.

Lemma grid_ge N : Kmin <= grid N.
Proof. unfold grid. lia. Qed.

Lemma grid_nonneg N : 0 <= grid N.
Proof. pose proof (grid_ge N). pose proof Kmin_nonneg. lia. Qed.

Lemma grid_mono N1 N2 : N1 <= N2 -> grid N1 <= grid N2.
Proof. intros H. unfold grid. pose proof (Z.log2_le_mono _ _ H). lia. Qed.

Lemma rne_bounds N K : 0 <= K -> N / 2 ^ K <= rne N K <= N / 2 ^ K + 1.
Proof.
  intros HK. unfold rne.
  destruct (2 * (N mod 2 ^ K) <? 2 ^ K); [lia|].
  destruct (2 ^ K <? 2 * (N mod 2 ^ K)); [lia|].
  destruct (Z.even (N / 2 ^ K)); lia.
Qed.

Lemma rne_mono N1 N2 K : 0 <= K -> N1 <= N2 -> rne N1 K <= rne N2 K.
Proof.
  intros HK Hle.
  assert (HP : 0 < 2 ^ K) by (apply Z.pow_pos_nonneg; lia).
  pose proof (Z.div_le_mono N1 N2 (2 ^ K) HP Hle) as Hq.
  destruct (Z.eq_dec (N1 / 2 ^ K) (N2 / 2 ^ K)) as [Heq|Hne].
  - pose proof (Z.div_mod N1 (2 ^ K) ltac:(lia)) as E1.
    pose proof (Z.div_mod N2 (2 ^ K) ltac:(lia)) as E2.
    assert (Hr : N1 mod 2 ^ K <= N2 mod 2 ^ K) by (rewrite Heq in E1; lia).
    unfold rne. rewrite Heq.
    destruct (Z.ltb_spec (2 * (N1 mod 2 ^ K)) (2 ^ K));
      destruct (Z.ltb_spec (2 * (N2 mod 2 ^ K)) (2 ^ K));
      destruct (Z.ltb_spec (2 ^ K) (2 * (N1 mod 2 ^ K)));
      destruct (Z.ltb_spec (2 ^ K) (2 * (N2 mod 2 ^ K)));
      destruct (Z.even (N2 / 2 ^ K)); lia.
  - pose proof (rne_bounds N1 K HK). pose proof (rne_bounds N2 K HK). lia.
Qed.

Lemma rne_grid a K : 0 <= K -> rne (a * 2 ^ K) K = a.
Proof.
  intros HK. assert (HP : 0 < 2 ^ K) by (apply Z.pow_pos_nonneg; lia).
  unfold rne. rewrite Z.div_mul, Z.mod_mul by lia.
  destruct (Z.ltb_spec (2 * 0) (2 ^ K)); [reflexivity|lia].
Qed.

Lemma R_nonneg N : 0 <= N -> 0 <= R N.
Proof.
  intros HN. unfold R. pose proof (grid_nonneg N) as HK.
  assert (HP : 0 < 2 ^ grid N) by (apply Z.pow_pos_nonneg; lia).
  pose proof (rne_bounds N (grid N) HK).
  pose proof (Z.div_pos N (2 ^ grid N) HN HP). nia.
Qed.

(** An [N] that has a 53-bit significand is its own rounding. *)
Lemma R_fix a K : 0 <= a -> K = grid (a * 2 ^ K) -> R (a * 2 ^ K) = a * 2 ^ K.
Proof.
  intros Ha HK. unfold R. rewrite <- HK.
  rewrite rne_grid; [reflexivity|]. rewrite HK. apply grid_nonneg.
Qed.

Lemma grid_pow2 k : Kmin <= k -> grid (2 ^ k) <= k.
Proof.
  intros Hk. pose proof Kmin_nonneg. unfold grid. rewrite Z.log2_pow2 by lia. lia.
Qed.

Lemma R_pow2 k : Kmin <= k -> R (2 ^ k) = 2 ^ k.
Proof.
  intros Hk. pose proof (grid_pow2 k Hk) as Hg. pose proof (grid_nonneg (2 ^ k)) as Hg0.
  set (K := grid (2 ^ k)) in *.
  assert (E : 2 ^ k = 2 ^ (k - K) * 2 ^ K).
  { rewrite <- Z.pow_add_r by lia. f_equal. lia. }
  unfold R. fold K. rewrite E at 1. rewrite rne_grid by lia. now rewrite <- E.
Qed.

(** Rounding to nearest even does not reverse the order. *)
Lemma R_mono N1 N2 : 0 < N1 -> N1 <= N2 -> R N1 <= R N2.
Proof.
  intros Hpos Hle. pose proof (grid_mono _ _ Hle) as HK.
  pose proof (grid_nonneg N1) as HK1. pose proof (grid_nonneg N2) as HK2.
  destruct (Z.eq_dec (grid N1) (grid N2)) as [Heq|Hne].
  - unfold R. rewrite Heq.
    apply Z.mul_le_mono_nonneg_r; [apply Z.pow_nonneg; lia|].
    now apply rne_mono.
  - (* [N1] is below a power of two that [N2] is above *)
    assert (Hlt : grid N1 < grid N2) by lia.
    assert (Hg2 : grid N2 = Z.log2 N2 - 52) by (unfold grid in *; lia).
    assert (Hg1 : Z.log2 N1 - 52 <= grid N1) by (unfold grid; lia).
    destruct (Z.log2_spec N1 Hpos) as [_ Hu1].
    destruct (Z.log2_spec N2 ltac:(lia)) as [Hl2 _].
    pose proof (Z.log2_nonneg N1). pose proof (Z.log2_nonneg N2).
    (* upper bound of [R N1] *)
    assert (U : R N1 <= 2 ^ (grid N1 + 53)).
    { unfold R.
      assert (Hb : N1 <= 2 ^ 53 * 2 ^ grid N1).
      { rewrite <- Z.pow_add_r by lia.
        apply Z.lt_le_incl. eapply Z.lt_le_trans; [exact Hu1|].
        apply Z.pow_le_mono_r; lia. }
      pose proof (rne_mono _ _ (grid N1) HK1 Hb) as Hm.
      rewrite rne_grid in Hm by lia.
      rewrite Z.pow_add_r by lia. rewrite (Z.mul_comm (2 ^ grid N1)).
      apply Z.mul_le_mono_nonneg_r; [apply Z.pow_nonneg; lia|exact Hm]. }
    (* lower bound of [R N2] *)
    assert (L : 2 ^ (grid N2 + 52) <= R N2).
    { unfold R.
      assert (Hb : 2 ^ 52 * 2 ^ grid N2 <= N2).
      { rewrite <- Z.pow_add_r by lia. rewrite Hg2.
        replace (52 + (Z.log2 N2 - 52)) with (Z.log2 N2) by lia. exact Hl2. }
      pose proof (rne_mono _ _ (grid N2) HK2 Hb) as Hm.
      rewrite rne_grid in Hm by lia.
      rewrite Z.pow_add_r by lia. rewrite (Z.mul_comm (2 ^ grid N2)).
      apply Z.mul_le_mono_nonneg_r; [apply Z.pow_nonneg; lia|exact Hm]. }
    assert (M : 2 ^ (grid N1 + 53) <= 2 ^ (grid N2 + 52)) by (apply Z.pow_le_mono_r; lia).
    lia.
Qed.

Lemma R_pos N : 2 ^ Kmin <= N -> 0 < R N.
Proof.
  intros HN. pose proof Kmin_nonneg as HK0.
  assert (Hpos : 0 < N) by (pose proof (Z.pow_pos_nonneg 2 Kmin); lia).
  pose proof (R_mono (2 ^ Kmin) N ltac:(apply Z.pow_pos_nonneg; lia) HN) as H.
  rewrite R_pow2 in H by lia.
  pose proof (Z.pow_pos_nonneg 2 Kmin). lia.
Qed.

Lemma R_le_pow2 N k : 0 < N -> Kmin <= k -> N <= 2 ^ k -> R N <= 2 ^ k.
Proof.
  intros Hpos Hk HN. rewrite <- (R_pow2 k Hk). now apply R_mono.
Qed.

(** ** Shifting a significand right *)

Lemma iter_pos_nat {A : Type} (f : A -> A) (p : positive) (x : A) :
  SpecFloat.iter_pos f p x = Nat.iter (Pos.to_nat p) f x.
Proof.
  revert x; induction p as [p IH|p IH|]; intros x; cbn [SpecFloat.iter_pos].
  - rewrite !IH, Pos2Nat.inj_xI.
    replace (2 * Pos.to_nat p)%nat with (Pos.to_nat p + Pos.to_nat p)%nat by lia.
    now rewrite Nat.iter_succ_r, Nat.iter_add.
  - rewrite !IH, Pos2Nat.inj_xO.
    replace (2 * Pos.to_nat p)%nat with (Pos.to_nat p + Pos.to_nat p)%nat by lia.
    now rewrite Nat.iter_add.
  - reflexivity.
Qed.

Lemma shr_1_spec m r s :
  0 <= m ->
  shr_1 {| shr_m := m; shr_r := r; shr_s := s |} =
  {| shr_m := m / 2; shr_r := Z.odd m; shr_s := r || s |}.
Proof.
  intros Hm. destruct m as [|p|p]; [reflexivity| |lia].
  destruct p as [p|p|]; simpl shr_1; f_equal.
  - rewrite Pos2Z.inj_xI. apply Z.div_unique with 1; lia.
  - rewrite Pos2Z.inj_xO. apply Z.div_unique with 0; lia.
Qed.

Lemma mod_double m P :
  0 < P -> m mod (P * 2) = m mod P + P * ((m / P) mod 2) /\ 0 <= m mod P < P
           /\ ((m / P) mod 2 = 0 \/ (m / P) mod 2 = 1).
Proof.
  intros HP. split; [apply Z.rem_mul_r; lia|].
  split; [apply Z.mod_pos_bound; lia|].
  pose proof (Z.mod_pos_bound (m / P) 2). lia.
Qed.

Lemma iter_shr_1 m k :
  0 <= m ->
  Nat.iter (S k) shr_1 {| shr_m := m; shr_r := false; shr_s := false |} =
  shifted m (Z.of_nat (S k)).
Proof.
  intros Hm. induction k as [|k IH].
  - change (shr_1 {| shr_m := m; shr_r := false; shr_s := false |} = shifted m 1).
    rewrite shr_1_spec by assumption. unfold shifted.
    change (2 ^ (1 - 1)) with 1. change (2 ^ 1) with 2.
    rewrite Z.mod_1_r. simpl negb. f_equal.
    rewrite Zodd_mod. destruct (Z.mod_pos_bound m 2 ltac:(lia)) as [? ?].
    destruct (Z.leb_spec 1 (m mod 2)); destruct (Z.eqb_spec (m mod 2) 1); lia.
  - rewrite Nat.iter_succ, IH. unfold shifted.
    set (n := Z.of_nat (S k)).
    assert (Hn : 1 <= n) by (subst n; lia).
    replace (Z.of_nat (S (S k))) with (n + 1) by (subst n; lia).
    replace (n + 1 - 1) with n by lia.
    assert (HP' : 0 < 2 ^ (n - 1)) by (apply Z.pow_pos_nonneg; lia).
    assert (E1 : 2 ^ n = 2 ^ (n - 1) * 2).
    { replace n with (n - 1 + 1) at 1 by lia. rewrite Z.pow_add_r by lia. reflexivity. }
    assert (HP : 0 < 2 ^ n) by lia.
    assert (E2 : 2 ^ (n + 1) = 2 ^ n * 2) by (rewrite Z.pow_add_r by lia; reflexivity).
    rewrite shr_1_spec by (apply Z.div_pos; lia).
    rewrite E2. f_equal.
    + rewrite Z.div_div by lia. reflexivity.
    + destruct (mod_double m (2 ^ n) HP) as (Em & Hb & Hbit).
      rewrite Em, Zodd_mod.
      destruct (Z.leb_spec (2 ^ n) (m mod 2 ^ n + 2 ^ n * ((m / 2 ^ n) mod 2)));
        destruct (Z.eqb_spec ((m / 2 ^ n) mod 2) 1); try reflexivity; nia.
    + rewrite E1 at 1.
      destruct (mod_double m (2 ^ (n - 1)) HP') as (Em & Hb & Hbit).
      rewrite Em.
      destruct (Z.leb_spec (2 ^ (n - 1))
                  (m mod 2 ^ (n - 1) + 2 ^ (n - 1) * ((m / 2 ^ (n - 1)) mod 2)));
        destruct (Z.eqb_spec (m mod 2 ^ (n - 1)) 0);
        destruct (Z.eqb_spec (m mod 2 ^ n) 0); try reflexivity;
        rewrite E1, Em in *; nia.
Qed.

Lemma shr_spec m e (p : positive) :
  0 <= m ->
  shr {| shr_m := m; shr_r := false; shr_s := false |} e (Z.pos p) =
  (shifted m (Z.pos p), e + Z.pos p).
Proof.
  intros Hm. unfold shr. rewrite iter_pos_nat.
  destruct (Pos2Nat.is_succ p) as [k Hk]. rewrite Hk, iter_shr_1 by assumption.
  rewrite <- Hk, positive_nat_Z. reflexivity.
Qed.

(** Shifting and then rounding is rounding to the coarser grid. *)
Lemma round_shifted m n :
  0 <= m -> 1 <= n ->
  round_nearest_even (shr_m (shifted m n)) (loc_of_shr_record (shifted m n)) = rne m n.
Proof.
  intros Hm Hn. unfold shifted, rne. cbn [shr_m].
  assert (HP' : 0 < 2 ^ (n - 1)) by (apply Z.pow_pos_nonneg; lia).
  assert (E1 : 2 ^ n = 2 ^ (n - 1) * 2).
  { replace n with (n - 1 + 1) at 1 by lia. rewrite Z.pow_add_r by lia. reflexivity. }
  destruct (mod_double m (2 ^ (n - 1)) HP') as (Em & Hb & Hbit).
  rewrite <- E1 in Em.
  unfold loc_of_shr_record, round_nearest_even.
  destruct (Z.leb_spec (2 ^ (n - 1)) (m mod 2 ^ n));
    destruct (Z.eqb_spec (m mod 2 ^ (n - 1)) 0); cbn [negb];
    destruct (Z.ltb_spec (2 * (m mod 2 ^ n)) (2 ^ n));
    destruct (Z.ltb_spec (2 ^ n) (2 * (m mod 2 ^ n))); try reflexivity; nia.
Qed.

Lemma rne_0 m : rne m 0 = m.
Proof.
  unfold rne. change (2 ^ 0) with 1. rewrite Z.div_1_r, Z.mod_1_r. reflexivity.
Qed.

(** The first stage of [binary_round_aux]. *)
Lemma shr_round m e n :
  0 <= m -> 0 <= n ->
  let mrs := fst (shr {| shr_m := m; shr_r := false; shr_s := false |} e n) in
  round_nearest_even (shr_m mrs) (loc_of_shr_record mrs) = rne m n
  /\ snd (shr {| shr_m := m; shr_r := false; shr_s := false |} e n) = e + n.
Proof.
  intros Hm Hn. destruct n as [|p|p]; [| |lia].
  - simpl. rewrite rne_0. split; [reflexivity|lia].
  - rewrite shr_spec by assumption. cbn [fst snd]. split; [|reflexivity].
    apply round_shifted; lia.
Qed.

(** ** What [binary_round_aux] computes *)

Lemma rne_scale m n j : 0 <= n -> 0 <= j -> rne (m * 2 ^ j) (n + j) = rne m n.
Proof.
  intros Hn Hj. unfold rne.
  assert (Pn : 0 < 2 ^ n) by (apply Z.pow_pos_nonneg; lia).
  assert (Pj : 0 < 2 ^ j) by (apply Z.pow_pos_nonneg; lia).
  rewrite Z.pow_add_r by lia.
  rewrite Z.div_mul_cancel_r, Z.mul_mod_distr_r by lia.
  destruct (Z.ltb_spec (2 * (m mod 2 ^ n * 2 ^ j)) (2 ^ n * 2 ^ j));
    destruct (Z.ltb_spec (2 * (m mod 2 ^ n)) (2 ^ n));
    destruct (Z.ltb_spec (2 ^ n * 2 ^ j) (2 * (m mod 2 ^ n * 2 ^ j)));
    destruct (Z.ltb_spec (2 ^ n) (2 * (m mod 2 ^ n))); try reflexivity; nia.
Qed.

Lemma fexp_eq x : fexp prec emax x = Z.max (x - 53) (-1074).
Proof. reflexivity. Qed.

Lemma grid_scaled (m : positive) e :
  - bias <= e ->
  grid (Z.pos m * 2 ^ (e + bias)) = fexp prec emax (Z.pos (digits2_pos m) + e) + bias.
Proof.
  intros Hb. unfold grid, Kmin. rewrite fexp_eq, Z.log2_mul_pow2 by lia.
  rewrite digits2_pos_log2. lia.
Qed.

Lemma binary_round_aux_unfold s mx ex :
  binary_round_aux prec emax s mx ex loc_Exact =
  let st1 := shr {| shr_m := mx; shr_r := false; shr_s := false |} ex
                 (fexp prec emax (Zdigits2 mx + ex) - ex) in
  let m1 := round_nearest_even (shr_m (fst st1)) (loc_of_shr_record (fst st1)) in
  let st2 := shr {| shr_m := m1; shr_r := false; shr_s := false |} (snd st1)
                 (fexp prec emax (Zdigits2 m1 + snd st1) - snd st1) in
  match shr_m (fst st2) with
  | Z0 => S754_zero s
  | Z.pos m => if snd st2 <=? emax - prec then S754_finite s m (snd st2) else S754_infinity s
  | Z.neg _ => S754_nan
  end.
Proof.
  unfold binary_round_aux, shr_fexp. cbn [shr_record_of_loc].
  destruct (shr _ ex _) as [mrs' e']. cbn [fst snd].
  destruct (shr _ e' _) as [mrs'' e'']. reflexivity.
Qed.

Lemma shr_nonpos mrs e n : n <= 0 -> shr mrs e n = (mrs, e).
Proof. intros H. destruct n; try reflexivity. lia. Qed.

(** Rounding a significand that needs no shift to the left gives the
    double of value [R]. *)
Lemma binary_round_aux_spec (m : positive) e :
  - bias <= e ->
  e <= fexp prec emax (Z.pos (digits2_pos m) + e) ->
  Z.pos m * 2 ^ (e + bias) < 2 ^ (bias + 1000) ->
  represents (binary_round_aux prec emax false (Z.pos m) e loc_Exact)
             (R (Z.pos m * 2 ^ (e + bias))).
Proof.
  intros Hb Hal Hov.
  pose proof (digits2_pos_bounds m) as Hd.
  set (d := Z.pos (digits2_pos m)) in *.
  assert (Hd1 : 1 <= d) by (subst d; lia).
  set (E := fexp prec emax (d + e)) in *.
  assert (HE : E = Z.max (d + e - 53) (-1074)) by apply fexp_eq.
  set (n := E - e).
  assert (Hn : 0 <= n) by (subst n; lia).
  assert (Hbias : bias = 1200) by reflexivity.
  assert (HEb : 0 <= E + bias) by lia.
  assert (HR : R (Z.pos m * 2 ^ (e + bias)) = rne (Z.pos m) n * 2 ^ (E + bias)).
  { unfold R. rewrite grid_scaled by assumption. fold d. fold E.
    replace (E + bias) with (n + (e + bias)) by (subst n; lia).
    rewrite rne_scale by lia. reflexivity. }
  assert (Hde : d + e <= 1000).
  { assert (H1 : 2 ^ (d - 1) * 2 ^ (e + bias) < 2 ^ (bias + 1000)).
    { eapply Z.le_lt_trans; [|exact Hov]. apply Z.mul_le_mono_nonneg_r; [|lia].
      apply Z.pow_nonneg; lia. }
    rewrite <- Z.pow_add_r in H1 by lia.
    apply Z.pow_lt_mono_r_iff in H1; lia. }
  assert (Pn : 0 < 2 ^ n) by (apply Z.pow_pos_nonneg; lia).
  pose proof (rne_bounds (Z.pos m) n Hn) as Hq.
  assert (Hq0 : 0 <= Z.pos m / 2 ^ n) by (apply Z.div_pos; lia).
  assert (Hqu : Z.pos m / 2 ^ n < 2 ^ 53).
  { apply Z.div_lt_upper_bound; [lia|].
    rewrite <- Z.pow_add_r by lia.
    eapply Z.lt_le_trans; [apply Hd|]. apply Z.pow_le_mono_r; subst n; lia. }
  assert (Hql : -1074 < E -> 2 ^ 52 <= Z.pos m / 2 ^ n).
  { intros HE'. apply Z.div_le_lower_bound; [lia|].
    rewrite <- Z.pow_add_r by lia.
    eapply Z.le_trans; [|apply Hd]. apply Z.pow_le_mono_r; subst n; lia. }
  rewrite binary_round_aux_unfold. cbv zeta.
  change (Zdigits2 (Z.pos m)) with d. fold E. fold n.
  destruct (shr_round (Z.pos m) e n ltac:(lia) Hn) as [Hm1 He1].
  cbv zeta in Hm1. rewrite Hm1, He1.
  replace (e + n) with E by (subst n; lia).
  rewrite HR. clear HR Hm1 He1.
  set (m1 := rne (Z.pos m) n) in *.
  change (2 ^ 53) with 9007199254740992 in Hqu.
  change (2 ^ 52) with 4503599627370496 in Hql.
  destruct m1 as [|p1|p1] eqn:Em1; [| |lia].
  - (* the rounding is zero *)
    rewrite shr_nonpos by (cbn [Zdigits2]; rewrite fexp_eq; lia).
    cbn [fst shr_m]. simpl. reflexivity.
  - pose proof (digits2_pos_bounds p1) as Hd'.
    set (d1 := Z.pos (digits2_pos p1)) in *.
    change (Zdigits2 (Z.pos p1)) with d1.
    destruct (Z.le_gt_cases d1 53) as [Hle|Hgt].
    + (* no carry *)
      rewrite shr_nonpos by (rewrite fexp_eq; lia).
      cbn [fst snd shr_m].
      replace (E <=? emax - prec) with true
        by (symmetry; apply Z.leb_le; unfold emax, prec; lia).
      cbn [represents]. split; [|reflexivity].
      unfold bounded, canonical_mantissa. fold d1. rewrite fexp_eq.
      apply andb_true_iff. split; [apply Z.eqb_eq|apply Z.leb_le; unfold emax, prec; lia].
      destruct (Z.eq_dec E (-1074)) as [->|HEne]; [lia|].
      assert (Hp52 : 4503599627370496 <= Z.pos p1) by lia.
      assert (H53 : 52 < d1).
      { apply (Z.pow_lt_mono_r_iff 2); [lia|lia|].
        change (2 ^ 52) with 4503599627370496. lia. }
      lia.
    + (* the significand was rounded up to 2^53 *)
      assert (Hp53 : 2 ^ 53 <= Z.pos p1).
      { eapply Z.le_trans; [|apply Hd']. apply Z.pow_le_mono_r; lia. }
      change (2 ^ 53) with 9007199254740992 in Hp53.
      assert (Ep1 : p1 = 9007199254740992%positive) by (apply Pos2Z.inj; lia).
      clear Hd' Hp53 Hq Hql Hqu. subst p1.
      assert (Ed1 : d1 = 54) by reflexivity.
      rewrite Ed1, fexp_eq.
      replace (Z.max (54 + E - 53) (-1074) - E) with 1 by lia.
      change (shr {| shr_m := 9007199254740992; shr_r := false; shr_s := false |} E 1)
        with ({| shr_m := 4503599627370496; shr_r := false; shr_s := false |}, E + 1).
      cbn [fst snd shr_m].
      replace (E + 1 <=? emax - prec) with true
        by (symmetry; apply Z.leb_le; unfold emax, prec; lia).
      cbn [represents]. split.
      * unfold bounded, canonical_mantissa.
        change (Z.pos (digits2_pos 4503599627370496)) with 53. rewrite fexp_eq.
        apply andb_true_iff. split; [apply Z.eqb_eq|apply Z.leb_le; unfold emax, prec]; lia.
      * replace (E + 1 + bias) with (1 + (E + bias)) by lia.
        rewrite (Z.pow_add_r 2 1 (E + bias)) by lia. change (2 ^ 1) with 2. lia.
Qed.

Lemma binary_round_spec (m : positive) e :
  - bias <= e ->
  Z.pos m * 2 ^ (e + bias) < 2 ^ (bias + 1000) ->
  represents (binary_round prec emax false m e) (R (Z.pos m * 2 ^ (e + bias))).
Proof.
  intros Hb Hov. unfold binary_round.
  set (E := fexp prec emax (Z.pos (digits2_pos m) + e)).
  assert (HE : E = Z.max (Z.pos (digits2_pos m) + e - 53) (-1074)) by apply fexp_eq.
  assert (Hbias : bias = 1200) by reflexivity.
  destruct (shl_align_spec m e E) as [He Hm].
  destruct (shl_align m e E) as [mz ez]. cbn [fst snd] in He, Hm.
  assert (Hez : 0 <= e - ez) by lia.
  assert (Hd : Z.pos (digits2_pos mz) + ez = Z.pos (digits2_pos m) + e).
  { rewrite !digits2_pos_log2, Hm, <- He, Z.log2_mul_pow2 by lia. lia. }
  assert (Hv : Z.pos mz * 2 ^ (ez + bias) = Z.pos m * 2 ^ (e + bias)).
  { rewrite Hm, <- He, <- Z.mul_assoc, <- Z.pow_add_r by lia. do 2 f_equal. lia. }
  rewrite <- Hv. apply binary_round_aux_spec.
  - lia.
  - rewrite Hd. fold E. lia.
  - now rewrite Hv.
Qed.

Lemma R_0 : R 0 = 0.
Proof.
  unfold R, rne. rewrite Z.div_0_l, Z.mod_0_l
    by (apply Z.pow_nonzero; [lia|apply grid_nonneg]).
  pose proof (Z.pow_pos_nonneg 2 (grid 0) ltac:(lia) (grid_nonneg 0)).
  destruct (Z.ltb_spec (2 * 0) (2 ^ grid 0)); lia.
Qed.

Lemma R_mono0 N1 N2 : 0 <= N1 -> N1 <= N2 -> R N1 <= R N2.
Proof.
  intros H0 Hle. destruct (Z.eq_dec N1 0) as [->|Hne].
  - rewrite R_0. apply R_nonneg. lia.
  - apply R_mono; lia.
Qed.

(** ** Order and value of non-negative doubles *)

Lemma bounded_facts m e :
  bounded prec emax m e = true ->
  -1074 <= e <= 971 /\ Z.pos m < 2 ^ 53 /\ (-1074 < e -> 2 ^ 52 <= Z.pos m)
  /\ fexp prec emax (Z.pos (digits2_pos m) + e) = e.
Proof.
  intros H. pose proof (valid_finite_bounds false m e H) as (He & Hd & Hc).
  pose proof (digits2_pos_bounds m) as [Hl Hu].
  repeat split; try lia.
  - eapply Z.lt_le_trans; [exact Hu|]. apply Z.pow_le_mono_r; lia.
  - intros Hn. destruct Hc as [Hc|Hc]; [lia|]. rewrite Hc in Hl. exact Hl.
  - rewrite fexp_eq. lia.
Qed.

Lemma represents_nonneg x a : represents x a -> 0 <= a.
Proof.
  destruct x as [s|s| |[] m e]; simpl; try tauto; try lia.
  all: intros [_ ->]; apply Z.mul_nonneg_nonneg; [lia|]; apply Z.pow_nonneg; lia.
Qed.

Lemma represents_finite_pos m e :
  bounded prec emax m e = true -> 2 ^ Kmin <= Z.pos m * 2 ^ (e + bias).
Proof.
  intros H. apply bounded_facts in H as (He & _).
  assert (Hle : 2 ^ Kmin <= 2 ^ (e + bias)) by (apply Z.pow_le_mono_r; unfold Kmin; lia).
  assert (0 < 2 ^ Kmin) by (apply Z.pow_pos_nonneg; [lia|apply Kmin_nonneg]).
  nia.
Qed.

Lemma compare_scale a b P : 0 < P -> (a * P ?= b * P) = (a ?= b).
Proof.
  intros HP. destruct (Z.compare_spec a b) as [->|H|H].
  - apply Z.compare_refl.
  - apply Z.compare_lt_iff. nia.
  - apply Z.compare_gt_iff. nia.
Qed.

(** The order of non-negative doubles is the order of their values. *)
Lemma represents_compare x y a b :
  represents x a -> represents y b -> SFcompare x y = Some (a ?= b).
Proof.
  assert (Hbias : bias = 1200) by reflexivity.
  destruct x as [sx|sx| |[] mx ex], y as [sy|sy| |[] my ey]; simpl; try tauto.
  - intros -> ->. reflexivity.
  - intros -> [Hb ->]. pose proof (represents_finite_pos _ _ Hb).
    pose proof (Z.pow_pos_nonneg 2 Kmin ltac:(lia) Kmin_nonneg).
    f_equal. symmetry. apply Z.compare_lt_iff. lia.
  - intros [Hb ->] ->. pose proof (represents_finite_pos _ _ Hb).
    pose proof (Z.pow_pos_nonneg 2 Kmin ltac:(lia) Kmin_nonneg).
    f_equal. symmetry. apply Z.compare_gt_iff. lia.
  - intros [Hx ->] [Hy ->]. f_equal.
    apply bounded_facts in Hx as (Hex & Hux & Hlx & _).
    apply bounded_facts in Hy as (Hey & Huy & Hly & _).
    change (2 ^ 53) with (2 ^ 52 * 2) in Hux, Huy.
    set (h := 2 ^ 52) in *.
    destruct (Z.compare_spec ex ey) as [->|Hlt|Hgt].
    + change (Pos.compare_cont Eq mx my) with (Z.pos mx ?= Z.pos my).
      symmetry. apply compare_scale. apply Z.pow_pos_nonneg; lia.
    + symmetry. apply Z.compare_lt_iff.
      assert (E : 2 ^ (ey + bias) = 2 ^ (ey - ex) * 2 ^ (ex + bias)).
      { rewrite <- Z.pow_add_r by lia. f_equal. lia. }
      assert (P : 0 < 2 ^ (ex + bias)) by (apply Z.pow_pos_nonneg; lia).
      assert (Q : 2 ^ 1 <= 2 ^ (ey - ex)) by (apply Z.pow_le_mono_r; lia).
      change (2 ^ 1) with 2 in Q. rewrite E. specialize (Hly ltac:(lia)).
      assert (0 < h) by (subst h; lia). nia.
    + symmetry. apply Z.compare_gt_iff.
      assert (E : 2 ^ (ex + bias) = 2 ^ (ex - ey) * 2 ^ (ey + bias)).
      { rewrite <- Z.pow_add_r by lia. f_equal. lia. }
      assert (P : 0 < 2 ^ (ey + bias)) by (apply Z.pow_pos_nonneg; lia).
      assert (Q : 2 ^ 1 <= 2 ^ (ex - ey)) by (apply Z.pow_le_mono_r; lia).
      change (2 ^ 1) with 2 in Q. rewrite E. specialize (Hlx ltac:(lia)).
      assert (0 < h) by (subst h; lia). nia.
Qed.

Lemma represents_R x a : represents x a -> R a = a.
Proof.
  destruct x as [s|s| |[] m e]; simpl; try tauto.
  - intros ->. apply R_0.
  - intros [Hb ->]. apply R_fix; [lia|].
    apply bounded_facts in Hb as (He & _ & _ & Hf).
    rewrite grid_scaled by (unfold bias; lia). rewrite Hf. reflexivity.
Qed.

(** ** Subtraction and doubling of non-negative doubles *)

(** The difference of two non-negative doubles, the larger first, is
    the rounding of the difference of their values. *)
Lemma SFsub_spec x y a b :
  represents x a -> represents y b -> b < a -> a < 2 ^ (bias + 1000) ->
  represents (SF64sub x y) (R (a - b)) /\ 2 ^ Kmin <= a - b.
Proof.
  intros Hx Hy Hlt Hov.
  assert (Hbias : bias = 1200) by reflexivity.
  pose proof (represents_nonneg _ _ Hy) as Hb0.
  destruct x as [sx|sx| |[] mx ex]; simpl in Hx; try tauto; [lia|].
  destruct y as [sy|sy| |[] my ey]; simpl in Hy; try tauto.
  - subst b. rewrite Z.sub_0_r. destruct Hx as [Hbx ->].
    split; [|now apply represents_finite_pos].
    rewrite (represents_R (S754_finite false mx ex)) by (simpl; auto).
    simpl. auto.
  - destruct Hx as [Hbx ->], Hy as [Hby ->].
    apply bounded_facts in Hbx as (Hex & _). apply bounded_facts in Hby as (Hey & _).
    unfold SF64sub, SFsub. cbn [cond_Zopp].
    set (ez := Z.min ex ey).
    destruct (shl_align_spec mx ex ez) as [_ Hmx].
    destruct (shl_align_spec my ey ez) as [_ Hmy].
    replace (Z.min ex ez) with ez in Hmx by lia.
    replace (Z.min ey ez) with ez in Hmy by lia.
    set (D := Z.pos (fst (shl_align mx ex ez)) - Z.pos (fst (shl_align my ey ez))).
    assert (P : 0 < 2 ^ (ez + bias)) by (apply Z.pow_pos_nonneg; lia).
    assert (HD : D * 2 ^ (ez + bias) =
                 Z.pos mx * 2 ^ (ex + bias) - Z.pos my * 2 ^ (ey + bias)).
    { subst D. rewrite Hmx, Hmy, Z.mul_sub_distr_r, <- !Z.mul_assoc, <- !Z.pow_add_r by lia.
      replace (ex - ez + (ez + bias)) with (ex + bias) by lia.
      replace (ey - ez + (ez + bias)) with (ey + bias) by lia. reflexivity. }
    clearbody D. clear Hmx Hmy.
    assert (HDpos : 0 < D) by nia.
    assert (HK : 2 ^ Kmin <= 2 ^ (ez + bias)) by (apply Z.pow_le_mono_r; unfold Kmin; lia).
    rewrite <- HD. split; [|nia].
    destruct D as [|p|p]; try lia.
    cbn [binary_normalize]. apply binary_round_spec; [lia|]. rewrite HD. lia.
Qed.

(** Twice a non-negative double is the rounding of twice its value. *)
Lemma SFmul2_spec x a :
  represents x a -> a < 2 ^ (bias + 999) ->
  represents (SF64mul x (S754_finite false 4503599627370496 (-51))) (R (2 * a)).
Proof.
  intros Hx Hov.
  assert (Hbias : bias = 1200) by reflexivity.
  destruct x as [sx|sx| |[] m e]; simpl in Hx; try tauto.
  - subst a. simpl. apply R_0.
  - destruct Hx as [Hb ->]. apply bounded_facts in Hb as (He & _).
    unfold SF64mul, SFmul. cbn [xorb].
    assert (P : 0 < 2 ^ (e + bias)) by (apply Z.pow_pos_nonneg; lia).
    assert (Hv : Z.pos (m * 4503599627370496) * 2 ^ (e + -51 + bias)
                 = 2 * (Z.pos m * 2 ^ (e + bias))).
    { rewrite Pos2Z.inj_mul. change (Z.pos 4503599627370496) with (2 ^ 52).
      rewrite <- Z.mul_assoc, <- Z.pow_add_r by lia.
      replace (52 + (e + -51 + bias)) with (1 + (e + bias)) by lia.
      rewrite (Z.pow_add_r 2 1 (e + bias)) by lia. change (2 ^ 1) with 2. lia. }
    rewrite <- Hv. apply binary_round_aux_spec.
    + lia.
    + rewrite digits2_pos_log2, Pos2Z.inj_mul. change (Z.pos 4503599627370496) with (2 ^ 52).
      rewrite Z.log2_mul_pow2 by lia. rewrite fexp_eq.
      pose proof (Z.log2_nonneg (Z.pos m)). lia.
    + rewrite Hv. replace (bias + 1000) with (1 + (bias + 999)) by lia.
      rewrite (Z.pow_add_r 2 1 (bias + 999)) by lia. change (2 ^ 1) with 2. lia.
Qed.

(** ** The two halves of an axis, on scaled values *)

Lemma vHalf_pos : 0 < vHalf.
Proof. apply Z.pow_pos_nonneg; unfold bias; lia. Qed.

Lemma vOne_double : vOne = 2 * vHalf.
Proof.
  unfold vOne, vHalf. replace bias with (1 + (bias - 1)) at 1 by lia.
  rewrite Z.pow_add_r by (unfold bias; lia). reflexivity.
Qed.

Lemma half_represents : represents (S754_finite false 4503599627370496 (-53)) vHalf.
Proof.
  split; [reflexivity|]. unfold vHalf. change 4503599627370496 with (2 ^ 52).
  rewrite <- Z.pow_add_r by (unfold bias; lia). f_equal; lia.
Qed.

Lemma one_represents : represents (S754_finite false 4503599627370496 (-52)) vOne.
Proof.
  split; [reflexivity|]. unfold vOne. change 4503599627370496 with (2 ^ 52).
  rewrite <- Z.pow_add_r by (unfold bias; lia). f_equal; lia.
Qed.

Lemma zero_represents s : represents (S754_zero s) 0.
Proof. reflexivity. Qed.

Lemma HI_mono a1 a2 : a1 <= a2 -> HI a1 <= HI a2.
Proof.
  intros Hle. unfold HI.
  destruct (Z.leb_spec a1 vHalf), (Z.leb_spec a2 vHalf); try lia.
  - apply R_nonneg. pose proof (R_nonneg (a2 - vHalf)). lia.
  - apply R_mono0.
    + pose proof (R_nonneg (a1 - vHalf)). lia.
    + pose proof (R_mono0 (a1 - vHalf) (a2 - vHalf)). lia.
Qed.

Lemma LO_anti a1 a2 : a1 <= a2 -> LO a2 <= LO a1.
Proof.
  intros Hle. unfold LO.
  destruct (Z.leb_spec vHalf a1), (Z.leb_spec vHalf a2); try lia.
  - apply R_nonneg. pose proof (R_nonneg (vHalf - a1)). lia.
  - apply R_mono0.
    + pose proof (R_nonneg (vHalf - a2)). lia.
    + pose proof (R_mono0 (vHalf - a2) (vHalf - a1)). lia.
Qed.

Lemma leb_represents (v w : float) a b :
  represents (Prim2SF v) a -> represents (Prim2SF w) b ->
  (v <=? w)%float = (a <=? b).
Proof.
  intros Hv Hw. rewrite leb_spec. unfold SFleb.
  rewrite (represents_compare _ _ _ _ Hv Hw).
  unfold Z.leb. now destruct (a ?= b).
Qed.

Lemma ltb_represents (v w : float) a b :
  represents (Prim2SF v) a -> represents (Prim2SF w) b ->
  (v <? w)%float = (a <? b).
Proof.
  intros Hv Hw. rewrite ltb_spec. unfold SFltb.
  rewrite (represents_compare _ _ _ _ Hv Hw).
  unfold Z.ltb. now destruct (a ?= b).
Qed.

(** A double between 0 and a represented double is represented. *)
Lemma represents_below (v w : float) b :
  (0 <=? v)%float = true -> (v <=? w)%float = true -> represents (Prim2SF w) b ->
  exists a, represents (Prim2SF v) a /\ a <= b.
Proof.
  intros H0 Hle Hw.
  assert (Hr : exists a, represents (Prim2SF v) a).
  { rewrite !leb_spec, Prim2SF_zero in *. pose proof (Prim2SF_valid v) as Hv.
    destruct (Prim2SF v) as [s|s| |s m e].
    - exists 0. reflexivity.
    - destruct s; [discriminate|].
      destruct (Prim2SF w) as [sw|sw| |[] mw ew]; simpl in Hw; try tauto; discriminate.
    - discriminate.
    - destruct s; [discriminate|]. exists (Z.pos m * 2 ^ (e + bias)). split; auto. }
  destruct Hr as [a Ha]. exists a. split; [assumption|].
  rewrite (leb_represents _ _ _ _ Ha Hw) in Hle. now apply Z.leb_le.
Qed.

Lemma represents_eq_half x :
  represents x vHalf -> x = S754_finite false 4503599627370496 (-53).
Proof.
  intros Hx. pose proof (represents_compare _ _ _ _ Hx half_represents) as Hc.
  rewrite Z.compare_refl in Hc.
  destruct x as [s|s| |[] m e]; simpl in Hx; try tauto.
  - pose proof vHalf_pos. lia.
  - unfold SFcompare in Hc.
    destruct (e ?= -53) eqn:He; try discriminate.
    apply Z.compare_eq in He. subst e. clear Hx.
    destruct (Pos.compare_cont Eq m 4503599627370496) eqn:Hm; try discriminate.
    apply (Pos.compare_eq m 4503599627370496) in Hm. rewrite Hm. reflexivity.
Qed.

Lemma represents_pos_ltb x a :
  represents x a -> 0 < a -> SFltb (S754_zero false) x = true.
Proof.
  destruct x as [s|s| |[] m e]; simpl; try tauto; lia.
Qed.

Lemma vOne_bound : vOne < 2 ^ (bias + 999).
Proof. unfold vOne. apply Z.pow_lt_mono_r; unfold bias; lia. Qed.

Lemma bias_Kmin : Kmin <= bias - 1.
Proof. unfold Kmin. lia. Qed.

(** On [0,1] the two magnitudes are [HI] and [LO] of the value. *)
Lemma axis_hi_represents (v : float) a :
  represents (Prim2SF v) a -> a <= vOne ->
  represents (Prim2SF (axis_hi v)) (HI a).
Proof.
  intros Hv Hle. pose proof (represents_nonneg _ _ Hv) as Ha0.
  pose proof vOne_bound as Hb. pose proof vOne_double as Hd. pose proof vHalf_pos as Hh.
  unfold HI. destruct (Z.leb_spec a vHalf) as [Hlow|Hhigh].
  - assert (Hnp : (0 <? v - 0.5)%float = false).
    { destruct (Z.eq_dec a vHalf) as [->|Hne].
      - rewrite ltb_spec, sub_spec, Prim2SF_zero, Prim2SF_half.
        now rewrite (represents_eq_half _ Hv).
      - apply sub_half_not_positive.
        rewrite (ltb_represents v 0.5 a vHalf Hv); [apply Z.ltb_lt; lia|].
        rewrite Prim2SF_half. apply half_represents. }
    unfold axis_hi, std_max. rewrite Hnp. reflexivity.
  - assert (Hov : a < 2 ^ (bias + 1000)).
    { eapply Z.le_lt_trans; [exact Hle|]. unfold vOne.
      apply Z.pow_lt_mono_r; unfold bias; lia. }
    destruct (SFsub_spec _ _ _ _ Hv half_represents Hhigh Hov) as [Hsub Hmin].
    pose proof (R_pos _ Hmin) as Hpos.
    assert (Hp : (0 <? v - 0.5)%float = true).
    { rewrite ltb_spec, sub_spec, Prim2SF_zero, Prim2SF_half.
      exact (represents_pos_ltb _ _ Hsub Hpos). }
    unfold axis_hi, std_max. rewrite Hp.
    rewrite mul_spec, sub_spec, Prim2SF_half, Prim2SF_two.
    apply SFmul2_spec; [exact Hsub|].
    assert (R (a - vHalf) <= 2 ^ bias).
    { apply R_le_pow2; [lia|unfold Kmin; lia|]. fold vOne. lia. }
    fold vOne in H. lia.
Qed.

Lemma axis_lo_represents (v : float) a :
  represents (Prim2SF v) a -> a <= vOne ->
  represents (Prim2SF (axis_lo v)) (LO a).
Proof.
  intros Hv Hle. pose proof (represents_nonneg _ _ Hv) as Ha0.
  pose proof vOne_bound as Hb. pose proof vOne_double as Hd. pose proof vHalf_pos as Hh.
  assert (Hlt : (v <? 0.5)%float = (a <? vHalf)).
  { apply ltb_represents; [assumption|]. rewrite Prim2SF_half. apply half_represents. }
  unfold LO. destruct (Z.leb_spec vHalf a) as [Hhigh|Hlow].
  - unfold axis_lo, std_min. rewrite Hlt.
    replace (a <? vHalf) with false by (symmetry; apply Z.ltb_ge; lia).
    reflexivity.
  - unfold axis_lo, std_min. rewrite Hlt.
    replace (a <? vHalf) with true by (symmetry; apply Z.ltb_lt; lia).
    assert (Hov : vHalf < 2 ^ (bias + 1000)).
    { unfold vHalf. apply Z.pow_lt_mono_r; unfold bias; lia. }
    destruct (SFsub_spec _ _ _ _ half_represents Hv Hlow Hov) as [Hsub Hmin].
    rewrite mul_spec, sub_spec, Prim2SF_half, Prim2SF_two.
    apply SFmul2_spec; [exact Hsub|].
    assert (R (vHalf - a) <= 2 ^ (bias - 1)).
    { apply R_le_pow2; [lia|apply bias_Kmin|]. fold vHalf. lia. }
    fold vHalf in H. lia.
Qed.

(** Over the doubles of [0,1], [axis_hi] does not decrease and [axis_lo]
    does not increase. *)
Lemma axis_halves_monotone (v1 v2 : float) :
  (0 <=? v1)%float = true -> (v1 <=? v2)%float = true -> (v2 <=? 1)%float = true ->
  (axis_hi v1 <=? axis_hi v2)%float = true /\ (axis_lo v2 <=? axis_lo v1)%float = true.
Proof.
  intros H0 H12 H1.
  assert (H02 : (0 <=? v2)%float = true).
  { rewrite !leb_spec, Prim2SF_zero in *. clear H1.
    destruct (Prim2SF v1) as [s|[]| |[] m e]; try discriminate;
      destruct (Prim2SF v2) as [s2|[]| |[] m2 e2]; try discriminate; reflexivity. }
  pose proof one_represents as Hone. rewrite <- Prim2SF_one in Hone.
  destruct (represents_below v2 1 vOne H02 H1 Hone) as [a2 [Ha2 Hle2]].
  destruct (represents_below v1 v2 a2 H0 H12 Ha2) as [a1 [Ha1 Hle1]].
  pose proof (axis_hi_represents v1 a1 Ha1 ltac:(lia)) as Hh1.
  pose proof (axis_hi_represents v2 a2 Ha2 Hle2) as Hh2.
  pose proof (axis_lo_represents v1 a1 Ha1 ltac:(lia)) as Hl1.
  pose proof (axis_lo_represents v2 a2 Ha2 Hle2) as Hl2.
  rewrite (leb_represents _ _ _ _ Hh1 Hh2), (leb_represents _ _ _ _ Hl2 Hl1).
  split; apply Z.leb_le; [now apply HI_mono | now apply LO_anti].
Qed.

End Binary64.

(** * The axis encoding *)

Lemma Clamp_zero : Clamp 0.0 0.0 1.0 = 0.0%float.
Proof. reflexivity. Qed.

Lemma Clamp_one : Clamp 1.0 0.0 1.0 = 1.0%float.
Proof. reflexivity. Qed.

Lemma SetAxis_lookup_hi dev entry value :
  axis_state (SetAxis dev entry value) (entry ++ " +") =
  (fun _ => axis_hi (Clamp value 0.0 1.0)) <$> axis_state dev (entry ++ " +").
Proof.
  rewrite SetAxis_eq. unfold axis_state. cbn [m_axes with_axes].
  rewrite find_SetState_lookup_ne
    by (intros H; symmetry in H; revert H; apply half_keys_differ).
  rewrite find_SetState_lookup. now destruct (m_axes dev !! (entry ++ " +")).
Qed.

Lemma SetAxis_lookup_lo dev entry value :
  axis_state (SetAxis dev entry value) (entry ++ " -") =
  (fun _ => axis_lo (Clamp value 0.0 1.0)) <$> axis_state dev (entry ++ " -").
Proof.
  rewrite SetAxis_eq. unfold axis_state. cbn [m_axes with_axes].
  rewrite find_SetState_lookup.
  rewrite find_SetState_lookup_ne by apply half_keys_differ.
  now destruct (m_axes dev !! (entry ++ " -")).
Qed.

(** C3: [SetAxis] clamps its input into [0,1]; with [c] the clamped value
    it stores hi = max(0, c - 0.5) * 2 in the positive half and
    lo = (0.5 - min(0.5, c)) * 2 in the negative half, each when the half
    exists, and touches nothing else; an input below 0 has the effect of
    the input 0, and an input above 1 the effect of the input 1. *)
Theorem SetAxis_stores_clamped_halves (dev : PipeDevice) (entry : string) (value : double) :
  let c := Clamp value 0.0 1.0 in
  let hi := (std_max 0.0 (c - 0.5) * 2.0)%float in
  let lo := ((0.5 - std_min 0.5 c) * 2.0)%float in
  let dev' := SetAxis dev entry value in
  ((0 <=? c)%float = true /\ (c <=? 1)%float = true)
  /\ axis_state dev' (entry ++ " +") = (fun _ => hi) <$> axis_state dev (entry ++ " +")
  /\ axis_state dev' (entry ++ " -") = (fun _ => lo) <$> axis_state dev (entry ++ " -")
  /\ (forall key, key <> entry ++ " +" -> key <> entry ++ " -" ->
        m_axes dev' !! key = m_axes dev !! key)
  /\ m_buttons dev' = m_buttons dev
  /\ m_buf dev' = m_buf dev
  /\ ((value <? 0)%float = true -> SetAxis dev entry value = SetAxis dev entry 0.0)
  /\ ((1 <? value)%float = true -> SetAxis dev entry value = SetAxis dev entry 1.0).
Proof.
  cbv zeta. repeat apply conj.
  - apply Clamp_range.
  - apply Clamp_range.
  - apply SetAxis_lookup_hi.
  - apply SetAxis_lookup_lo.
  - intros key Hhi Hlo. rewrite SetAxis_eq. cbn [m_axes with_axes].
    rewrite !find_SetState_lookup_ne by congruence. reflexivity.
  - reflexivity.
  - reflexivity.
  - intros H. rewrite !SetAxis_eq, (Clamp_below _ H), Clamp_zero. reflexivity.
  - intros H. rewrite !SetAxis_eq, (Clamp_above _ H), Clamp_one. reflexivity.
Qed.

Lemma SetAxis_stores_clamped_halves_witness :
  SetAxis (new_PipeDevice 0) "L" (-3.5) = SetAxis (new_PipeDevice 0) "L" 0.0
  /\ SetAxis (new_PipeDevice 0) "L" 7.25 = SetAxis (new_PipeDevice 0) "L" 1.0
  /\ m_axes (SetAxis (new_PipeDevice 0) "L" 0.75) !! "R +" = m_axes (new_PipeDevice 0) !! "R +".
Proof.
  repeat apply conj.
  - apply (SetAxis_stores_clamped_halves (new_PipeDevice 0) "L" (-3.5)). reflexivity.
  - apply (SetAxis_stores_clamped_halves (new_PipeDevice 0) "L" 7.25). reflexivity.
  - apply (SetAxis_stores_clamped_halves (new_PipeDevice 0) "L" 0.75); discriminate.
Defined.

(** Whatever the value, one of the two computed magnitudes is zero. *)
Lemma one_half_is_zero (c : double) : axis_hi c = 0%float \/ axis_lo c = 0%float.
Proof.
  destruct (c <? 0.5)%float eqn:Hc.
  - left. unfold axis_hi, std_max. now rewrite (sub_half_not_positive _ Hc).
  - right. unfold axis_lo, std_min. now rewrite Hc.
Qed.

(** C4: when both halves of an axis exist, after [SetAxis] at most one of
    the two stored values is non-zero, and so the two are never both
    positive. *)
Theorem SetAxis_one_half_zero (dev : PipeDevice) (entry : string) (value : double) :
  is_Some (m_axes dev !! (entry ++ " +")) ->
  is_Some (m_axes dev !! (entry ++ " -")) ->
  exists hi lo,
    axis_state (SetAxis dev entry value) (entry ++ " +") = Some hi
    /\ axis_state (SetAxis dev entry value) (entry ++ " -") = Some lo
    /\ ((hi =? 0)%float = true \/ (lo =? 0)%float = true)
    /\ (0 <? hi)%float && (0 <? lo)%float = false.
Proof.
  intros [ihi Hhi] [ilo Hlo].
  exists (axis_hi (Clamp value 0.0 1.0)), (axis_lo (Clamp value 0.0 1.0)).
  rewrite SetAxis_lookup_hi, SetAxis_lookup_lo. unfold axis_state. rewrite Hhi, Hlo.
  repeat apply conj; try reflexivity.
  - destruct (one_half_is_zero (Clamp value 0.0 1.0)) as [-> | ->]; [left|right]; reflexivity.
  - destruct (one_half_is_zero (Clamp value 0.0 1.0)) as [-> | ->].
    + reflexivity.
    + apply andb_false_r.
Qed.

Lemma SetAxis_one_half_zero_witness :
  exists hi lo,
    axis_state (SetAxis (new_PipeDevice 0) "MAIN X" 0.25) "MAIN X +" = Some hi
    /\ axis_state (SetAxis (new_PipeDevice 0) "MAIN X" 0.25) "MAIN X -" = Some lo
    /\ ((hi =? 0)%float = true \/ (lo =? 0)%float = true)
    /\ (0 <? hi)%float && (0 <? lo)%float = false.
Proof.
  apply (SetAxis_one_half_zero (new_PipeDevice 0) "MAIN X" 0.25); vm_compute; eauto.
Defined.

(** C5: the two magnitudes take the values hi(0) = 0 and lo(0) = 1,
    hi(0.5) = 0 and lo(0.5) = 0, hi(1) = 1 and lo(1) = 0, and over the
    doubles of [0,1] hi does not decrease and lo does not increase. *)
Theorem axis_halves_shape :
  (axis_hi 0.0 = 0.0 /\ axis_lo 0.0 = 1.0)%float
  /\ (axis_hi 0.5 = 0.0 /\ axis_lo 0.5 = 0.0)%float
  /\ (axis_hi 1.0 = 1.0 /\ axis_lo 1.0 = 0.0)%float
  /\ (forall v1 v2 : double,
        (0 <=? v1)%float = true -> (v1 <=? v2)%float = true -> (v2 <=? 1)%float = true ->
        (axis_hi v1 <=? axis_hi v2)%float = true /\ (axis_lo v2 <=? axis_lo v1)%float = true).
Proof.
  repeat apply conj; try reflexivity.
  all: intros v1 v2 H0 H12 H1; now apply axis_halves_monotone.
Qed.

Lemma axis_halves_shape_witness :
  (axis_hi 0.125 <=? axis_hi 0.75)%float = true /\ (axis_lo 0.75 <=? axis_lo 0.125)%float = true.
Proof.
  destruct axis_halves_shape as (_ & _ & _ & H).
  apply (H 0.125 0.75)%float; reflexivity.
Defined.

(** * Further properties of the commands *)

(** ** Controls are never added, removed or renamed *)

Lemma find_SetState_names m key state k :
  m_name <$> find_SetState m key state !! k = m_name <$> m !! k.
Proof.
  destruct (decide (key = k)) as [<-|Hne].
  - rewrite find_SetState_lookup. now destruct (m !! key).
  - now rewrite find_SetState_lookup_ne.
Qed.

Lemma same_names_same_dom (m1 m2 : gmap string PipeInput) :
  (forall k, m_name <$> m1 !! k = m_name <$> m2 !! k) -> dom m1 = dom m2.
Proof.
  intros H. apply set_eq. intros k. rewrite !elem_of_dom.
  specialize (H k). destruct (m1 !! k), (m2 !! k); simpl in H; try discriminate;
    split; intros [? ?]; eauto; discriminate.
Qed.

Lemma SetAxis_names dev entry value k :
  m_name <$> m_axes (SetAxis dev entry value) !! k = m_name <$> m_axes dev !! k.
Proof. rewrite SetAxis_eq. cbn [m_axes with_axes]. now rewrite !find_SetState_names. Qed.

Lemma ParseTokens_names dev (tokens : list string) k :
  m_name <$> m_buttons (ParseTokens dev tokens) !! k = m_name <$> m_buttons dev !! k
  /\ m_name <$> m_axes (ParseTokens dev tokens) !! k = m_name <$> m_axes dev !! k.
Proof.
  unfold ParseTokens.
  repeat match goal with |- context [if ?b then _ else _] => destruct b end;
    cbn [m_buttons m_axes with_buttons];
    rewrite ?SetAxis_buttons, ?SetAxis_names, ?find_SetState_names; split; reflexivity.
Qed.

Lemma fold_ParseCommand_names lines : forall dev k,
  m_name <$> m_buttons (fold_left ParseCommand lines dev) !! k = m_name <$> m_buttons dev !! k
  /\ m_name <$> m_axes (fold_left ParseCommand lines dev) !! k = m_name <$> m_axes dev !! k.
Proof.
  induction lines as [|l lines IH]; intros dev k; [split; reflexivity|].
  cbn [fold_left]. destruct (IH (ParseCommand dev l) k) as [-> ->].
  apply ParseTokens_names.
Qed.

(** X1: a poll, in either build, and so every command, keeps the set of
    buttons and the set of axis halves of the device and the name of every
    input; commands only change states. *)
Theorem controls_are_fixed :
  (forall dev fd,
      let dev' := fst (NamedPipe.UpdateInput dev fd) in
      dom (m_buttons dev') = dom (m_buttons dev)
      /\ dom (m_axes dev') = dom (m_axes dev)
      /\ (forall k, m_name <$> m_buttons dev' !! k = m_name <$> m_buttons dev !! k)
      /\ (forall k, m_name <$> m_axes dev' !! k = m_name <$> m_axes dev !! k))
  /\ (forall dev socket,
        let dev' := fst (ZMQ.UpdateInput dev socket) in
        dom (m_buttons dev') = dom (m_buttons dev)
        /\ dom (m_axes dev') = dom (m_axes dev)
        /\ (forall k, m_name <$> m_buttons dev' !! k = m_name <$> m_buttons dev !! k)
        /\ (forall k, m_name <$> m_axes dev' !! k = m_name <$> m_axes dev !! k))
  /\ (forall dev command,
        dom (m_buttons (ParseCommand dev command)) = dom (m_buttons dev)
        /\ dom (m_axes (ParseCommand dev command)) = dom (m_axes dev)).
Proof.
  assert (Hfold : forall lines dev,
             dom (m_buttons (fold_left ParseCommand lines dev)) = dom (m_buttons dev)
             /\ dom (m_axes (fold_left ParseCommand lines dev)) = dom (m_axes dev)
             /\ (forall k, m_name <$> m_buttons (fold_left ParseCommand lines dev) !! k
                           = m_name <$> m_buttons dev !! k)
             /\ (forall k, m_name <$> m_axes (fold_left ParseCommand lines dev) !! k
                           = m_name <$> m_axes dev !! k)).
  { intros lines dev.
    assert (Hb := fun k => proj1 (fold_ParseCommand_names lines dev k)).
    assert (Ha := fun k => proj2 (fold_ParseCommand_names lines dev k)).
    repeat apply conj; auto using same_names_same_dom. }
  repeat apply conj.
  - intros dev fd. cbv zeta. rewrite pipe_UpdateInput_lines. cbn [fst m_buttons m_axes with_buf].
    apply Hfold.
  - intros dev [|msg socket]; cbv zeta.
    + repeat apply conj; reflexivity.
    + rewrite zmq_UpdateInput_lines. cbn [fst]. apply Hfold.
  - intros dev command.
    split; apply same_names_same_dom; intros k; apply ParseTokens_names.
Qed.

(** ** Repeating and reordering commands *)

(** X2: running a line twice in a row has the effect of running it once,
    whatever the line is. *)
Theorem ParseCommand_idempotent (dev : PipeDevice) (command : string) :
  ParseCommand (ParseCommand dev command) command = ParseCommand dev command.
Proof.
  unfold ParseCommand. set (tokens := SplitString command " ").
  destruct (Nat.lt_ge_cases (length tokens) 2) as [Hlt|Hge];
    [rewrite !(ParseTokens_count _ tokens) by (now left); reflexivity|].
  destruct (Nat.lt_ge_cases 4 (length tokens)) as [Hgt|Hle];
    [rewrite !(ParseTokens_count _ tokens) by (now right); reflexivity|].
  destruct (String.eqb_spec (token tokens 0) "PRESS") as [Hp|Hp].
  { apply later_command_wins. split; [reflexivity|]. left. split; split; auto. }
  destruct (String.eqb_spec (token tokens 0) "RELEASE") as [Hr|Hr].
  { apply later_command_wins. split; [reflexivity|]. left. split; split; auto. }
  destruct (String.eqb_spec (token tokens 0) "SET") as [Hs|Hs].
  - destruct (Nat.eq_dec (length tokens) 3) as [H3|H3];
      [apply later_command_wins; split; [reflexivity|]; right; repeat split; auto|].
    destruct (Nat.eq_dec (length tokens) 4) as [H4|H4];
      [apply later_command_wins; split; [reflexivity|]; right; repeat split; auto|].
    now rewrite !(ParseTokens_SET_other _ tokens).
  - now rewrite !(ParseTokens_other _ tokens).
Qed.

(** X3: a line whose first token is not SET changes no axis half, a line
    whose first token is neither PRESS nor RELEASE changes no button, and
    two such lines have the same effect in either order. *)
Theorem buttons_and_axes_apart (dev : PipeDevice) (c1 c2 : string) :
  token (SplitString c1 " ") 0 <> "SET" ->
  token (SplitString c2 " ") 0 <> "PRESS" ->
  token (SplitString c2 " ") 0 <> "RELEASE" ->
  m_axes (ParseCommand dev c1) = m_axes dev
  /\ m_buttons (ParseCommand dev c2) = m_buttons dev
  /\ ParseCommand (ParseCommand dev c1) c2 = ParseCommand (ParseCommand dev c2) c1.
Proof.
  intros H1 H2 H3. unfold ParseCommand.
  set (t1 := SplitString c1 " ") in *. set (t2 := SplitString c2 " ") in *.
  apply String.eqb_neq in H1, H2, H3.
  unfold ParseTokens. rewrite H1, H2, H3. cbn [orb].
  repeat match goal with |- context [if ?b then _ else _] => destruct b end;
    repeat apply conj; reflexivity.
Qed.

Lemma buttons_and_axes_apart_witness :
  ParseCommand (ParseCommand (new_PipeDevice 0) "PRESS A") "SET C 0.25 1"
  = ParseCommand (ParseCommand (new_PipeDevice 0) "SET C 0.25 1") "PRESS A".
Proof.
  apply (buttons_and_axes_apart (new_PipeDevice 0) "PRESS A" "SET C 0.25 1"); discriminate.
Defined.

(** X4: two button commands that name different buttons have the same
    effect in either order. *)
Theorem different_buttons_commute (dev : PipeDevice) (c1 c2 : string) :
  button_command (SplitString c1 " ") -> button_command (SplitString c2 " ") ->
  token (SplitString c1 " ") 1 <> token (SplitString c2 " ") 1 ->
  ParseCommand (ParseCommand dev c1) c2 = ParseCommand (ParseCommand dev c2) c1.
Proof.
  intros [Hn1 Hv1] [Hn2 Hv2] Hne. unfold ParseCommand.
  rewrite !ParseTokens_button by assumption.
  cbn [m_buttons with_buttons]. unfold with_buttons. cbn [m_buf m_axes]. f_equal.
  now apply find_SetState_comm.
Qed.

Lemma different_buttons_commute_witness :
  ParseCommand (ParseCommand (new_PipeDevice 0) "PRESS A") "PRESS B"
  = ParseCommand (ParseCommand (new_PipeDevice 0) "PRESS B") "PRESS A".
Proof.
  apply (different_buttons_commute (new_PipeDevice 0) "PRESS A" "PRESS B");
    try discriminate; (split; [vm_compute; lia | left; reflexivity]).
Defined.

(** ** Polling *)

Lemma with_buf_with_buf dev b1 b2 : with_buf (with_buf dev b1) b2 = with_buf dev b2.
Proof. reflexivity. Qed.

(** X5: how the text is cut into polls does not matter in the named-pipe
    build: polling when [a] waits and again when [b] waits leaves the
    device as one poll does when [a ++ b] waits. *)
Theorem poll_boundaries_do_not_matter (dev : PipeDevice) (a b : string) :
  NamedPipe.UpdateInput (fst (NamedPipe.UpdateInput dev a)) b
  = NamedPipe.UpdateInput dev (a ++ b).
Proof.
  rewrite !pipe_UpdateInput_lines. cbn [fst m_buf with_buf].
  rewrite <- str_app_assoc, (complete_lines_app (m_buf dev ++ a) b). cbn [fst snd].
  rewrite fold_left_app, fold_ParseCommand_with_buf. reflexivity.
Qed.

(** X6: a poll of the named-pipe build empties the pipe and leaves no
    newline in [m_buf], and a poll that finds nothing waiting changes
    nothing after it. *)
Theorem poll_leaves_no_line (dev : PipeDevice) (fd : string) :
  let dev' := fst (NamedPipe.UpdateInput dev fd) in
  snd (NamedPipe.UpdateInput dev fd) = ""
  /\ find newline (m_buf dev') = None
  /\ NamedPipe.UpdateInput dev' "" = (dev', "").
Proof.
  cbv zeta. pose proof (pipe_UpdateInput_no_newline dev fd) as Hnl.
  repeat apply conj; [now rewrite pipe_UpdateInput_lines | exact Hnl |].
  set (dev' := fst (NamedPipe.UpdateInput dev fd)) in *.
  rewrite pipe_UpdateInput_lines, str_app_nil_r, (complete_lines_None _ Hnl).
  cbn [fst snd fold_left]. now rewrite with_buf_id.
Qed.

(** X7: the two builds read a text alike: a ZeroMQ message and the same
    text arriving on a named pipe whose [m_buf] is empty leave the same
    buttons and the same axis halves. *)
Theorem builds_agree (dev : PipeDevice) (msg : string) (socket : list string) :
  m_buf dev = "" ->
  let pipe := fst (NamedPipe.UpdateInput dev msg) in
  let zmq := fst (ZMQ.UpdateInput dev (msg :: socket)) in
  m_buttons zmq = m_buttons pipe /\ m_axes zmq = m_axes pipe.
Proof.
  intros Hbuf. cbv zeta.
  rewrite pipe_UpdateInput_lines, zmq_UpdateInput_lines, Hbuf. cbn [fst].
  change ("" ++ msg) with msg. split; reflexivity.
Qed.

Lemma builds_agree_witness :
  let dev := new_PipeDevice 0 in
  let text := line "PRESS A" ++ line "SET C 0.25 1" ++ "RELEASE" in
  m_buttons (fst (ZMQ.UpdateInput dev [text])) = m_buttons (fst (NamedPipe.UpdateInput dev text))
  /\ m_axes (fst (ZMQ.UpdateInput dev [text])) = m_axes (fst (NamedPipe.UpdateInput dev text)).
Proof.
  apply (builds_agree (new_PipeDevice 0)
           (line "PRESS A" ++ line "SET C 0.25 1" ++ "RELEASE") []).
  reflexivity.
Defined.

(** ** Adding an axis *)

(** X8: [AddAxis] gives the device the two halves of the axis, named
    after it and both holding the given value, whatever was stored under
    their keys before; a [SetAxis] on the axis then reaches both halves,
    and the other axis halves are as they were. *)
Theorem AddAxis_then_SetAxis (s : ControlState) (dev : PipeDevice) (name : string)
    (value x : double) :
  let dev1 := AddAxis s dev name value in
  let dev2 := SetAxis dev1 name x in
  m_axes dev1 !! (name ++ " +")
    = Some {| m_name := "Axis " ++ name ++ " +"; m_state := value |}
  /\ m_axes dev1 !! (name ++ " -")
    = Some {| m_name := "Axis " ++ name ++ " -"; m_state := value |}
  /\ axis_state dev2 (name ++ " +") = Some (axis_hi (Clamp x 0.0 1.0))
  /\ axis_state dev2 (name ++ " -") = Some (axis_lo (Clamp x 0.0 1.0))
  /\ (forall key, key <> name ++ " +" -> key <> name ++ " -" ->
        m_axes dev2 !! key = m_axes dev !! key)
  /\ m_buttons dev2 = m_buttons dev.
Proof.
  cbv zeta.
  assert (Hhi : m_axes (AddAxis s dev name value) !! (name ++ " +")
                = Some {| m_name := "Axis " ++ name ++ " +"; m_state := value |}).
  { unfold AddAxis. cbn [m_axes with_axes].
    rewrite lookup_insert_ne
      by (intros H; symmetry in H; revert H; apply half_keys_differ).
    now rewrite lookup_insert_eq. }
  assert (Hlo : m_axes (AddAxis s dev name value) !! (name ++ " -")
                = Some {| m_name := "Axis " ++ name ++ " -"; m_state := value |}).
  { unfold AddAxis. cbn [m_axes with_axes]. now rewrite lookup_insert_eq. }
  repeat apply conj; [exact Hhi | exact Hlo | | | |].
  - rewrite SetAxis_lookup_hi. unfold axis_state. now rewrite Hhi.
  - rewrite SetAxis_lookup_lo. unfold axis_state. now rewrite Hlo.
  - intros key H1 H2. rewrite SetAxis_eq. cbn [m_axes with_axes].
    rewrite !find_SetState_lookup_ne by congruence.
    unfold AddAxis. cbn [m_axes with_axes].
    now rewrite !lookup_insert_ne by congruence.
  - now rewrite SetAxis_buttons.
Qed.

Lemma AddAxis_then_SetAxis_witness :
  m_axes (SetAxis (AddAxis 0 (new_PipeDevice 0) "L" 0.0) "L" 1.0) !! "R +"
  = m_axes (new_PipeDevice 0) !! "R +".
Proof.
  apply (AddAxis_then_SetAxis 0 (new_PipeDevice 0) "L" 0 1); discriminate.
Defined.

(** ** Text that is no number *)








(** ** SET lines on different axes *)

Lemma find_SetState_Some m key state k inp :
  find_SetState m key state !! k = Some inp ->
  m !! k = Some inp \/ GetState inp = state.
Proof.
  destruct (decide (key = k)) as [<-|Hne].
  - rewrite find_SetState_lookup. destruct (m !! key); [|discriminate].
    intros [= <-]. now right.
  - rewrite find_SetState_lookup_ne by assumption. now left.
Qed.

Lemma str_app_inj (a b s t : string) :
  String.length s = String.length t -> a ++ s = b ++ t -> a = b /\ s = t.
Proof.
  intros Hlen. revert b. induction a as [|c a IH]; intros [|d b] H; simpl in H.
  - auto.
  - exfalso. apply (f_equal String.length) in H. simpl in H.
    rewrite str_length_app in H. lia.
  - exfalso. apply (f_equal String.length) in H. simpl in H.
    rewrite str_length_app in H. lia.
  - injection H as -> H. destruct (IH _ H) as [-> ->]. auto.
Qed.

Lemma entry_keys_differ (e1 e2 s1 s2 : string) :
  e1 <> e2 -> String.length s1 = String.length s2 -> e1 ++ s1 <> e2 ++ s2.
Proof. intros Hne Hlen H. now destruct (str_app_inj _ _ _ _ Hlen H). Qed.

Lemma SetAxis_swap dev e1 v1 e2 v2 :
  e1 <> e2 ->
  SetAxis (SetAxis dev e1 v1) e2 v2 = SetAxis (SetAxis dev e2 v2) e1 v1.
Proof.
  intros Hne. rewrite !SetAxis_eq. cbn [m_axes with_axes]. unfold with_axes. cbn [m_buf m_buttons].
  f_equal.
  rewrite (find_SetState_comm _ (e1 ++ " -") _ (e2 ++ " +")) by now apply entry_keys_differ.
  rewrite (find_SetState_comm _ (e1 ++ " +") _ (e2 ++ " +")) by now apply entry_keys_differ.
  rewrite (find_SetState_comm _ (e1 ++ " -") _ (e2 ++ " -")) by now apply entry_keys_differ.
  rewrite (find_SetState_comm (find_SetState _ (e2 ++ " +") _) (e1 ++ " +") _ (e2 ++ " -"))
    by now apply entry_keys_differ.
  reflexivity.
Qed.

(** X10: writes to different axes do not interfere: [SetAxis] on two
    different entries gives the same device in either order, and so do two
    SET lines none of whose axes are the same. *)
Theorem different_axes_commute :
  (forall dev e1 v1 e2 v2, e1 <> e2 ->
      SetAxis (SetAxis dev e1 v1) e2 v2 = SetAxis (SetAxis dev e2 v2) e1 v1)
  /\ (forall dev (t1 t2 : list string),
        token t1 0 = "SET" -> token t2 0 = "SET" ->
        (forall e1 e2, In e1 (axis_entries t1) -> In e2 (axis_entries t2) -> e1 <> e2) ->
        ParseTokens (ParseTokens dev t1) t2 = ParseTokens (ParseTokens dev t2) t1).
Proof.
  split; [exact SetAxis_swap|].
  intros dev t1 t2 H1 H2 Hne. unfold axis_entries in Hne.
  destruct (Nat.eqb_spec (length t1) 3) as [L1|L1]; [|destruct (Nat.eqb_spec (length t1) 4) as [L1'|L1']];
    (destruct (Nat.eqb_spec (length t2) 3) as [L2|L2]; [|destruct (Nat.eqb_spec (length t2) 4) as [L2'|L2']]);
    rewrite ?(ParseTokens_SET_other _ t1), ?(ParseTokens_SET_other _ t2) by assumption;
    try reflexivity.
  - rewrite !(ParseTokens_SET3 _ t1), !(ParseTokens_SET3 _ t2) by assumption.
    apply SetAxis_swap, Hne; now left.
  - rewrite !(ParseTokens_SET3 _ t1), !(ParseTokens_SET4 _ t2) by assumption.
    rewrite (SetAxis_swap dev (token t1 1)) by (apply Hne; [now left | now left]).
    rewrite (SetAxis_swap _ (token t1 1)) by (apply Hne; [now left | right; now left]).
    reflexivity.
  - rewrite !(ParseTokens_SET4 _ t1), !(ParseTokens_SET3 _ t2) by assumption.
    rewrite (SetAxis_swap _ (token t1 1 ++ " Y")) by (apply Hne; [right; now left | now left]).
    rewrite (SetAxis_swap dev (token t1 1 ++ " X")) by (apply Hne; [now left | now left]).
    reflexivity.
  - rewrite !(ParseTokens_SET4 _ t1), !(ParseTokens_SET4 _ t2) by assumption.
    rewrite (SetAxis_swap _ (token t1 1 ++ " Y") _ (token t2 1 ++ " X"))
      by (apply Hne; [right; now left | now left]).
    rewrite (SetAxis_swap dev (token t1 1 ++ " X") _ (token t2 1 ++ " X"))
      by (apply Hne; [now left | now left]).
    rewrite (SetAxis_swap _ (token t1 1 ++ " Y") _ (token t2 1 ++ " Y"))
      by (apply Hne; [right; now left | right; now left]).
    rewrite (SetAxis_swap _ (token t1 1 ++ " X") _ (token t2 1 ++ " Y"))
      by (apply Hne; [now left | right; now left]).
    reflexivity.
Qed.

Lemma different_axes_commute_witness :
  ParseTokens (ParseTokens (new_PipeDevice 0) ["SET"; "L"; "1"]) ["SET"; "C"; "0.25"; "1"]
  = ParseTokens (ParseTokens (new_PipeDevice 0) ["SET"; "C"; "0.25"; "1"]) ["SET"; "L"; "1"].
Proof.
  apply (proj2 different_axes_commute (new_PipeDevice 0)
           ["SET"; "L"; "1"] ["SET"; "C"; "0.25"; "1"]); try reflexivity.
  intros e1 e2 [<-|[]] [<-|[<-|[]]]; discriminate.
Defined.

(** ** Messages cut at a line end *)

(** X11: in the ZeroMQ build a message that ends in a newline and the
    message after it can be merged into one: two polls of the two
    messages leave the device and the socket as one poll of the merged
    message does. *)
Theorem messages_merge_at_line_end (dev : PipeDevice) (m1 m2 : string) (socket : list string) :
  snd (complete_lines m1) = "" ->
  (let '(dev1, socket1) := ZMQ.UpdateInput dev (m1 :: m2 :: socket) in
   ZMQ.UpdateInput dev1 socket1)
  = ZMQ.UpdateInput dev ((m1 ++ m2) :: socket).
Proof.
  intros Hend. rewrite !zmq_UpdateInput_lines, complete_lines_app, Hend. cbn [fst].
  change ("" ++ m2) with m2. now rewrite fold_left_app.
Qed.

Lemma messages_merge_at_line_end_witness :
  (let '(dev1, socket1) :=
     ZMQ.UpdateInput (new_PipeDevice 0) [line "PRESS A"; line "PRESS B"] in
   ZMQ.UpdateInput dev1 socket1)
  = ZMQ.UpdateInput (new_PipeDevice 0) [line "PRESS A" ++ line "PRESS B"].
Proof.
  apply (messages_merge_at_line_end (new_PipeDevice 0) (line "PRESS A") (line "PRESS B") []).
  reflexivity.
Defined.

(** ** The states of the buttons *)

Lemma ParseTokens_buttons_binary s dev (tokens : list string) :
  buttons_binary s dev -> buttons_binary s (ParseTokens dev tokens).
Proof.
  intros Hdev name inp. unfold ParseTokens.
  repeat match goal with |- context [if ?b then _ else _] => destruct b end;
    cbn [m_buttons with_buttons]; rewrite ?SetAxis_buttons; intros H;
    try exact (Hdev _ _ H);
    (apply find_SetState_Some in H as [H| ->]; [exact (Hdev _ _ H) | auto]).
Qed.

Lemma fold_ParseCommand_buttons_binary s lines : forall dev,
  buttons_binary s dev -> buttons_binary s (fold_left ParseCommand lines dev).
Proof.
  induction lines as [|l lines IH]; intros dev Hdev; [exact Hdev|].
  cbn [fold_left]. apply IH. now apply ParseTokens_buttons_binary.
Qed.

Lemma new_PipeDevice_buttons_binary s : buttons_binary s (new_PipeDevice s).
Proof.
  intros name inp H. left.
  assert (Hs : button_state (new_PipeDevice s) name = Some (GetState inp))
    by (unfold button_state; now rewrite H).
  revert Hs. unfold button_state, new_PipeDevice.
  cbn [fold_left s_axis_tokens s_shoulder_tokens s_button_tokens AddAxis m_buttons with_axes
       with_buttons].
  clear H. intros H.
  repeat match type of H with
  | context [<[?k := _]> _ !! name] =>
      destruct (decide (k = name)) as [<-|?];
      [rewrite lookup_insert_eq in H; now injection H as <- |
       rewrite lookup_insert_ne in H by assumption]
  end.
  now rewrite lookup_empty in H.
Qed.

(** X12: a button of a new device only ever holds the state it was built
    with, 0 or 1, through any sequence of polls of either build and
    whatever text arrives. *)
Theorem button_states_stay_binary (s : ControlState) :
  (forall polls : list string, buttons_binary s (pipe_polls (new_PipeDevice s) polls))
  /\ (forall messages : list string, buttons_binary s (zmq_polls (new_PipeDevice s) messages)).
Proof.
  split.
  - intros polls. unfold pipe_polls.
    generalize (new_PipeDevice_buttons_binary s). generalize (new_PipeDevice s).
    induction polls as [|fd polls IH]; intros dev Hdev; [exact Hdev|].
    cbn [fold_left]. apply IH. rewrite pipe_UpdateInput_lines. cbn [fst].
    intros name inp. cbn [m_buttons with_buf]. now apply fold_ParseCommand_buttons_binary.
  - intros messages. unfold zmq_polls.
    generalize (new_PipeDevice_buttons_binary s). generalize (new_PipeDevice s).
    induction messages as [|msg messages IH]; intros dev Hdev; [exact Hdev|].
    cbn [fold_left]. apply IH. rewrite zmq_UpdateInput_lines. cbn [fst].
    now apply fold_ParseCommand_buttons_binary.
Qed.

(** * The range of the axis halves *)

Section UnitRange.

Local Open Scope Z_scope.

Lemma R_le_pow2_0 N k : 0 <= N -> Kmin <= k -> N <= 2 ^ k -> R N <= 2 ^ k.
Proof. intros H0 Hk Hle. rewrite <- (R_pow2 k Hk). now apply R_mono0. Qed.

Lemma twice_R_le_one N : 0 <= N -> N <= vHalf -> 0 <= R (2 * R N) <= vOne.
Proof.
  intros H0 Hle. pose proof (R_nonneg N H0) as Hn.
  assert (HR : R N <= vHalf) by (apply R_le_pow2_0; [lia | apply bias_Kmin | exact Hle]).
  split; [apply R_nonneg; lia|].
  apply R_le_pow2_0; [lia | pose proof bias_Kmin; lia | change (2 ^ bias) with vOne; rewrite vOne_double; lia].
Qed.

Lemma HI_range a : a <= vOne -> 0 <= HI a <= vOne.
Proof.
  intros Ha. unfold HI. pose proof vHalf_pos as Hh.
  destruct (Z.leb_spec a vHalf); [unfold vOne; lia|].
  apply twice_R_le_one; rewrite vOne_double in Ha; lia.
Qed.

Lemma LO_range a : 0 <= a -> 0 <= LO a <= vOne.
Proof.
  intros Ha. unfold LO. pose proof vHalf_pos as Hh.
  destruct (Z.leb_spec vHalf a); [unfold vOne; lia|].
  apply twice_R_le_one; lia.
Qed.

Lemma in_unit_represents (v : float) a :
  represents (Prim2SF v) a -> 0 <= a <= vOne -> in_unit v = true.
Proof.
  intros Hv Ha. unfold in_unit.
  rewrite (leb_represents 0 v 0 a), (leb_represents v 1 a vOne); try assumption.
  - apply andb_true_iff. split; apply Z.leb_le; lia.
  - rewrite Prim2SF_one. apply one_represents.
  - rewrite Prim2SF_zero. apply zero_represents.
Qed.

Lemma axis_halves_in_unit (c : float) :
  in_unit c = true -> in_unit (axis_hi c) = true /\ in_unit (axis_lo c) = true.
Proof.
  unfold in_unit at 1. intros H. apply andb_true_iff in H as [H0 H1].
  destruct (represents_below c 1 vOne H0 H1) as (a & Ha & Hle).
  { rewrite Prim2SF_one. apply one_represents. }
  pose proof (represents_nonneg _ _ Ha) as Hn.
  split.
  - apply (in_unit_represents _ (HI a)); [now apply axis_hi_represents | now apply HI_range].
  - apply (in_unit_represents _ (LO a)); [now apply axis_lo_represents | now apply LO_range].
Qed.

Lemma Clamp_in_unit (v : float) : in_unit (Clamp v 0 1) = true.
Proof. unfold in_unit. destruct (Clamp_range v) as [-> ->]. reflexivity. Qed.

Lemma SetAxis_in_unit dev entry value :
  axes_in_unit dev -> axes_in_unit (SetAxis dev entry value).
Proof.
  intros Hdev key inp. rewrite SetAxis_eq. cbn [m_axes with_axes]. intros H.
  destruct (axis_halves_in_unit _ (Clamp_in_unit value)) as [Hhi Hlo].
  apply find_SetState_Some in H as [H| ->]; [|exact Hlo].
  apply find_SetState_Some in H as [H| ->]; [|exact Hhi].
  exact (Hdev _ _ H).
Qed.

Lemma ParseTokens_in_unit dev (tokens : list string) :
  axes_in_unit dev -> axes_in_unit (ParseTokens dev tokens).
Proof.
  intros Hdev. unfold ParseTokens.
  repeat match goal with |- context [if ?b then _ else _] => destruct b end;
    auto using SetAxis_in_unit.
Qed.

Lemma fold_ParseCommand_in_unit lines : forall dev,
  axes_in_unit dev -> axes_in_unit (fold_left ParseCommand lines dev).
Proof.
  induction lines as [|l lines IH]; intros dev Hdev; [exact Hdev|].
  cbn [fold_left]. apply IH. now apply ParseTokens_in_unit.
Qed.

Lemma AddAxis_in_unit s dev name value :
  in_unit value = true -> axes_in_unit dev -> axes_in_unit (AddAxis s dev name value).
Proof.
  intros Hv Hdev key inp. unfold AddAxis. cbn [m_axes with_axes]. intros H.
  apply lookup_insert_Some in H as [[_ <-]|[_ H]]; [exact Hv|].
  apply lookup_insert_Some in H as [[_ <-]|[_ H]]; [exact Hv|].
  exact (Hdev _ _ H).
Qed.

Lemma new_PipeDevice_in_unit s : axes_in_unit (new_PipeDevice s).
Proof.
  unfold new_PipeDevice. cbn [fold_left s_axis_tokens s_shoulder_tokens].
  repeat (apply AddAxis_in_unit; [reflexivity|]).
  intros key inp H. exfalso. revert H.
  generalize s_button_tokens. intros l.
  assert (Hg : forall d, m_axes d = ∅ ->
             m_axes (fold_left
               (fun dev tok => with_buttons dev
                  (<[tok := new_PipeInput s ("Button " ++ tok)]> (m_buttons dev))) l d) = ∅).
  { induction l as [|t l IH]; intros d Hd; [exact Hd|]. cbn [fold_left]. now apply IH. }
  rewrite Hg by reflexivity. now rewrite lookup_empty.
Qed.

(** X13: whatever value [SetAxis] is given, infinite values and values
    that are no number among them, the state it stores in a half lies in
    [0,1]; so every axis half of a new device lies in [0,1], and stays
    there through any sequence of polls of either build, whatever text
    arrives. *)
Theorem axis_states_stay_in_unit_interval :
  (forall value : double,
      in_unit (axis_hi (Clamp value 0.0 1.0)) = true
      /\ in_unit (axis_lo (Clamp value 0.0 1.0)) = true)
  /\ (forall (s : ControlState) (polls : list string),
        axes_in_unit (pipe_polls (new_PipeDevice s) polls))
  /\ (forall (s : ControlState) (messages : list string),
        axes_in_unit (zmq_polls (new_PipeDevice s) messages)).
Proof.
  repeat apply conj.
  - intros value. apply axis_halves_in_unit, Clamp_in_unit.
  - intros s polls. unfold pipe_polls.
    generalize (new_PipeDevice_in_unit s). generalize (new_PipeDevice s).
    induction polls as [|fd polls IH]; intros dev Hdev; [exact Hdev|].
    cbn [fold_left]. apply IH. rewrite pipe_UpdateInput_lines. cbn [fst].
    intros key inp. cbn [m_axes with_buf]. now apply fold_ParseCommand_in_unit.
  - intros s messages. unfold zmq_polls.
    generalize (new_PipeDevice_in_unit s). generalize (new_PipeDevice s).
    induction messages as [|msg messages IH]; intros dev Hdev; [exact Hdev|].
    cbn [fold_left]. apply IH. rewrite zmq_UpdateInput_lines. cbn [fst].
    now apply fold_ParseCommand_in_unit.
Qed.

End UnitRange.

Section Magnitudes.

Local Open Scope Z_scope.

Lemma R_ge_Kmin N : 2 ^ Kmin <= N -> 2 ^ Kmin <= R N.
Proof.
  intros H. rewrite <- (R_pow2 Kmin) at 1 by lia.
  apply R_mono; [|exact H]. apply Z.pow_pos_nonneg; [lia | apply Kmin_nonneg].
Qed.

Lemma twice_R_pos N : 2 ^ Kmin <= N -> 0 < R (2 * R N).
Proof.
  intros H. apply R_pos. pose proof (R_ge_Kmin N H).
  assert (0 < 2 ^ Kmin) by (apply Z.pow_pos_nonneg; [lia | apply Kmin_nonneg]). lia.
Qed.

Lemma one_below_bound : vOne < 2 ^ (bias + 1000).
Proof. unfold vOne. apply Z.pow_lt_mono_r; unfold bias; lia. Qed.

Lemma HI_pos x a : represents x a -> a <= vOne -> (0 <? HI a) = (vHalf <? a).
Proof.
  intros Hx Hle. unfold HI. destruct (Z.leb_spec a vHalf) as [Hlow|Hhigh].
  - symmetry. apply Z.ltb_ge. exact Hlow.
  - assert (Hov : a < 2 ^ (bias + 1000)) by (pose proof one_below_bound; lia).
    destruct (SFsub_spec _ _ _ _ Hx half_represents Hhigh Hov) as [_ Hmin].
    pose proof (twice_R_pos _ Hmin).
    transitivity true; [apply Z.ltb_lt; lia | symmetry; apply Z.ltb_lt; lia].
Qed.

Lemma LO_pos x a : represents x a -> (0 <? LO a) = (a <? vHalf).
Proof.
  intros Hx. unfold LO. destruct (Z.leb_spec vHalf a) as [Hhigh|Hlow].
  - symmetry. apply Z.ltb_ge. exact Hhigh.
  - assert (Hov : vHalf < 2 ^ (bias + 1000)).
    { pose proof one_below_bound. pose proof vOne_double. pose proof vHalf_pos. lia. }
    destruct (SFsub_spec _ _ _ _ half_represents Hx Hlow Hov) as [_ Hmin].
    pose proof (twice_R_pos _ Hmin).
    transitivity true; [apply Z.ltb_lt; lia | symmetry; apply Z.ltb_lt; lia].
Qed.

Lemma in_unit_represented (c : float) :
  in_unit c = true -> exists a, represents (Prim2SF c) a /\ 0 <= a <= vOne.
Proof.
  unfold in_unit. intros H. apply andb_true_iff in H as [H0 H1].
  destruct (represents_below c 1 vOne H0 H1) as (a & Ha & Hle).
  { rewrite Prim2SF_one. apply one_represents. }
  exists a. pose proof (represents_nonneg _ _ Ha). auto.
Qed.

(** X14: the encoding has no dead zone: for a value in [0,1] the + half
    is positive exactly when the value is above one half, and the - half
    exactly when it is below, however close to one half the value is. *)
Theorem axis_halves_have_no_dead_zone (c : double) :
  in_unit c = true ->
  (0 <? axis_hi c)%float = (0.5 <? c)%float
  /\ (0 <? axis_lo c)%float = (c <? 0.5)%float.
Proof.
  intros Hc. destruct (in_unit_represented c Hc) as (a & Ha & H0 & H1).
  assert (Hz : represents (Prim2SF 0) 0) by (rewrite Prim2SF_zero; apply zero_represents).
  assert (Hh : represents (Prim2SF 0.5) vHalf) by (rewrite Prim2SF_half; apply half_represents).
  split.
  - rewrite (ltb_represents 0 (axis_hi c) 0 (HI a) Hz (axis_hi_represents c a Ha H1)).
    rewrite (ltb_represents 0.5 c vHalf a Hh Ha). exact (HI_pos _ _ Ha H1).
  - rewrite (ltb_represents 0 (axis_lo c) 0 (LO a) Hz (axis_lo_represents c a Ha H1)).
    rewrite (ltb_represents c 0.5 a vHalf Ha Hh). exact (LO_pos _ _ Ha).
Qed.

Lemma axis_halves_have_no_dead_zone_witness :
  in_unit 0.75 = true
  /\ (0 <? axis_hi 0.75)%float = (0.5 <? 0.75)%float
  /\ (0 <? axis_lo 0.75)%float = (0.75 <? 0.5)%float.
Proof.
  split; [reflexivity | apply (axis_halves_have_no_dead_zone 0.75); reflexivity].
Defined.

(** ** Where the encoding is exact *)

Lemma R_exact n K : 0 <= n <= 2 ^ 53 -> Kmin <= K -> R (n * 2 ^ K) = n * 2 ^ K.
Proof.
  intros [Hn0 Hn1] HK. pose proof Kmin_nonneg as HK0.
  destruct (Z.eq_dec n 0) as [->|Hnz]; [rewrite Z.mul_0_l; apply R_0|].
  destruct (Z.eq_dec n (2 ^ 53)) as [->|Hn53].
  { rewrite <- Z.pow_add_r by lia. apply R_pow2. lia. }
  assert (Hlog : Z.log2 n < 53) by (apply Z.log2_lt_pow2; lia).
  set (g := grid (n * 2 ^ K)).
  assert (Hg : Kmin <= g <= K).
  { split; [apply grid_ge|]. unfold g, grid.
    rewrite Z.log2_mul_pow2 by lia. lia. }
  assert (Heq : n * 2 ^ K = (n * 2 ^ (K - g)) * 2 ^ g).
  { rewrite <- Z.mul_assoc, <- Z.pow_add_r by lia. do 2 f_equal; lia. }
  rewrite Heq. apply R_fix.
  - apply Z.mul_nonneg_nonneg; [lia | apply Z.pow_nonneg; lia].
  - rewrite <- Heq. reflexivity.
Qed.

(** A double in [2^(bias-1-j), ...] is a multiple of [2^(bias-53-j)]. *)
Lemma represents_multiple x a j :
  represents x a -> 0 <= j <= 1 -> 2 ^ (bias - 1 - j) <= a ->
  exists n, a = n * 2 ^ (bias - 53 - j) /\ 0 <= n.
Proof.
  intros Hx Hj Hge.
  assert (Hpos : 0 < 2 ^ (bias - 1 - j)) by (apply Z.pow_pos_nonneg; unfold bias; lia).
  destruct x as [s|s| |[] m e]; cbn [represents] in Hx; try contradiction; [lia|].
  destruct Hx as [Hb ->]. destruct (bounded_facts m e Hb) as (He & Hm & _ & _).
  assert (He' : -53 - j <= e).
  { destruct (Z.le_gt_cases (-53 - j) e) as [|Hlt]; [assumption|exfalso].
    assert (Z.pos m * 2 ^ (e + bias) < 2 ^ 53 * 2 ^ (e + bias)).
    { apply Z.mul_lt_mono_pos_r; [apply Z.pow_pos_nonneg; unfold bias; lia | exact Hm]. }
    assert (2 ^ 53 * 2 ^ (e + bias) <= 2 ^ (bias - 1 - j)).
    { rewrite <- Z.pow_add_r by (unfold bias; lia).
      apply Z.pow_le_mono_r; unfold bias; lia. }
    lia. }
  exists (Z.pos m * 2 ^ (e + 53 + j)). split.
  - rewrite <- Z.mul_assoc, <- Z.pow_add_r by (unfold bias; lia). do 2 f_equal; lia.
  - apply Z.mul_nonneg_nonneg; [lia | apply Z.pow_nonneg; lia].
Qed.

Lemma HI_exact x a : represents x a -> vHalf <= a <= vOne -> HI a = 2 * a - vOne.
Proof.
  intros Hx [Hlo Hhi]. pose proof vOne_double as Hd. unfold HI.
  destruct (Z.leb_spec a vHalf) as [Hle|Hgt]; [lia|].
  destruct (represents_multiple x a 0 Hx) as (n & Hn & Hn0); [lia | rewrite Z.sub_0_r; exact Hlo|].
  rewrite Z.sub_0_r in Hn.
  set (P := 2 ^ (bias - 53)) in *.
  assert (HP : 0 < P) by (apply Z.pow_pos_nonneg; unfold bias; lia).
  assert (Hh : vHalf = 2 ^ 52 * P).
  { unfold vHalf, P. rewrite <- Z.pow_add_r by (unfold bias; lia). f_equal; lia. }
  assert (Hn1 : n <= 2 ^ 53).
  { apply (Z.mul_le_mono_pos_r _ _ P HP). rewrite <- Hn.
    assert (Hone : vOne = 2 ^ 53 * P)
      by (rewrite Hd, Hh; change (2 ^ 53) with (2 * 2 ^ 52); lia).
    rewrite <- Hone. exact Hhi. }
  assert (Hn2 : 2 ^ 52 <= n).
  { apply (Z.mul_le_mono_pos_r _ _ P HP). rewrite <- Hn, <- Hh. exact Hlo. }
  assert (E1 : a - vHalf = (n - 2 ^ 52) * P) by (rewrite Hn, Hh; lia).
  rewrite E1. unfold P at 1. rewrite R_exact; [|lia | unfold Kmin; lia]. fold P.
  assert (E2 : 2 * ((n - 2 ^ 52) * P) = (n - 2 ^ 52) * 2 ^ (bias - 52)).
  { replace (bias - 52) with (1 + (bias - 53)) by lia.
    rewrite Z.pow_add_r by (unfold bias; lia). fold P. change (2 ^ 1) with 2. lia. }
  rewrite E2, R_exact; [|lia | unfold Kmin; lia].
  rewrite <- E2, <- E1. lia.
Qed.

Lemma LO_exact x a : represents x a -> 2 ^ (bias - 2) <= a <= vHalf -> LO a = vOne - 2 * a.
Proof.
  intros Hx [Hlo Hhi]. pose proof vOne_double as Hd. unfold LO.
  destruct (Z.leb_spec vHalf a) as [Hle|Hgt]; [lia|].
  destruct (represents_multiple x a 1 Hx) as (n & Hn & Hn0);
    [lia | replace (bias - 1 - 1) with (bias - 2) by lia; exact Hlo|].
  replace (bias - 53 - 1) with (bias - 54) in Hn by lia.
  set (P := 2 ^ (bias - 54)) in *.
  assert (HP : 0 < P) by (apply Z.pow_pos_nonneg; unfold bias; lia).
  assert (Hh : vHalf = 2 ^ 53 * P).
  { unfold vHalf, P. rewrite <- Z.pow_add_r by (unfold bias; lia). f_equal; lia. }
  assert (Hq : 2 ^ (bias - 2) = 2 ^ 52 * P).
  { unfold P. rewrite <- Z.pow_add_r by (unfold bias; lia). f_equal; lia. }
  assert (Hn2 : 2 ^ 52 <= n).
  { apply (Z.mul_le_mono_pos_r _ _ P HP). rewrite <- Hn, <- Hq. exact Hlo. }
  assert (Hn1 : n < 2 ^ 53).
  { apply (Z.mul_lt_mono_pos_r P _ _ HP). rewrite <- Hn, <- Hh. exact Hgt. }
  assert (E1 : vHalf - a = (2 ^ 53 - n) * P) by (rewrite Hn, Hh; lia).
  rewrite E1. unfold P at 1. rewrite R_exact; [|lia | unfold Kmin; lia]. fold P.
  assert (E2 : 2 * ((2 ^ 53 - n) * P) = (2 ^ 53 - n) * 2 ^ (bias - 53)).
  { replace (bias - 53) with (1 + (bias - 54)) by lia.
    rewrite Z.pow_add_r by (unfold bias; lia). fold P. change (2 ^ 1) with 2. lia. }
  rewrite E2, R_exact; [|lia | unfold Kmin; lia].
  rewrite <- E2, <- E1. lia.
Qed.

(** X15: on the middle of the range the encoding loses nothing to
    rounding: for a double c in [0.5, 1] the + half is 2c - 1 exactly, and
    for a double c in [0.25, 0.5] the - half is 1 - 2c exactly.  Values
    are given as scaled integers, a = c * 2^bias. *)
Theorem axis_halves_exact (c : double) (a : Z) :
  represents (Prim2SF c) a ->
  (vHalf <= a <= vOne -> represents (Prim2SF (axis_hi c)) (2 * a - vOne))
  /\ (2 ^ (bias - 2) <= a <= vHalf -> represents (Prim2SF (axis_lo c)) (vOne - 2 * a)).
Proof.
  intros Ha. pose proof vOne_double as Hd. pose proof vHalf_pos as Hh. split; intros Hr.
  - rewrite <- (HI_exact _ a Ha Hr). apply axis_hi_represents; [exact Ha | lia].
  - rewrite <- (LO_exact _ a Ha Hr). apply axis_lo_represents; [exact Ha | lia].
Qed.

Lemma axis_halves_exact_witness :
  represents (Prim2SF 0.75) (3 * 2 ^ (bias - 2))
  /\ represents (Prim2SF (axis_hi 0.75)) (2 * (3 * 2 ^ (bias - 2)) - vOne).
Proof.
  assert (H : represents (Prim2SF 0.75) (3 * 2 ^ (bias - 2))).
  { split; [reflexivity|]. vm_compute. reflexivity. }
  split; [exact H|].
  apply (proj1 (axis_halves_exact 0.75 (3 * 2 ^ (bias - 2)) H)).
  vm_compute. split; discriminate.
Defined.

(** X16: the + half tells apart any two values of the upper half of the
    range, and keeps their order: for doubles c1 and c2 in [0.5, 1] it is
    smaller for c1 than for c2 exactly when c1 is smaller than c2. *)
Theorem upper_half_keeps_order (c1 c2 : double) :
  in_unit c1 = true -> in_unit c2 = true ->
  (0.5 <=? c1)%float = true -> (0.5 <=? c2)%float = true ->
  (axis_hi c1 <? axis_hi c2)%float = (c1 <? c2)%float.
Proof.
  intros U1 U2 L1 L2.
  destruct (in_unit_represented c1 U1) as (a1 & Ha1 & _ & Hle1).
  destruct (in_unit_represented c2 U2) as (a2 & Ha2 & _ & Hle2).
  assert (Hh : represents (Prim2SF 0.5) vHalf) by (rewrite Prim2SF_half; apply half_represents).
  rewrite (leb_represents 0.5 c1 vHalf a1 Hh Ha1) in L1. apply Z.leb_le in L1.
  rewrite (leb_represents 0.5 c2 vHalf a2 Hh Ha2) in L2. apply Z.leb_le in L2.
  rewrite (ltb_represents _ _ _ _ (axis_hi_represents c1 a1 Ha1 Hle1)
             (axis_hi_represents c2 a2 Ha2 Hle2)).
  rewrite (ltb_represents c1 c2 a1 a2 Ha1 Ha2).
  rewrite (HI_exact _ a1 Ha1), (HI_exact _ a2 Ha2) by lia.
  destruct (Z.ltb_spec a1 a2); [apply Z.ltb_lt | apply Z.ltb_ge]; lia.
Qed.

Lemma upper_half_keeps_order_witness :
  (axis_hi 0.625 <? axis_hi 0.75)%float = (0.625 <? 0.75)%float.
Proof. apply (upper_half_keeps_order 0.625 0.75); reflexivity. Defined.

End Magnitudes.

(** * Finding the devices *)

Section DiscoveryLoop.

Import Discovery.

Variable dir_path : string.
Variable Exists : string -> bool.
Variable ScanDirectoryTree : string -> bool -> FSTEntry.
Variable open : string -> Z.
Variable read_port : string -> Z.
Variable Registry : Type.
Variable AddDevice : Registry -> Opened -> Registry.
Variable initial_state : ControlState.

Lemma add_children_found zmq (fst : FSTEntry) todo : forall i reg,
  (i + todo <= length (children fst))%nat ->
  add_children open read_port Registry AddDevice initial_state zmq todo i fst reg
  = Some (fold_left AddDevice
            (omap (device_of open read_port initial_state zmq)
                  (firstn todo (skipn i (children fst)))) reg).
Proof.
  induction todo as [|todo IH]; intros i reg Hlen; [reflexivity|].
  cbn [add_children].
  destruct (nth_error (children fst) i) as [child|] eqn:Hnth.
  2:{ apply nth_error_None in Hnth. lia. }
  assert (Hskip : skipn i (children fst) = child :: skipn (S i) (children fst)).
  { clear -Hnth. revert i Hnth. induction (children fst) as [|c l IHl]; intros [|i] H;
      try discriminate.
    - now injection H as ->.
    - cbn [skipn]. now apply IHl. }
  rewrite Hskip. cbn [firstn].
  set (f := device_of open read_port initial_state zmq) in *.
  assert (Hom : forall l, omap f (child :: l)
                          = match f child with Some d => d :: omap f l | None => omap f l end)
    by reflexivity.
  rewrite Hom. unfold f at 1, device_of.
  destruct (isDirectory child); [apply IH; lia|].
  destruct zmq; [cbn [fold_left]; apply IH; lia|].
  destruct (open (physicalName child) <? 0)%Z; [apply IH; lia|].
  cbn [fold_left]. apply IH. lia.
Qed.

(** X17: [PopulateDevices] registers nothing when the pipes directory
    does not exist or is not a directory.  Otherwise, when [size] does
    not exceed the number of children, it registers one device for each
    of the first [size] children that is not a directory and, in the
    named-pipe build, can be opened; it does so in the order of the
    directory, each device named by the virtual name of its file. *)
Theorem PopulateDevices_registers_files (zmq : bool) (reg : Registry) :
  let fst := ScanDirectoryTree dir_path false in
  let populate :=
    PopulateDevices dir_path Exists ScanDirectoryTree open read_port Registry AddDevice
      initial_state zmq reg in
  (Exists dir_path = false \/ isDirectory fst = false -> populate = Some reg)
  /\ (Exists dir_path = true -> isDirectory fst = true ->
      (size fst <= length (children fst))%nat ->
      populate =
      Some (fold_left AddDevice
              (omap (device_of open read_port initial_state zmq)
                    (firstn (size fst) (children fst))) reg)).
Proof.
  cbv zeta. unfold PopulateDevices. split.
  - intros [-> | H]; [reflexivity|]. destruct (Exists dir_path); [|reflexivity].
    now rewrite H.
  - intros -> -> Hsize. cbn [negb]. now rewrite add_children_found by lia.
Qed.

End DiscoveryLoop.

Lemma PopulateDevices_registers_files_witness :
  let file name := Discovery.Build_FSTEntry false 0 ("/pipes/" ++ name) name [] in
  let dir := Discovery.Build_FSTEntry true 0 "/pipes/sub" "sub" [] in
  let root := Discovery.Build_FSTEntry true 3 "/pipes" "pipes" [file "p1"; dir; file "p2"] in
  let open path := if String.eqb path "/pipes/p2" then (-1)%Z else 3%Z in
  Discovery.PopulateDevices "/pipes" (fun _ => true) (fun _ _ => root) open (fun _ => 0%Z)
    (list string) (fun reg d => (reg ++ [Discovery.m_name d])%list) 0%float false []
  = Some ["p1"].
Proof.
  intros file dir root open.
  exact (proj2 (PopulateDevices_registers_files "/pipes" (fun _ => true) (fun _ _ => root)
                  open (fun _ => 0%Z) (list string)
                  (fun reg d => (reg ++ [Discovery.m_name d])%list) 0%float false [])
           eq_refl eq_refl (le_n 3)).
Defined.

(** * The mapping of a SET line with one value *)

Section OneValue.

Local Open Scope Z_scope.

(** ** Rounding keeps the sign *)

Lemma shr_1_nonneg mrs : 0 <= shr_m mrs -> 0 <= shr_m (shr_1 mrs).
Proof. destruct mrs as [[|[p|p|]|p] r s]; cbn; lia. Qed.

Lemma shr_nonneg mrs e n : 0 <= shr_m mrs -> 0 <= shr_m (fst (shr mrs e n)).
Proof.
  intros H. destruct n as [|p|p]; cbn [shr fst]; try assumption.
  rewrite iter_pos_nat. induction (Pos.to_nat p) as [|k IH]; cbn [Nat.iter]; [assumption|].
  now apply shr_1_nonneg.
Qed.

Lemma round_nearest_even_nonneg m l : 0 <= m -> 0 <= round_nearest_even m l.
Proof. intros H. destruct l as [|[]]; cbn; try lia. destruct (Z.even m); lia. Qed.

Lemma shr_record_of_loc_m m l : shr_m (shr_record_of_loc m l) = m.
Proof. destruct l as [|[]]; reflexivity. Qed.

Lemma binary_round_aux_sign s mx ex lx :
  0 <= mx -> sign_in s (binary_round_aux prec emax s mx ex lx) = true.
Proof.
  intros Hmx. unfold binary_round_aux, shr_fexp.
  set (n1 := fexp prec emax (Zdigits2 mx + ex) - ex).
  pose proof (shr_nonneg (shr_record_of_loc mx lx) ex n1) as H1.
  rewrite shr_record_of_loc_m in H1. specialize (H1 Hmx).
  destruct (shr (shr_record_of_loc mx lx) ex n1) as [mrs' e']. cbn [fst] in H1.
  pose proof (round_nearest_even_nonneg _ (loc_of_shr_record mrs') H1) as H2.
  set (m1 := round_nearest_even (shr_m mrs') (loc_of_shr_record mrs')) in *.
  set (n2 := fexp prec emax (Zdigits2 m1 + e') - e').
  pose proof (shr_nonneg (shr_record_of_loc m1 loc_Exact) e' n2 H2) as H3.
  destruct (shr (shr_record_of_loc m1 loc_Exact) e' n2) as [mrs'' e'']. cbn [fst] in H3.
  destruct (shr_m mrs'') as [|p|p]; [reflexivity | | lia].
  destruct (e'' <=? emax - prec); cbn [sign_in]; apply Bool.eqb_reflx.
Qed.

Lemma binary_normalize_sign D e :
  sign_in (D <? 0) (binary_normalize prec emax D e false) = true.
Proof.
  destruct D as [|p|p]; [reflexivity| |]; cbn [binary_normalize]; unfold binary_round;
    destruct (shl_align p e _) as [mz ez]; apply binary_round_aux_sign; lia.
Qed.

(** Halving keeps the sign. *)
Lemma SFdiv_two_sign s x :
  sign_in s x = true ->
  sign_in s (SF64div x (S754_finite false 4503599627370496 (-51))) = true.
Proof.
  destruct x as [s'|s'| |s' m e]; cbn [sign_in]; intros H; try discriminate.
  - reflexivity.
  - cbn [SF64div SFdiv sign_in]. now rewrite xorb_false_r.
  - unfold SF64div, SFdiv. rewrite xorb_false_r.
    apply Bool.eqb_prop in H. subst s'.
    unfold SFdiv_core_binary.
    set (m' := match _ with 0 => Z.pos m | Z.pos _ => _ | Z.neg _ => 0 end).
    assert (Hm' : 0 <= m').
    { subst m'. destruct (_ - _ - _) as [|p|p]; [lia | | lia].
      apply Z.shiftl_nonneg. lia. }
    pose proof (Z.div_pos m' 4503599627370496 Hm' ltac:(lia)) as Hq.
    unfold Z.div in Hq.
    destruct (Z.div_eucl m' 4503599627370496) as [q r].
    now apply binary_round_aux_sign.
Qed.

(** ** Sums with one half *)

Lemma binary_round_aux_any (m : positive) e :
  - bias <= e ->
  e <= fexp prec emax (Z.pos (digits2_pos m) + e) ->
  binary_round_aux prec emax false (Z.pos m) e loc_Exact = S754_infinity false
  \/ represents (binary_round_aux prec emax false (Z.pos m) e loc_Exact)
                (R (Z.pos m * 2 ^ (e + bias))).
Proof.
  intros Hb Hal.
  pose proof (digits2_pos_bounds m) as Hd.
  set (d := Z.pos (digits2_pos m)) in *.
  assert (Hd1 : 1 <= d) by (subst d; lia).
  set (E := fexp prec emax (d + e)) in *.
  assert (HE : E = Z.max (d + e - 53) (-1074)) by apply fexp_eq.
  set (n := E - e).
  assert (Hn : 0 <= n) by (subst n; lia).
  assert (Hbias : bias = 1200) by reflexivity.
  assert (HEb : 0 <= E + bias) by lia.
  assert (HR : R (Z.pos m * 2 ^ (e + bias)) = rne (Z.pos m) n * 2 ^ (E + bias)).
  { unfold R. rewrite grid_scaled by assumption. fold d. fold E.
    replace (E + bias) with (n + (e + bias)) by (subst n; lia).
    rewrite rne_scale by lia. reflexivity. }
  assert (Pn : 0 < 2 ^ n) by (apply Z.pow_pos_nonneg; lia).
  pose proof (rne_bounds (Z.pos m) n Hn) as Hq.
  assert (Hq0 : 0 <= Z.pos m / 2 ^ n) by (apply Z.div_pos; lia).
  assert (Hqu : Z.pos m / 2 ^ n < 2 ^ 53).
  { apply Z.div_lt_upper_bound; [lia|].
    rewrite <- Z.pow_add_r by lia.
    eapply Z.lt_le_trans; [apply Hd|]. apply Z.pow_le_mono_r; subst n; lia. }
  assert (Hql : -1074 < E -> 2 ^ 52 <= Z.pos m / 2 ^ n).
  { intros HE'. apply Z.div_le_lower_bound; [lia|].
    rewrite <- Z.pow_add_r by lia.
    eapply Z.le_trans; [|apply Hd]. apply Z.pow_le_mono_r; subst n; lia. }
  rewrite binary_round_aux_unfold. cbv zeta.
  change (Zdigits2 (Z.pos m)) with d. fold E. fold n.
  destruct (shr_round (Z.pos m) e n ltac:(lia) Hn) as [Hm1 He1].
  cbv zeta in Hm1. rewrite Hm1, He1.
  replace (e + n) with E by (subst n; lia).
  rewrite HR. clear HR Hm1 He1.
  set (m1 := rne (Z.pos m) n) in *.
  change (2 ^ 53) with 9007199254740992 in Hqu.
  change (2 ^ 52) with 4503599627370496 in Hql.
  destruct m1 as [|p1|p1] eqn:Em1; [| |lia].
  - rewrite shr_nonpos by (cbn [Zdigits2]; rewrite fexp_eq; lia).
    cbn [fst shr_m]. right. simpl. reflexivity.
  - pose proof (digits2_pos_bounds p1) as Hd'.
    set (d1 := Z.pos (digits2_pos p1)) in *.
    change (Zdigits2 (Z.pos p1)) with d1.
    destruct (Z.le_gt_cases d1 53) as [Hle|Hgt].
    + rewrite shr_nonpos by (rewrite fexp_eq; lia).
      cbn [fst snd shr_m].
      destruct (Z.leb_spec E (emax - prec)) as [Hfit|Hbig]; [right | now left].
      cbn [represents]. split; [|reflexivity].
      unfold bounded, canonical_mantissa. fold d1. rewrite fexp_eq.
      apply andb_true_iff. split; [apply Z.eqb_eq|apply Z.leb_le; exact Hfit].
      destruct (Z.eq_dec E (-1074)) as [->|HEne]; [lia|].
      assert (Hp52 : 4503599627370496 <= Z.pos p1) by lia.
      assert (H53 : 52 < d1).
      { apply (Z.pow_lt_mono_r_iff 2); [lia|lia|].
        change (2 ^ 52) with 4503599627370496. lia. }
      lia.
    + assert (Hp53 : 2 ^ 53 <= Z.pos p1).
      { eapply Z.le_trans; [|apply Hd']. apply Z.pow_le_mono_r; lia. }
      change (2 ^ 53) with 9007199254740992 in Hp53.
      assert (Ep1 : p1 = 9007199254740992%positive) by (apply Pos2Z.inj; lia).
      clear Hd' Hp53 Hq Hql Hqu. subst p1.
      assert (Ed1 : d1 = 54) by reflexivity.
      rewrite Ed1, fexp_eq.
      replace (Z.max (54 + E - 53) (-1074) - E) with 1 by lia.
      change (shr {| shr_m := 9007199254740992; shr_r := false; shr_s := false |} E 1)
        with ({| shr_m := 4503599627370496; shr_r := false; shr_s := false |}, E + 1).
      cbn [fst snd shr_m].
      destruct (Z.leb_spec (E + 1) (emax - prec)) as [Hfit|Hbig]; [right | now left].
      cbn [represents]. split.
      * unfold bounded, canonical_mantissa.
        change (Z.pos (digits2_pos 4503599627370496)) with 53. rewrite fexp_eq.
        apply andb_true_iff. split; [apply Z.eqb_eq|apply Z.leb_le; exact Hfit]; lia.
      * replace (E + 1 + bias) with (1 + (E + bias)) by lia.
        rewrite (Z.pow_add_r 2 1 (E + bias)) by lia. change (2 ^ 1) with 2. lia.
Qed.

Lemma binary_round_any (m : positive) e :
  - bias <= e ->
  binary_round prec emax false m e = S754_infinity false
  \/ represents (binary_round prec emax false m e) (R (Z.pos m * 2 ^ (e + bias))).
Proof.
  intros Hb. unfold binary_round.
  set (E := fexp prec emax (Z.pos (digits2_pos m) + e)).
  assert (HE : E = Z.max (Z.pos (digits2_pos m) + e - 53) (-1074)) by apply fexp_eq.
  assert (Hbias : bias = 1200) by reflexivity.
  destruct (shl_align_spec m e E) as [He Hm].
  destruct (shl_align m e E) as [mz ez]. cbn [fst snd] in He, Hm.
  assert (Hd : Z.pos (digits2_pos mz) + ez = Z.pos (digits2_pos m) + e).
  { rewrite !digits2_pos_log2, Hm, <- He, Z.log2_mul_pow2 by lia. lia. }
  assert (Hv : Z.pos mz * 2 ^ (ez + bias) = Z.pos m * 2 ^ (e + bias)).
  { rewrite Hm, <- He, <- Z.mul_assoc, <- Z.pow_add_r by lia. do 2 f_equal; lia. }
  rewrite <- Hv. apply binary_round_aux_any.
  - lia.
  - rewrite Hd. fold E. lia.
Qed.

(** The sum of a positive double and one half, before it is rounded. *)
Lemma SFadd_half_sum m e :
  bounded prec emax m e = true ->
  exists p ez,
    SF64add (S754_finite false m e) (S754_finite false 4503599627370496 (-53))
    = binary_round prec emax false p ez
    /\ Z.pos p * 2 ^ (ez + bias) = Z.pos m * 2 ^ (e + bias) + vHalf
    /\ - bias <= ez.
Proof.
  intros Hv. assert (Hbias : bias = 1200) by reflexivity.
  pose proof (bounded_facts m e Hv) as (He & _).
  unfold SF64add, SFadd. cbn [cond_Zopp].
  set (ez := Z.min e (-53)).
  destruct (shl_align_spec m e ez) as [_ Hmx].
  destruct (shl_align_spec 4503599627370496 (-53) ez) as [_ Hmy].
  replace (Z.min e ez) with ez in Hmx by lia.
  replace (Z.min (-53) ez) with ez in Hmy by lia.
  set (D := Z.pos (fst (shl_align m e ez))
            + Z.pos (fst (shl_align 4503599627370496 (-53) ez))).
  assert (HD : D * 2 ^ (ez + bias) = Z.pos m * 2 ^ (e + bias) + vHalf).
  { subst D. rewrite Hmx, Hmy, Z.mul_add_distr_r, <- !Z.mul_assoc, <- !Z.pow_add_r by lia.
    replace (e - ez + (ez + bias)) with (e + bias) by lia.
    replace (-53 - ez + (ez + bias)) with (-53 + bias) by lia.
    assert (Eh : 4503599627370496 * 2 ^ (-53 + bias) = vHalf).
    { unfold vHalf. change 4503599627370496 with (2 ^ 52).
      rewrite <- Z.pow_add_r by lia. f_equal; lia. }
    rewrite Eh. reflexivity. }
  assert (HDpos : 0 < D) by (subst D; lia).
  clearbody D. clear Hmx Hmy.
  destruct D as [|p|p]; try lia.
  exists p, ez. cbn [binary_normalize]. repeat split; [exact HD | lia].
Qed.

(** The sum of a double that is not negative and one half. *)
Lemma SFadd_half_spec x a :
  represents x a ->
  SF64add x (S754_finite false 4503599627370496 (-53)) = S754_infinity false
  \/ represents (SF64add x (S754_finite false 4503599627370496 (-53))) (R (a + vHalf)).
Proof.
  intros Hx.
  destruct x as [s|s| |[] m e]; cbn [represents] in Hx; try contradiction.
  - right. subst a. rewrite Z.add_0_l. unfold vHalf at 1. rewrite R_pow2 by apply bias_Kmin.
    apply half_represents.
  - destruct Hx as [Hv ->].
    destruct (SFadd_half_sum m e Hv) as (p & ez & -> & <- & Hez).
    now apply binary_round_any.
Qed.

(** The same, for a double that is not large. *)
Lemma SFadd_half_exact x a :
  represents x a -> a < 2 ^ (bias + 999) ->
  represents (SF64add x (S754_finite false 4503599627370496 (-53))) (R (a + vHalf)).
Proof.
  intros Hx Hlt.
  destruct x as [s|s| |[] m e]; cbn [represents] in Hx; try contradiction.
  - subst a. rewrite Z.add_0_l. unfold vHalf at 1. rewrite R_pow2 by apply bias_Kmin.
    apply half_represents.
  - destruct Hx as [Hv ->].
    destruct (SFadd_half_sum m e Hv) as (p & ez & -> & HD & Hez).
    rewrite <- HD. apply binary_round_spec; [exact Hez|]. rewrite HD.
    assert (E : 2 ^ (bias + 1000) = 2 * 2 ^ (bias + 999)).
    { replace (bias + 1000) with (1 + (bias + 999)) by lia.
      rewrite (Z.pow_add_r 2 1) by (unfold bias; lia). reflexivity. }
    assert (vHalf < 2 ^ (bias + 999))
      by (unfold vHalf; apply Z.pow_lt_mono_r; unfold bias; lia).
    lia.
Qed.

Lemma sign_in_false_represents x :
  sign_in false x = true -> valid_binary x = true ->
  x = S754_infinity false \/ exists a, represents x a.
Proof.
  intros Hs Hv. destruct x as [s|s| |s m e]; cbn [sign_in] in Hs; try discriminate.
  - right. exists 0. apply zero_represents.
  - apply Bool.eqb_prop in Hs. subst s. now left.
  - apply Bool.eqb_prop in Hs. subst s. right. eexists. split; [exact Hv | reflexivity].
Qed.

Lemma SFadd_half_nonneg x :
  sign_in false x = true -> valid_binary x = true ->
  SF64add x (S754_finite false 4503599627370496 (-53)) = S754_infinity false
  \/ exists b, represents (SF64add x (S754_finite false 4503599627370496 (-53))) b
               /\ vHalf <= b.
Proof.
  intros Hs Hv. destruct (sign_in_false_represents x Hs Hv) as [->|[a Ha]]; [now left|].
  destruct (SFadd_half_spec x a Ha) as [Hinf|Hrep]; [now left|right].
  eexists. split; [exact Hrep|].
  pose proof (represents_nonneg _ _ Ha). pose proof vHalf_pos.
  unfold vHalf at 1. rewrite <- (R_pow2 (bias - 1)) by apply bias_Kmin.
  apply R_mono0; [apply Z.pow_nonneg; lia | fold vHalf; lia].
Qed.

(** The sum of a negative double and one half. *)
Lemma SFadd_half_minus m e :
  bounded prec emax m e = true ->
  let a := Z.pos m * 2 ^ (e + bias) in
  let r := SF64add (S754_finite true m e) (S754_finite false 4503599627370496 (-53)) in
  (a < vHalf -> represents r (R (vHalf - a)))
  /\ (vHalf <= a -> SFltb r (S754_zero false) = true \/ represents r 0).
Proof.
  intros Hv a r. assert (Hbias : bias = 1200) by reflexivity.
  pose proof (bounded_facts m e Hv) as (He & _).
  subst r. unfold SF64add, SFadd. cbn [cond_Zopp].
  set (ez := Z.min e (-53)).
  destruct (shl_align_spec m e ez) as [_ Hmx].
  destruct (shl_align_spec 4503599627370496 (-53) ez) as [_ Hmy].
  replace (Z.min e ez) with ez in Hmx by lia.
  replace (Z.min (-53) ez) with ez in Hmy by lia.
  set (D := - Z.pos (fst (shl_align m e ez))
            + Z.pos (fst (shl_align 4503599627370496 (-53) ez))).
  assert (HD : D * 2 ^ (ez + bias) = vHalf - a).
  { subst D a. rewrite Hmx, Hmy, Z.mul_add_distr_r, Z.mul_opp_l,
      <- !Z.mul_assoc, <- !Z.pow_add_r by lia.
    replace (e - ez + (ez + bias)) with (e + bias) by lia.
    replace (-53 - ez + (ez + bias)) with (-53 + bias) by lia.
    assert (Eh : 4503599627370496 * 2 ^ (-53 + bias) = vHalf).
    { unfold vHalf. change 4503599627370496 with (2 ^ 52).
      rewrite <- Z.pow_add_r by lia. f_equal; lia. }
    rewrite Eh. lia. }
  assert (Hpos : 0 < a)
    by (apply Z.mul_pos_pos; [lia | apply Z.pow_pos_nonneg; lia]).
  assert (P : 0 < 2 ^ (ez + bias)) by (apply Z.pow_pos_nonneg; lia).
  clearbody D a. clear Hmx Hmy.
  pose proof (binary_normalize_sign D ez) as Hsign.
  destruct D as [|p|p].
  - split; intros Ha; [lia|]. right. apply zero_represents.
  - split; intros Ha; [|lia]. cbn [binary_normalize]. rewrite <- HD.
    apply binary_round_spec; [lia|]. rewrite HD.
    pose proof one_below_bound. pose proof vOne_double. lia.
  - split; intros Ha; [lia|].
    change (Z.neg p <? 0) with true in Hsign.
    destruct (binary_normalize prec emax (Z.neg p) ez false) as [s|s| |s m' e'];
      cbn [sign_in] in Hsign; try discriminate.
    + right. apply zero_represents.
    + apply Bool.eqb_prop in Hsign. subst s. now left.
    + apply Bool.eqb_prop in Hsign. subst s. now left.
Qed.

(** The sum of a double that is not positive and one half. *)
Lemma SFadd_half_nonpos x :
  sign_in true x = true -> valid_binary x = true ->
  SFltb (SF64add x (S754_finite false 4503599627370496 (-53))) (S754_zero false) = true
  \/ exists b, represents (SF64add x (S754_finite false 4503599627370496 (-53))) b
               /\ b <= vHalf.
Proof.
  intros Hs Hv. pose proof vHalf_pos as Hh.
  destruct x as [s|s| |s m e]; cbn [sign_in] in Hs; try discriminate.
  - right. exists vHalf. split; [apply half_represents | lia].
  - apply Bool.eqb_prop in Hs. subst s. now left.
  - apply Bool.eqb_prop in Hs. subst s. cbn [SpecFloat.valid_binary] in Hv.
    destruct (SFadd_half_minus m e Hv) as [Hlow Hhigh].
    pose proof (bounded_facts m e Hv) as (He & _).
    destruct (Z.lt_ge_cases (Z.pos m * 2 ^ (e + bias)) vHalf) as [Hlt|Hge].
    + right. eexists. split; [exact (Hlow Hlt)|].
      assert (0 < Z.pos m * 2 ^ (e + bias))
        by (apply Z.mul_pos_pos; [lia | apply Z.pow_pos_nonneg; unfold bias; lia]).
      apply R_le_pow2_0; [lia | apply bias_Kmin | fold vHalf; lia].
    + destruct (Hhigh Hge) as [Hneg|Hz]; [now left|].
      right. exists 0. split; [exact Hz | lia].
Qed.

(** ** The halves of an axis on either side of one half *)

Lemma axis_lo_high (c : float) a :
  represents (Prim2SF c) a -> vHalf <= a -> axis_lo c = 0%float.
Proof.
  intros Hc Hle. unfold axis_lo, std_min.
  rewrite (ltb_represents c 0.5 a vHalf Hc) by (rewrite Prim2SF_half; apply half_represents).
  replace (a <? vHalf) with false by (symmetry; apply Z.ltb_ge; exact Hle).
  reflexivity.
Qed.

Lemma axis_hi_low (c : float) a :
  represents (Prim2SF c) a -> a <= vHalf -> axis_hi c = 0%float.
Proof.
  intros Hc Hle.
  assert (Hnp : (0 <? c - 0.5)%float = false).
  { destruct (Z.eq_dec a vHalf) as [->|Hne].
    - rewrite ltb_spec, sub_spec, Prim2SF_zero, Prim2SF_half.
      now rewrite (represents_eq_half _ Hc).
    - apply sub_half_not_positive.
      rewrite (ltb_represents c 0.5 a vHalf Hc); [apply Z.ltb_lt; lia|].
      rewrite Prim2SF_half. apply half_represents. }
  unfold axis_hi, std_max. rewrite Hnp. reflexivity.
Qed.

Lemma leb_zero_sign (v : float) : (0 <=? v)%float = true -> sign_in false (Prim2SF v) = true.
Proof.
  rewrite leb_spec, Prim2SF_zero. unfold SFleb.
  destruct (Prim2SF v) as [s|[]| |[] m e]; cbn; try reflexivity; discriminate.
Qed.

Lemma leb_sign_zero (v : float) : (v <=? 0)%float = true -> sign_in true (Prim2SF v) = true.
Proof.
  rewrite leb_spec, Prim2SF_zero. unfold SFleb.
  destruct (Prim2SF v) as [s|[]| |[] m e]; cbn; try reflexivity; discriminate.
Qed.

Lemma Clamp_represents (c0 : float) b :
  represents (Prim2SF c0) b ->
  exists b', represents (Prim2SF (Clamp c0 0 1)) b' /\ b' <= vOne
             /\ (vHalf <= b -> vHalf <= b') /\ (b <= vHalf -> b' <= vHalf).
Proof.
  intros Hb. pose proof (represents_nonneg _ _ Hb) as Hb0.
  pose proof vHalf_pos as Hh. pose proof vOne_double as Hd.
  assert (H1 : represents (Prim2SF 1) vOne) by (rewrite Prim2SF_one; apply one_represents).
  assert (H0 : represents (Prim2SF 0) 0) by (rewrite Prim2SF_zero; apply zero_represents).
  unfold Clamp, std_min. rewrite (ltb_represents c0 1 b vOne Hb H1).
  destruct (Z.ltb_spec b vOne) as [Hlt|Hge].
  - unfold std_max. rewrite (ltb_represents 0 c0 0 b H0 Hb).
    destruct (Z.ltb_spec 0 b) as [Hp|Hz].
    + exists b. repeat split; auto; lia.
    + exists 0. repeat split; auto; lia.
  - exists vOne. unfold std_max.
    rewrite (ltb_represents 0 1 0 vOne H0 H1).
    replace (0 <? vOne) with true by (symmetry; apply Z.ltb_lt; lia).
    repeat split; auto; lia.
Qed.

Lemma one_value_side (v : double) :
  ((0 <=? v)%float = true -> axis_lo (Clamp (v / 2.0 + 0.5) 0.0 1.0) = 0%float)
  /\ ((v <=? 0)%float = true -> axis_hi (Clamp (v / 2.0 + 0.5) 0.0 1.0) = 0%float).
Proof.
  split; intros Hv.
  - pose proof (SFdiv_two_sign false _ (leb_zero_sign v Hv)) as Hq.
    rewrite <- Prim2SF_two, <- div_spec in Hq.
    destruct (SFadd_half_nonneg _ Hq (Prim2SF_valid _)) as [Hinf|(b & Hb & Hle)];
      rewrite <- Prim2SF_half, <- add_spec in *.
    + rewrite Clamp_above; [reflexivity|].
      rewrite ltb_spec, Hinf, Prim2SF_one. reflexivity.
    + destruct (Clamp_represents _ b Hb) as (b' & Hb' & _ & Hhigh & _).
      apply (axis_lo_high _ b' Hb'). auto.
  - pose proof (SFdiv_two_sign true _ (leb_sign_zero v Hv)) as Hq.
    rewrite <- Prim2SF_two, <- div_spec in Hq.
    destruct (SFadd_half_nonpos _ Hq (Prim2SF_valid _)) as [Hneg|(b & Hb & Hle)];
      rewrite <- Prim2SF_half, <- add_spec in *.
    + rewrite Clamp_below; [reflexivity|].
      rewrite ltb_spec, Prim2SF_zero. exact Hneg.
    + destruct (Clamp_represents _ b Hb) as (b' & Hb' & _ & _ & Hlow).
      apply (axis_hi_low _ b' Hb'). auto.
Qed.

(** X18: a SET line with one value never moves an axis to the wrong
    side.  The value v that is read is mapped to v / 2 + 0.5; when v is
    not negative (an infinity included) the line sets the - half of the
    axis to 0, and when v is not positive it sets the + half to 0, each
    when the half exists. *)
Theorem one_value_keeps_side (dev : PipeDevice) (tokens : list string) :
  length tokens = 3%nat -> token tokens 0 = "SET" ->
  let v := StringToDouble (token tokens 2) in
  let dev' := ParseTokens dev tokens in
  ((0 <=? v)%float = true ->
   axis_state dev' (token tokens 1 ++ " -")
   = (fun _ => 0%float) <$> axis_state dev (token tokens 1 ++ " -"))
  /\ ((v <=? 0)%float = true ->
      axis_state dev' (token tokens 1 ++ " +")
      = (fun _ => 0%float) <$> axis_state dev (token tokens 1 ++ " +")).
Proof.
  intros Hlen Hset. cbv zeta. rewrite ParseTokens_SET3 by assumption.
  destruct (one_value_side (StringToDouble (token tokens 2))) as [Hlo Hhi].
  split; intros Hv.
  - rewrite SetAxis_lookup_lo, Hlo by exact Hv. reflexivity.
  - rewrite SetAxis_lookup_hi, Hhi by exact Hv. reflexivity.
Qed.

Lemma one_value_keeps_side_witness :
  axis_state (ParseTokens (new_PipeDevice 0) ["SET"; "L"; "0.25"]) "L -" = Some 0%float.
Proof.
  exact (proj1 (one_value_keeps_side (new_PipeDevice 0) ["SET"; "L"; "0.25"]
                  eq_refl eq_refl) eq_refl).
Defined.


(** ** Halving *)

Lemma div_eucl_pair a b : Z.div_eucl a b = (a / b, a mod b).
Proof. unfold Z.div, Z.modulo. now destruct (Z.div_eucl a b). Qed.

Lemma normal_digits m e :
  bounded prec emax m e = true -> -1074 < e -> Z.pos (digits2_pos m) = 53.
Proof.
  intros Hb He. destruct (bounded_facts m e Hb) as (_ & _ & _ & Hf).
  rewrite fexp_eq in Hf. lia.
Qed.

Lemma binary_round_aux_fits s m e :
  Z.pos (digits2_pos m) <= 53 -> e = -1074 \/ Z.pos (digits2_pos m) = 53 ->
  -1074 <= e <= 971 ->
  binary_round_aux prec emax s (Z.pos m) e loc_Exact = S754_finite s m e.
Proof.
  intros Hd Hc He. rewrite binary_round_aux_unfold. cbv zeta. cbn [Zdigits2].
  rewrite (shr_nonpos _ e) by (rewrite fexp_eq; lia).
  cbn [fst snd shr_m loc_of_shr_record round_nearest_even Zdigits2].
  rewrite (shr_nonpos _ e) by (rewrite fexp_eq; lia).
  cbn [fst snd shr_m].
  replace (e <=? emax - prec) with true by (symmetry; apply Z.leb_le; unfold emax, prec; lia).
  reflexivity.
Qed.

Lemma binary_round_aux_twice s m e :
  Z.pos (digits2_pos m) = 53 -> -1074 <= e + 1 <= 971 ->
  binary_round_aux prec emax s (Z.pos m~0) e loc_Exact = S754_finite s m (e + 1).
Proof.
  intros Hd He. rewrite binary_round_aux_unfold. cbv zeta.
  assert (Hd2 : Zdigits2 (Z.pos m~0) = 54).
  { cbn [Zdigits2 digits2_pos]. rewrite Pos2Z.inj_succ, Hd. reflexivity. }
  rewrite Hd2, fexp_eq.
  replace (Z.max (54 + e - 53) (-1074) - e) with 1 by lia.
  cbn [shr SpecFloat.iter_pos shr_1 fst snd shr_m loc_of_shr_record round_nearest_even
       Zdigits2 orb].
  rewrite Hd.
  rewrite shr_nonpos by (rewrite fexp_eq; lia).
  cbn [fst snd shr_m].
  replace (e + 1 <=? emax - prec) with true
    by (symmetry; apply Z.leb_le; unfold emax, prec; lia).
  reflexivity.
Qed.

(** Halving a normal double lowers its exponent. *)
Lemma SFdiv_two_normal s m e :
  bounded prec emax m e = true -> -1074 < e ->
  SF64div (S754_finite s m e) (S754_finite false 4503599627370496 (-51))
  = S754_finite s m (e - 1).
Proof.
  intros Hb He. pose proof (normal_digits m e Hb He) as Hd.
  destruct (bounded_facts m e Hb) as (Hr & _).
  unfold SF64div, SFdiv, SFdiv_core_binary. rewrite xorb_false_r.
  cbn [Zdigits2]. rewrite Hd.
  change (Z.pos (digits2_pos 4503599627370496)) with 53.
  rewrite fexp_eq.
  set (e' := Z.min (Z.max (53 + e - (53 + -51) - 53) (-1074)) (e - -51)).
  set (k := e - -51 - e').
  destruct (Z.eq_dec e (-1073)) as [E|Hne].
  - assert (He' : e' = e - 1) by (subst e'; lia).
    assert (Hk : k = 52) by (subst k; lia).
    rewrite Hk, He'. rewrite Z.shiftl_mul_pow2 by lia.
    rewrite div_eucl_pair, Z.div_mul, Z.mod_mul by lia.
    change (new_location 4503599627370496 0) with loc_Exact.
    apply binary_round_aux_fits; lia.
  - assert (He' : e' = e - 2) by (subst e'; lia).
    assert (Hk : k = 53) by (subst k; lia).
    rewrite Hk, He'. rewrite Z.shiftl_mul_pow2 by lia.
    change (2 ^ 53) with (2 * 4503599627370496).
    rewrite Z.mul_assoc, div_eucl_pair, Z.div_mul, Z.mod_mul by lia.
    change (new_location 4503599627370496 0) with loc_Exact.
    replace (Z.pos m * 2) with (Z.pos m~0) by lia.
    rewrite binary_round_aux_twice by (auto; lia). f_equal. lia.
Qed.

(** ** Values of magnitude one and more *)

Lemma SFcompare_minus m1 e1 m2 e2 :
  SFcompare (S754_finite true m1 e1) (S754_finite true m2 e2)
  = CompOpp <$> SFcompare (S754_finite false m1 e1) (S754_finite false m2 e2).
Proof. cbn. destruct (e1 ?= e2); reflexivity. Qed.

Lemma above_one_normal m e :
  bounded prec emax m e = true -> vOne <= Z.pos m * 2 ^ (e + bias) -> -1074 < e.
Proof.
  intros Hb Hle. destruct (bounded_facts m e Hb) as (He & Hm & _).
  destruct (Z.eq_dec e (-1074)) as [->|]; [exfalso|lia].
  assert (Z.pos m * 2 ^ (-1074 + bias) < 2 ^ 53 * 2 ^ (-1074 + bias)).
  { apply Z.mul_lt_mono_pos_r; [apply Z.pow_pos_nonneg; unfold bias; lia | exact Hm]. }
  assert (2 ^ 53 * 2 ^ (-1074 + bias) <= vOne).
  { unfold vOne. rewrite <- Z.pow_add_r by (unfold bias; lia).
    apply Z.pow_le_mono_r; unfold bias; lia. }
  lia.
Qed.

Lemma leb_one (v : float) :
  (1 <=? v)%float = true ->
  Prim2SF v = S754_infinity false
  \/ exists m e, Prim2SF v = S754_finite false m e /\ bounded prec emax m e = true
                 /\ vOne <= Z.pos m * 2 ^ (e + bias).
Proof.
  intros H. pose proof (Prim2SF_valid v) as Hv.
  assert (H1 : represents (Prim2SF 1) vOne) by (rewrite Prim2SF_one; apply one_represents).
  pose proof H as H'. rewrite leb_spec, Prim2SF_one in H'. unfold SFleb in H'.
  destruct (Prim2SF v) as [s|[]| |[] m e] eqn:E; cbn in H'; try discriminate.
  - now left.
  - right. exists m, e. repeat split; auto.
    assert (Hr : represents (Prim2SF v) (Z.pos m * 2 ^ (e + bias)))
      by (rewrite E; split; [exact Hv | reflexivity]).
    rewrite (leb_represents 1 v _ _ H1 Hr) in H. now apply Z.leb_le.
Qed.

Lemma Prim2SF_minus_one : Prim2SF (-1) = S754_finite true 4503599627370496 (-52).
Proof. reflexivity. Qed.

Lemma leb_minus_one (v : float) :
  (v <=? -1)%float = true ->
  Prim2SF v = S754_infinity true
  \/ exists m e, Prim2SF v = S754_finite true m e /\ bounded prec emax m e = true
                 /\ vOne <= Z.pos m * 2 ^ (e + bias).
Proof.
  intros H. pose proof (Prim2SF_valid v) as Hv.
  rewrite leb_spec, Prim2SF_minus_one in H. unfold SFleb in H.
  destruct (Prim2SF v) as [s|[]| |[] m e] eqn:E; cbn [SFcompare] in H; try discriminate.
  - now left.
  - right. exists m, e. repeat split; auto.
    change (match SFcompare (S754_finite true m e) (S754_finite true 4503599627370496 (-52))
            with Some (Eq | Lt) => true | _ => false end = true) in H.
    rewrite SFcompare_minus in H.
    rewrite (represents_compare (S754_finite false m e) _ (Z.pos m * 2 ^ (e + bias)) vOne)
      in H; [|split; [exact Hv | reflexivity] | apply one_represents].
    cbn in H. destruct (Z.compare_spec (Z.pos m * 2 ^ (e + bias)) vOne); try discriminate; lia.
Qed.

Lemma Clamp_high (c0 : float) b :
  represents (Prim2SF c0) b -> vOne <= b -> Clamp c0 0 1 = 1%float.
Proof.
  intros Hb Hle. unfold Clamp, std_min.
  rewrite (ltb_represents c0 1 b vOne Hb) by (rewrite Prim2SF_one; apply one_represents).
  replace (b <? vOne) with false by (symmetry; apply Z.ltb_ge; exact Hle).
  reflexivity.
Qed.

Lemma Clamp_nonpos (c0 : float) :
  SFltb (Prim2SF c0) (S754_zero false) = true \/ represents (Prim2SF c0) 0 ->
  Clamp c0 0 1 = 0%float.
Proof.
  intros [Hneg|Hz].
  - apply Clamp_below. now rewrite ltb_spec, Prim2SF_zero.
  - assert (H1 : represents (Prim2SF 1) vOne) by (rewrite Prim2SF_one; apply one_represents).
    assert (H0 : represents (Prim2SF 0) 0) by (rewrite Prim2SF_zero; apply zero_represents).
    unfold Clamp, std_min. rewrite (ltb_represents c0 1 0 vOne Hz H1).
    change (0 <? vOne) with true. cbv iota. unfold std_max.
    rewrite (ltb_represents 0 c0 0 0 H0 Hz). reflexivity.
Qed.

Lemma one_value_saturates (v : double) :
  ((1 <=? v)%float = true -> Clamp (v / 2.0 + 0.5) 0.0 1.0 = 1%float)
  /\ ((v <=? -1)%float = true -> Clamp (v / 2.0 + 0.5) 0.0 1.0 = 0%float).
Proof.
  assert (Hbias : bias = 1200) by reflexivity.
  split; intros Hv.
  - destruct (leb_one v Hv) as [Hinf|(m & e & E & Hb & Hle)].
    + apply Clamp_above.
      rewrite ltb_spec, add_spec, div_spec, Hinf, Prim2SF_two, Prim2SF_half, Prim2SF_one.
      reflexivity.
    + pose proof (above_one_normal m e Hb Hle) as He.
      assert (Hq : Prim2SF (v / 2) = S754_finite false m (e - 1))
        by (rewrite div_spec, E, Prim2SF_two; now apply SFdiv_two_normal).
      assert (Hqr : represents (Prim2SF (v / 2)) (Z.pos m * 2 ^ (e - 1 + bias))).
      { pose proof (Prim2SF_valid (v / 2)) as Hval. rewrite Hq in *.
        split; [exact Hval | reflexivity]. }
      assert (Hhalf : vHalf <= Z.pos m * 2 ^ (e - 1 + bias)).
      { assert (E2 : Z.pos m * 2 ^ (e + bias) = 2 * (Z.pos m * 2 ^ (e - 1 + bias))).
        { replace (e + bias) with (1 + (e - 1 + bias)) by lia.
          rewrite (Z.pow_add_r 2 1) by lia. change (2 ^ 1) with 2. lia. }
        pose proof vOne_double. lia. }
      destruct (SFadd_half_spec _ _ Hqr) as [Hinf|Hrep];
        rewrite <- Prim2SF_half, <- add_spec in *.
      * apply Clamp_above. rewrite ltb_spec, Hinf, Prim2SF_one. reflexivity.
      * apply (Clamp_high _ _ Hrep).
        assert (Hone : R vOne = vOne) by (apply R_pow2; unfold Kmin; lia).
        rewrite <- Hone at 1. pose proof vOne_double. pose proof vHalf_pos.
        apply R_mono0; lia.
  - apply Clamp_nonpos.
    destruct (leb_minus_one v Hv) as [Hinf|(m & e & E & Hb & Hle)].
    + left. rewrite add_spec, div_spec, Hinf, Prim2SF_two, Prim2SF_half. reflexivity.
    + pose proof (above_one_normal m e Hb Hle) as He.
      assert (Hq : Prim2SF (v / 2) = S754_finite true m (e - 1))
        by (rewrite div_spec, E, Prim2SF_two; now apply SFdiv_two_normal).
      assert (Hqb : bounded prec emax m (e - 1) = true).
      { pose proof (Prim2SF_valid (v / 2)) as Hval. now rewrite Hq in Hval. }
      assert (Hhalf : vHalf <= Z.pos m * 2 ^ (e - 1 + bias)).
      { assert (E2 : Z.pos m * 2 ^ (e + bias) = 2 * (Z.pos m * 2 ^ (e - 1 + bias))).
        { replace (e + bias) with (1 + (e - 1 + bias)) by lia.
          rewrite (Z.pow_add_r 2 1) by lia. change (2 ^ 1) with 2. lia. }
        pose proof vOne_double. lia. }
      rewrite add_spec, Hq, Prim2SF_half.
      exact (proj2 (SFadd_half_minus m (e - 1) Hqb) Hhalf).
Qed.

(** ** Values between zero and one *)

(** Rounding moves a value by at most half a step of its grid. *)
Lemma R_error N : 0 <= N -> 2 * Z.abs (R N - N) <= 2 ^ grid N.
Proof.
  intros HN. unfold R, rne. set (K := grid N).
  assert (HK : 0 <= K) by apply grid_nonneg.
  assert (P : 0 < 2 ^ K) by (apply Z.pow_pos_nonneg; lia).
  pose proof (Z.div_mod N (2 ^ K) ltac:(lia)) as Hdm.
  pose proof (Z.mod_pos_bound N (2 ^ K) P) as Hr.
  destruct (Z.ltb_spec (2 * (N mod 2 ^ K)) (2 ^ K)); [nia|].
  destruct (Z.ltb_spec (2 ^ K) (2 * (N mod 2 ^ K))); [nia|].
  destruct (Z.even (N / 2 ^ K)); nia.
Qed.

Lemma grid_below_one N : 0 <= N < vOne -> grid N <= bias - 53.
Proof.
  intros [H0 H1]. unfold grid, Kmin.
  destruct (Z.eq_dec N 0) as [->|Hne]; [cbn; unfold bias; lia|].
  assert (Z.log2 N < bias) by (apply Z.log2_lt_pow2; [lia | exact H1]).
  unfold bias in *. lia.
Qed.

(** A value just above one half rounds to one half. *)
Lemma R_near_half t : 0 <= t < 2 ^ (bias - 54) -> R (vHalf + t) = vHalf.
Proof.
  intros [Ht0 Ht1]. assert (Hbias : bias = 1200) by reflexivity.
  assert (P54 : 0 < 2 ^ (bias - 54)) by (apply Z.pow_pos_nonneg; lia).
  assert (E53 : 2 ^ (bias - 53) = 2 * 2 ^ (bias - 54)).
  { replace (bias - 53) with (1 + (bias - 54)) by lia.
    rewrite (Z.pow_add_r 2 1) by lia. reflexivity. }
  assert (Eh : vHalf = 2 ^ 52 * 2 ^ (bias - 53)).
  { unfold vHalf. rewrite <- Z.pow_add_r by lia. f_equal; lia. }
  assert (Hg : grid (vHalf + t) = bias - 53).
  { unfold grid, Kmin.
    assert (Hl : Z.log2 (vHalf + t) = bias - 1).
    { apply Z.log2_unique; [lia|].
      assert (E1 : 2 ^ (bias - 1 + 1) = 2 * vHalf).
      { rewrite Z.pow_add_r by lia. unfold vHalf. change (2 ^ 1) with 2. lia. }
      unfold Z.succ. rewrite E1. fold vHalf. rewrite Eh.
      assert (0 < 2 ^ 52 * 2 ^ (bias - 53)) by lia. lia. }
    rewrite Hl. lia. }
  unfold R. rewrite Hg. unfold rne.
  assert (Hq : (vHalf + t) / 2 ^ (bias - 53) = 2 ^ 52).
  { symmetry. apply (Z.div_unique _ _ _ t); [left; lia | rewrite Eh; lia]. }
  assert (Hr : (vHalf + t) mod 2 ^ (bias - 53) = t).
  { symmetry. apply (Z.mod_unique _ _ (2 ^ 52)); [left; lia | rewrite Eh; lia]. }
  rewrite Hq, Hr.
  replace (2 * t <? 2 ^ (bias - 53)) with true by (symmetry; apply Z.ltb_lt; lia).
  symmetry. exact Eh.
Qed.

Lemma Zdigits2_bound z k : 0 <= z < 2 ^ k -> 0 <= k -> Zdigits2 z <= k.
Proof.
  intros [H0 H1] Hk. destruct z as [|p|p]; [cbn; lia| |lia].
  cbn [Zdigits2]. rewrite digits2_pos_log2.
  assert (Z.log2 (Z.pos p) < k) by (apply Z.log2_lt_pow2; lia). lia.
Qed.

Lemma round_nearest_even_bounds m l : m <= round_nearest_even m l <= m + 1.
Proof. destruct l as [|[]]; cbn; try lia. destruct (Z.even m); lia. Qed.

Lemma loc_of_shr_record_of_loc m l : loc_of_shr_record (shr_record_of_loc m l) = l.
Proof. destruct l as [|[]]; reflexivity. Qed.

(** Rounding a small significand at the lowest exponent. *)
Lemma binary_round_aux_small q l :
  0 <= q < 2 ^ 52 ->
  exists b, represents (binary_round_aux prec emax false q (-1074) l) b
            /\ b <= (q + 1) * 2 ^ Kmin.
Proof.
  intros [Hq0 Hq1]. assert (Hbias : bias = 1200) by reflexivity.
  assert (PK : 0 < 2 ^ Kmin) by (apply Z.pow_pos_nonneg; [lia | apply Kmin_nonneg]).
  unfold binary_round_aux, shr_fexp.
  pose proof (Zdigits2_bound q 52 (conj Hq0 Hq1) ltac:(lia)) as Hd.
  rewrite (shr_nonpos _ (-1074)) by (rewrite fexp_eq; lia).
  rewrite shr_record_of_loc_m, loc_of_shr_record_of_loc.
  pose proof (round_nearest_even_bounds q l) as Hm1.
  set (m1 := round_nearest_even q l) in *.
  assert (Hd1 : Zdigits2 m1 <= 53).
  { apply Zdigits2_bound; [|lia]. change (2 ^ 53) with (2 * 2 ^ 52). lia. }
  rewrite (shr_nonpos _ (-1074)) by (rewrite fexp_eq; lia).
  cbn [shr_record_of_loc shr_m].
  destruct m1 as [|p|p] eqn:E; [| |lia].
  - exists 0. split; [apply zero_represents | nia].
  - change (-1074 <=? emax - prec) with true. cbv iota.
    exists (Z.pos p * 2 ^ (-1074 + bias)). split.
    + split; [|reflexivity]. unfold bounded, canonical_mantissa.
      apply andb_true_iff. split; [apply Z.eqb_eq | reflexivity].
      cbn [Zdigits2] in Hd1. rewrite fexp_eq. lia.
    + change (-1074 + bias) with Kmin. nia.
Qed.

(** Half of a double at the lowest exponent is not more than the double. *)
Lemma SFdiv_two_subnormal m :
  bounded prec emax m (-1074) = true ->
  exists b, represents (SF64div (S754_finite false m (-1074))
                          (S754_finite false 4503599627370496 (-51))) b
            /\ b <= Z.pos m * 2 ^ Kmin.
Proof.
  intros Hb. destruct (valid_finite_bounds false m (-1074) Hb) as (_ & Hd & _).
  destruct (bounded_facts m _ Hb) as (_ & Hm & _).
  assert (PK : 0 < 2 ^ Kmin) by (apply Z.pow_pos_nonneg; [lia | apply Kmin_nonneg]).
  unfold SF64div, SFdiv, SFdiv_core_binary. cbn [xorb Zdigits2].
  change (Z.pos (digits2_pos 4503599627370496)) with 53.
  rewrite fexp_eq.
  set (e' := Z.min (Z.max (Z.pos (digits2_pos m) + -1074 - (53 + -51) - 53) (-1074))
                   (-1074 - -51)).
  assert (He' : e' = -1074) by (subst e'; lia).
  rewrite He'. change (-1074 - -51 - -1074) with 51.
  rewrite Z.shiftl_mul_pow2 by lia. rewrite div_eucl_pair.
  change 4503599627370496 with (2 * 2 ^ 51) at 1 2.
  rewrite Z.div_mul_cancel_r by lia.
  assert (Hq : 0 <= Z.pos m / 2 < 2 ^ 52).
  { split; [apply Z.div_pos; lia|]. apply Z.div_lt_upper_bound; [lia|].
    change (2 * 2 ^ 52) with (2 ^ 53). exact Hm. }
  destruct (binary_round_aux_small (Z.pos m / 2) 
              (new_location 4503599627370496 ((Z.pos m * 2 ^ 51) mod (2 * 2 ^ 51))) Hq)
    as (b & Hrep & Hle).
  exists b. split; [exact Hrep|].
  assert (Z.pos m / 2 + 1 <= Z.pos m).
  { pose proof (Z.div_mod (Z.pos m) 2 ltac:(lia)). pose proof (Z.mod_pos_bound (Z.pos m) 2).
    lia. }
  nia.
Qed.

Lemma Clamp_unit (c0 : float) b :
  represents (Prim2SF c0) b -> 0 < b <= vOne -> represents (Prim2SF (Clamp c0 0 1)) b.
Proof.
  intros Hb [Hpos Hle].
  assert (H1 : represents (Prim2SF 1) vOne) by (rewrite Prim2SF_one; apply one_represents).
  assert (H0 : represents (Prim2SF 0) 0) by (rewrite Prim2SF_zero; apply zero_represents).
  unfold Clamp, std_min. rewrite (ltb_represents c0 1 b vOne Hb H1).
  destruct (Z.ltb_spec b vOne) as [Hlt|Hge].
  - unfold std_max. rewrite (ltb_represents 0 c0 0 b H0 Hb).
    replace (0 <? b) with true by (symmetry; apply Z.ltb_lt; lia). exact Hb.
  - assert (b = vOne) by lia. subst b. exact H1.
Qed.

(** Half of a double of [0,1]: exact, or below the double when the double
    is at the lowest exponent. *)
Lemma half_of_unit (v : float) a :
  represents (Prim2SF v) a -> a <= vOne ->
  exists bq, represents (Prim2SF (v / 2)) bq
             /\ (2 * bq = a \/ (bq <= a /\ a < 2 ^ (bias - 1021))).
Proof.
  intros Hv Hle. assert (Hbias : bias = 1200) by reflexivity.
  rewrite div_spec, Prim2SF_two.
  destruct (Prim2SF v) as [s|s| |[] m e]; cbn [represents] in Hv; try contradiction.
  - subst a. exists 0. split; [apply zero_represents | now left].
  - destruct Hv as [Hb ->]. destruct (bounded_facts m e Hb) as (He & Hm & _).
    destruct (Z.eq_dec e (-1074)) as [->|Hne].
    + destruct (SFdiv_two_subnormal m Hb) as (bq & Hrep & Hbq).
      exists bq. split; [exact Hrep|]. right. change (-1074 + bias) with Kmin. split; [exact Hbq|].
      assert (PK : 0 < 2 ^ Kmin) by (apply Z.pow_pos_nonneg; [lia | apply Kmin_nonneg]).
      assert (E : 2 ^ (bias - 1021) = 2 ^ 53 * 2 ^ Kmin).
      { rewrite <- Z.pow_add_r by (unfold Kmin; lia). f_equal; unfold Kmin; lia. }
      rewrite E. nia.
    + assert (He' : -1074 < e) by lia.
      rewrite (SFdiv_two_normal false m e Hb He').
      assert (Hb' : bounded prec emax m (e - 1) = true).
      { pose proof (normal_digits m e Hb He') as Hd.
        unfold bounded, canonical_mantissa. rewrite Hd, fexp_eq.
        apply andb_true_iff. split; [apply Z.eqb_eq | apply Z.leb_le; unfold emax, prec]; lia. }
      exists (Z.pos m * 2 ^ (e - 1 + bias)). split; [split; [exact Hb' | reflexivity]|].
      left. replace (e + bias) with (1 + (e - 1 + bias)) by lia.
      rewrite (Z.pow_add_r 2 1) by lia. change (2 ^ 1) with 2. lia.
Qed.

(** The + half that a SET line with one value gives for a value of
    [0,1], as a scaled integer. *)
Lemma one_value_hi (v : float) a :
  represents (Prim2SF v) a -> a <= vOne ->
  exists h, represents (Prim2SF (axis_hi (Clamp (v / 2.0 + 0.5) 0.0 1.0))) h
            /\ Z.abs (h - a) <= 2 ^ (bias - 53).
Proof.
  intros Hv Hle. assert (Hbias : bias = 1200) by reflexivity.
  pose proof (represents_nonneg _ _ Hv) as Ha0.
  pose proof vHalf_pos as Hh. pose proof vOne_double as Hd.
  destruct (half_of_unit v a Hv Hle) as (bq & Hq & Hcase).
  pose proof (represents_nonneg _ _ Hq) as Hq0.
  assert (Hqh : bq <= vHalf) by (destruct Hcase as [?|[? ?]]; [lia|];
    assert (2 ^ (bias - 1021) <= vHalf)
      by (unfold vHalf; apply Z.pow_le_mono_r; lia); lia).
  assert (Hbig : bq < 2 ^ (bias + 999)).
  { assert (vHalf < 2 ^ (bias + 999))
      by (unfold vHalf; apply Z.pow_lt_mono_r; lia). lia. }
  pose proof (SFadd_half_exact _ _ Hq Hbig) as Hc0.
  rewrite <- Prim2SF_half, <- add_spec in Hc0.
  set (N := bq + vHalf) in *.
  assert (HRh : R vHalf = vHalf) by (apply R_pow2, bias_Kmin).
  assert (HR1 : R vOne = vOne) by (apply R_pow2; unfold Kmin; lia).
  assert (Hb1 : vHalf <= R N) by (rewrite <- HRh at 1; apply R_mono0; lia).
  assert (Hb2 : R N <= vOne) by (rewrite <- HR1; apply R_mono0; lia).
  pose proof (Clamp_unit _ _ Hc0 ltac:(lia)) as Hc.
  pose proof (axis_hi_represents _ _ Hc Hb2) as Hhi.
  rewrite (HI_exact _ _ Hc ltac:(lia)) in Hhi.
  exists (2 * R N - vOne). split; [exact Hhi|].
  assert (P53 : 0 < 2 ^ (bias - 53)) by (apply Z.pow_pos_nonneg; lia).
  destruct Hcase as [Hex|[Hsm Hlt]].
  - destruct (Z.eq_dec N vOne) as [E|Hne]; [rewrite E, HR1; lia|].
    pose proof (R_error N ltac:(lia)) as Herr.
    pose proof (grid_below_one N ltac:(lia)) as Hg.
    assert (2 ^ grid N <= 2 ^ (bias - 53))
      by (apply Z.pow_le_mono_r; [lia | exact Hg]).
    lia.
  - assert (Hl : 2 ^ (bias - 1021) <= 2 ^ (bias - 54)) by (apply Z.pow_le_mono_r; lia).
    assert (Hl' : 2 ^ (bias - 54) <= 2 ^ (bias - 53)) by (apply Z.pow_le_mono_r; lia).
    unfold N. rewrite Z.add_comm, R_near_half by lia. lia.
Qed.

(** X19: a SET line with one value of magnitude one or more drives the
    axis to its end: a value of at least 1 (infinity included) sets the +
    half to 1 and the - half to 0, a value of at most -1 sets the - half
    to 1 and the + half to 0, each when the half exists. *)
Theorem one_value_reaches_the_ends (dev : PipeDevice) (tokens : list string) :
  length tokens = 3%nat -> token tokens 0 = "SET" ->
  let v := StringToDouble (token tokens 2) in
  let dev' := ParseTokens dev tokens in
  let hi := token tokens 1 ++ " +" in
  let lo := token tokens 1 ++ " -" in
  ((1 <=? v)%float = true ->
   axis_state dev' hi = (fun _ => 1%float) <$> axis_state dev hi
   /\ axis_state dev' lo = (fun _ => 0%float) <$> axis_state dev lo)
  /\ ((v <=? -1)%float = true ->
      axis_state dev' hi = (fun _ => 0%float) <$> axis_state dev hi
      /\ axis_state dev' lo = (fun _ => 1%float) <$> axis_state dev lo).
Proof.
  intros Hlen Hset. cbv zeta. rewrite ParseTokens_SET3 by assumption.
  destruct (one_value_saturates (StringToDouble (token tokens 2))) as [Hup Hdown].
  rewrite SetAxis_lookup_lo, SetAxis_lookup_hi.
  split; intros Hv; [rewrite (Hup Hv) | rewrite (Hdown Hv)]; split; reflexivity.
Qed.

Lemma one_value_reaches_the_ends_witness :
  axis_state (ParseTokens (new_PipeDevice 0) ["SET"; "L"; "2.5"]) "L +" = Some 1%float
  /\ axis_state (ParseTokens (new_PipeDevice 0) ["SET"; "L"; "2.5"]) "L -" = Some 0%float.
Proof.
  exact (proj1 (one_value_reaches_the_ends (new_PipeDevice 0) ["SET"; "L"; "2.5"]
                  eq_refl eq_refl) eq_refl).
Defined.

(** X20: a SET line with one value in [0,1] stores that value in the +
    half to within 2^-53: the state stored differs from the value read by
    at most 2^(bias - 53) as scaled integers, where one is 2^bias. *)
Theorem one_value_is_kept (dev : PipeDevice) (tokens : list string) (a : Z) :
  length tokens = 3%nat -> token tokens 0 = "SET" ->
  represents (Prim2SF (StringToDouble (token tokens 2))) a -> a <= vOne ->
  exists (hi : double) (h : Z),
    axis_state (ParseTokens dev tokens) (token tokens 1 ++ " +")
    = (fun _ => hi) <$> axis_state dev (token tokens 1 ++ " +")
    /\ represents (Prim2SF hi) h
    /\ Z.abs (h - a) <= 2 ^ (bias - 53).
Proof.
  intros Hlen Hset Hv Hle. rewrite ParseTokens_SET3 by assumption.
  destruct (one_value_hi _ a Hv Hle) as (h & Hh & Hbound).
  eexists. exists h. rewrite SetAxis_lookup_hi. repeat split; [exact Hh | exact Hbound].
Qed.

Lemma one_value_is_kept_witness :
  exists (hi : double) (h : Z),
    axis_state (ParseTokens (new_PipeDevice 0) ["SET"; "L"; "0.75"]) "L +"
    = (fun _ => hi) <$> axis_state (new_PipeDevice 0) "L +"
    /\ represents (Prim2SF hi) h
    /\ Z.abs (h - 3 * 2 ^ (bias - 2)) <= 2 ^ (bias - 53).
Proof.
  apply (one_value_is_kept (new_PipeDevice 0) ["SET"; "L"; "0.75"] (3 * 2 ^ (bias - 2)));
    try reflexivity.
  - split; [reflexivity|]. vm_compute. reflexivity.
  - vm_compute. discriminate.
Defined.

End OneValue.
